(** * HMMER: the P7_PROFILE search profile and the P7_REFMX matrix layout

    A shallow embedding of [h3/p7_profile.c] and of the access macros of
    [src/p7_refmx.h].  C objects live in a block memory: every [malloc]
    yields a fresh block of cells, a pointer is a block and a cell offset,
    and a read or write outside a live block has no outcome.  Functions are
    programs in a state monad with the [goto ERROR] idiom of Easel as an
    exception layer. *)

From stdpp Require Import base option list gmap.
From Stdlib Require Import ZArith Lia.
From Stdlib Require Import Floats.SpecFloat.

Local Open Scope Z_scope.

(** ** Values, pointers and memory *)

(** A C [float] is an IEEE binary32 number. *)
Definition float := spec_float.
Definition f_prec : Z := 24.
Definition f_emax : Z := 128.

Inductive ptr :=
  | NULL
  | Ptr (b : Z) (ofs : Z).

Inductive val :=
  | Vundef
  | Vint (n : Z)
  | Vflt (x : float)
  | Vptr (p : ptr).

Inductive datatype := MPI_INT | MPI_FLOAT.

(** A message as [MPI_Send] posts it and as [MPI_Recv] finds it: [peer] is
    the destination rank on the sending side, the source rank on the
    receiving side. *)
Record message := Msg {
  peer : Z;
  tag : Z;
  dtype : datatype;
  payload : list val
}.

Record state := State {
  mem : gmap Z (list val);   (* live blocks *)
  brk : Z;                   (* the next block malloc hands out *)
  heap_ok : list bool;       (* fate of the coming malloc calls; none left: success *)
  sent : list message;       (* messages posted, oldest first *)
  inbox : list message       (* messages delivered and not yet received *)
}.

Definition with_mem (s : state) (m : gmap Z (list val)) : state :=
  State m (brk s) (heap_ok s) (sent s) (inbox s).

(** Pointer arithmetic [p + k]. *)
Definition ptr_add (p : ptr) (k : Z) : ptr :=
  match p with
  | NULL => NULL
  | Ptr b o => Ptr b (o + k)
  end.

Infix "+ₚ" := ptr_add (at level 50, left associativity).

(** Reading and writing one cell. *)
Definition rd (s : state) (p : ptr) : option val :=
  match p with
  | NULL => None
  | Ptr b o =>
      l ← mem s !! b;
      if decide (0 ≤ o) then l !! Z.to_nat o else None
  end.

Definition wr (s : state) (p : ptr) (v : val) : option state :=
  match p with
  | NULL => None
  | Ptr b o =>
      l ← mem s !! b;
      if decide (0 ≤ o < Z.of_nat (length l))
      then Some (with_mem s (<[b := <[Z.to_nat o := v]> l]> (mem s)))
      else None
  end.

Definition rd_ptr (s : state) (p : ptr) : option ptr :=
  v ← rd s p; match v with Vptr q => Some q | _ => None end.

Definition rd_int (s : state) (p : ptr) : option Z :=
  v ← rd s p; match v with Vint n => Some n | _ => None end.

Definition rd_flt (s : state) (p : ptr) : option float :=
  v ← rd s p; match v with Vflt x => Some x | _ => None end.

(** ** Programs *)

(** Easel status codes used by this file. *)
Inductive status := eslOK | eslFAIL | eslEOD | eslEMEM | eslEINVAL.

(** A program ends normally with a value, or has jumped to its [ERROR:]
    label with [status] set.  With no outcome at all ([None]) the call does
    not return to its caller: its behaviour is undefined, or the process
    has been aborted. *)
Inductive result (A : Type) :=
  | Normal (a : A)
  | Thrown (code : status).
Arguments Normal {A} a.
Arguments Thrown {A} code.

Definition prog (A : Type) : Type := state → option (result A * state).

Definition ret {A} (a : A) : prog A := λ s, Some (Normal a, s).

Definition bind {A B} (m : prog A) (k : A → prog B) : prog B :=
  λ s, match m s with
       | Some (Normal a, s') => k a s'
       | Some (Thrown c, s') => Some (Thrown c, s')
       | None => None
       end.

Definition throw {A} (c : status) : prog A := λ s, Some (Thrown c, s).

Definition catch {A} (m : prog A) (h : status → prog A) : prog A :=
  λ s, match m s with
       | Some (Normal a, s') => Some (Normal a, s')
       | Some (Thrown c, s') => h c s'
       | None => None
       end.

Definition undefined {A} : prog A := λ _, None.

Declare Scope prog_scope.
Delimit Scope prog_scope with prog.
Notation "x <- m ;; k" := (bind m (λ x, k))
  (at level 100, m at next level, right associativity) : prog_scope.
Notation "m ;; k" := (bind m (λ _, k))
  (at level 100, right associativity) : prog_scope.
Local Open Scope prog_scope.

Definition lift {A} (f : state → option A) : prog A :=
  λ s, match f s with Some a => Some (Normal a, s) | None => None end.

Definition load (p : ptr) : prog val := lift (λ s, rd s p).
Definition load_ptr (p : ptr) : prog ptr := lift (λ s, rd_ptr s p).
Definition load_int (p : ptr) : prog Z := lift (λ s, rd_int s p).
Definition load_flt (p : ptr) : prog float := lift (λ s, rd_flt s p).

Definition store (p : ptr) (v : val) : prog unit :=
  λ s, match wr s p v with Some s' => Some (Normal tt, s') | None => None end.

(** [for (x = lo; x < hi; x++) body].  The bounds of every loop of the file
    are loop invariant (no body writes them), so they are read once. *)
Fixpoint for_range (n : nat) (x : Z) (body : Z → prog unit) : prog unit :=
  match n with
  | O => ret tt
  | S n' => body x;; for_range n' (x + 1) body
  end.

Definition for_loop (lo hi : Z) (body : Z → prog unit) : prog unit :=
  for_range (Z.to_nat (hi - lo)) lo body.

Definition is_NULL (p : ptr) : bool :=
  match p with NULL => true | Ptr _ _ => false end.

(** ** Easel's exceptions

    [easel.c] is not among the sources; its exception mechanism is the one
    Easel documents.  [esl_exception(code, file, line, format, ...)] reports
    a failure to the exception handler.  The handler is the static function
    pointer [esl_exception_handler], [NULL] until the application installs
    one with [esl_exception_SetHandler].  With a handler installed,
    [esl_exception] calls it and returns; an installed handler is taken to
    return and to leave the memory alone.  With none, [esl_exception]
    prints the message and calls [abort()]: the process is killed, and the
    call does not return. *)
Definition esl_exception_handler : ptr := Ptr (-1) 0.

Definition abort {A} : prog A := λ _, None.

Definition esl_exception : prog unit :=
  handler <- load_ptr esl_exception_handler;;
  if is_NULL handler then abort else ret tt.

(** The two settings of the handler, and [esl_exception_SetHandler]. *)
Definition handler_installed (s : state) : Prop :=
  ∃ h, h ≠ NULL ∧ rd s esl_exception_handler = Some (Vptr h).

Definition handler_default (s : state) : Prop :=
  rd s esl_exception_handler = Some (Vptr NULL).

Definition esl_exception_SetHandler (h : ptr) (s : state) : state :=
  with_mem s (<[ -1 := [Vptr h] ]> (mem s)).

(** ** Constants of hmmer.h

    [hmmer.h] is not among the sources.  The state types are the values of
    [enum p7_statetype]; the functions below only compare them.  The seven
    transition channels index the rows of [tsc], the four special states the
    rows of [xsc] and [xt], and [p7_MOVE]/[p7_LOOP] their two columns. *)

Definition p7_STBOGUS : Z := 0.
Definition p7_STM : Z := 1.
Definition p7_STD : Z := 2.
Definition p7_STI : Z := 3.
Definition p7_STS : Z := 4.
Definition p7_STN : Z := 5.
Definition p7_STB : Z := 6.
Definition p7_STE : Z := 7.
Definition p7_STC : Z := 8.
Definition p7_STT : Z := 9.
Definition p7_STJ : Z := 10.

Definition p7_TMM : Z := 0.
Definition p7_TMI : Z := 1.
Definition p7_TMD : Z := 2.
Definition p7_TIM : Z := 3.
Definition p7_TII : Z := 4.
Definition p7_TDM : Z := 5.
Definition p7_TDD : Z := 6.

Definition p7_XTN : Z := 0.
Definition p7_XTE : Z := 1.
Definition p7_XTC : Z := 2.
Definition p7_XTJ : Z := 3.

Definition p7_MOVE : Z := 0.
Definition p7_LOOP : Z := 1.

Definition p7_IMPOSSIBLE : Z := -987654321.

Definition p7_NO_MODE : Z := 0.

(** The cells of [struct p7_profile_s], one per scalar field; the inline
    arrays [xsc[4][2]] and [xt[4][2]] take eight cells each. *)
Module P7_PROFILE.
Definition mode : Z := 0.
Definition abc : Z := 1.
Definition hmm : Z := 2.
Definition bg : Z := 3.
Definition M : Z := 4.
Definition tsc : Z := 5.
Definition msc : Z := 6.
Definition isc : Z := 7.
Definition xsc : Z := 8.
Definition bsc : Z := 16.
Definition esc : Z := 17.
Definition xt : Z := 18.
Definition begin : Z := 26.
Definition end_ : Z := 27.
Definition do_lcorrect : Z := 28.
Definition lscore : Z := 29.
Definition h2_mode : Z := 30.
Definition sizeof : Z := 31.
End P7_PROFILE.

(** [gm->f], [gm->xsc[i][j]] and [gm->xt[i][j]] as addresses. *)
Definition field (gm : ptr) (f : Z) : ptr := gm +ₚ f.
Definition xsc_cell (gm : ptr) (i j : Z) : ptr := gm +ₚ (P7_PROFILE.xsc + 2 * i + j).
Definition xt_cell (gm : ptr) (i j : Z) : ptr := gm +ₚ (P7_PROFILE.xt + 2 * i + j).

(** ** Access methods *)

(** [gm->f[k]] for a vector field and [gm->f[x][k]] for a table field. *)
Definition load_vec (gm : ptr) (f : Z) (k : Z) : prog val :=
  v <- load_ptr (field gm f);;
  load (v +ₚ k).

Definition load_tbl (gm : ptr) (f : Z) (x k : Z) : prog val :=
  t <- load_ptr (field gm f);;
  row <- load_ptr (t +ₚ x);;
  load (row +ₚ k).

(** [ESL_XEXCEPTION(code, ...)]:
    [status = code; esl_exception(code, ...); goto ERROR;]. *)
Definition ESL_XEXCEPTION {A} (code : status) : prog A :=
  esl_exception;; throw code.
Arguments ESL_XEXCEPTION : simpl never.

Definition p7_profile_GetT (gm : ptr) (st1 k1 st2 k2 : Z) (ret_tsc : ptr) : prog status :=
  catch
    (tsc <-
       (if st1 =? p7_STS then ret (Vint 0)
        else if st1 =? p7_STT then ret (Vint 0)
        else if st1 =? p7_STN then
          (if st2 =? p7_STB then load (xsc_cell gm p7_XTN p7_MOVE)
           else if st2 =? p7_STN then load (xsc_cell gm p7_XTN p7_LOOP)
           else ESL_XEXCEPTION eslEINVAL)
        else if st1 =? p7_STB then
          (if st2 =? p7_STM then load_vec gm P7_PROFILE.bsc k2
           else ESL_XEXCEPTION eslEINVAL)
        else if st1 =? p7_STM then
          (if st2 =? p7_STM then load_tbl gm P7_PROFILE.tsc p7_TMM k1
           else if st2 =? p7_STI then load_tbl gm P7_PROFILE.tsc p7_TMI k1
           else if st2 =? p7_STD then load_tbl gm P7_PROFILE.tsc p7_TMD k1
           else if st2 =? p7_STE then load_vec gm P7_PROFILE.esc k1
           else ESL_XEXCEPTION eslEINVAL)
        else if st1 =? p7_STD then
          (if st2 =? p7_STM then load_tbl gm P7_PROFILE.tsc p7_TDM k1
           else if st2 =? p7_STD then load_tbl gm P7_PROFILE.tsc p7_TDD k1
           else ESL_XEXCEPTION eslEINVAL)
        else if st1 =? p7_STI then
          (if st2 =? p7_STM then load_tbl gm P7_PROFILE.tsc p7_TIM k1
           else if st2 =? p7_STI then load_tbl gm P7_PROFILE.tsc p7_TII k1
           else ESL_XEXCEPTION eslEINVAL)
        else if st1 =? p7_STE then
          (if st2 =? p7_STC then load (xsc_cell gm p7_XTE p7_MOVE)
           else if st2 =? p7_STJ then load (xsc_cell gm p7_XTE p7_LOOP)
           else ESL_XEXCEPTION eslEINVAL)
        else if st1 =? p7_STJ then
          (if st2 =? p7_STB then load (xsc_cell gm p7_XTJ p7_MOVE)
           else if st2 =? p7_STJ then load (xsc_cell gm p7_XTJ p7_LOOP)
           else ESL_XEXCEPTION eslEINVAL)
        else if st1 =? p7_STC then
          (if st2 =? p7_STT then load (xsc_cell gm p7_XTC p7_MOVE)
           else if st2 =? p7_STC then load (xsc_cell gm p7_XTC p7_LOOP)
           else ESL_XEXCEPTION eslEINVAL)
        else ESL_XEXCEPTION eslEINVAL);;
     store ret_tsc tsc;;
     ret eslOK)
    (λ status,
       store ret_tsc (Vint 0);;
       ret status).

(** ** The transition grammar, as the specification words it *)

(** The legal source -> destination pairs of the state grammar. *)
Definition state_grammar : list (Z * list Z) :=
  [ (p7_STN, [p7_STB; p7_STN]);
    (p7_STB, [p7_STM]);
    (p7_STM, [p7_STM; p7_STI; p7_STD; p7_STE]);
    (p7_STD, [p7_STM; p7_STD]);
    (p7_STI, [p7_STM; p7_STI]);
    (p7_STE, [p7_STC; p7_STJ]);
    (p7_STJ, [p7_STB; p7_STJ]);
    (p7_STC, [p7_STT; p7_STC]) ].

Definition legal_transition (st1 st2 : Z) : bool :=
  existsb (λ '(src, dsts), (st1 =? src) && existsb (Z.eqb st2) dsts) state_grammar.

(** A stored score: an entry of [xsc], [bsc], [esc] or [tsc]. *)
Inductive score_ref :=
  | Xsc (i j : Z)
  | Bsc (k : Z)
  | Esc (k : Z)
  | Tsc (x k : Z).

(** Which stored score each legal pair stands for, given the two node
    indices [k1] and [k2]. *)
Definition transition_table : list (Z * Z * (Z → Z → score_ref)) :=
  [ (p7_STN, p7_STB, λ _ _, Xsc p7_XTN p7_MOVE);
    (p7_STN, p7_STN, λ _ _, Xsc p7_XTN p7_LOOP);
    (p7_STB, p7_STM, λ _ k2, Bsc k2);
    (p7_STM, p7_STM, λ k1 _, Tsc p7_TMM k1);
    (p7_STM, p7_STI, λ k1 _, Tsc p7_TMI k1);
    (p7_STM, p7_STD, λ k1 _, Tsc p7_TMD k1);
    (p7_STM, p7_STE, λ k1 _, Esc k1);
    (p7_STD, p7_STM, λ k1 _, Tsc p7_TDM k1);
    (p7_STD, p7_STD, λ k1 _, Tsc p7_TDD k1);
    (p7_STI, p7_STM, λ k1 _, Tsc p7_TIM k1);
    (p7_STI, p7_STI, λ k1 _, Tsc p7_TII k1);
    (p7_STE, p7_STC, λ _ _, Xsc p7_XTE p7_MOVE);
    (p7_STE, p7_STJ, λ _ _, Xsc p7_XTE p7_LOOP);
    (p7_STJ, p7_STB, λ _ _, Xsc p7_XTJ p7_MOVE);
    (p7_STJ, p7_STJ, λ _ _, Xsc p7_XTJ p7_LOOP);
    (p7_STC, p7_STT, λ _ _, Xsc p7_XTC p7_MOVE);
    (p7_STC, p7_STC, λ _ _, Xsc p7_XTC p7_LOOP) ].

Fixpoint assoc2 {X} (a b : Z) (t : list (Z * Z * X)) : option X :=
  match t with
  | [] => None
  | (a', b', x) :: t' => if (a =? a') && (b =? b') then Some x else assoc2 a b t'
  end.

Definition transition_ref (st1 k1 st2 k2 : Z) : option score_ref :=
  f ← assoc2 st1 st2 transition_table; Some (f k1 k2).

(** The value a stored score holds in memory [s] for the profile at [gm]. *)
Definition score_at (s : state) (gm : ptr) (r : score_ref) : option val :=
  match r with
  | Xsc i j => rd s (xsc_cell gm i j)
  | Bsc k => v ← rd_ptr s (field gm P7_PROFILE.bsc); rd s (v +ₚ k)
  | Esc k => v ← rd_ptr s (field gm P7_PROFILE.esc); rd s (v +ₚ k)
  | Tsc x k =>
      t ← rd_ptr s (field gm P7_PROFILE.tsc);
      row ← rd_ptr s (t +ₚ x);
      rd s (row +ₚ k)
  end.

(** The claim that every query is either a legal pair answered with
    [eslOK] or is answered with [eslEINVAL] and a zero score. *)
Definition GetT_accepts_exactly_the_grammar
    (s : state) (gm : ptr) (st1 k1 st2 k2 : Z) (ret_tsc : ptr) : Prop :=
  (legal_transition st1 st2 = true →
     ∃ v s', p7_profile_GetT gm st1 k1 st2 k2 ret_tsc s = Some (Normal eslOK, s')
             ∧ rd s' ret_tsc = Some v)
  ∧ (legal_transition st1 st2 = false →
     ∃ s', p7_profile_GetT gm st1 k1 st2 k2 ret_tsc s = Some (Normal eslEINVAL, s')
           ∧ rd s' ret_tsc = Some (Vint 0)).

(** A memory holding nothing but one [int] for [*ret_tsc]. *)
Definition one_int_state : state := State {[ 0 := [Vundef] ]} 1 [] [] [].

(** ** Allocation *)

(** [malloc(n)], [n] counted in cells.  The call fails when the next entry
    of [heap_ok] says so (and for a negative size); the block it hands out
    is fresh and its cells are uninitialised. *)
Definition malloc (n : Z) : prog ptr :=
  λ s,
    let fate := match heap_ok s with b :: _ => b | [] => true end in
    if fate && (0 <=? n)
    then Some (Normal (Ptr (brk s) 0),
               State (<[brk s := replicate (Z.to_nat n) Vundef]> (mem s))
                     (brk s + 1) (tail (heap_ok s)) (sent s) (inbox s))
    else Some (Normal NULL,
               State (mem s) (brk s) (tail (heap_ok s)) (sent s) (inbox s)).

(** [free(p)]: nothing for [NULL]; otherwise [p] must be a pointer [malloc]
    returned, to a block that is still live. *)
Definition free (p : ptr) : prog unit :=
  λ s,
    match p with
    | NULL => Some (Normal tt, s)
    | Ptr b o =>
        if decide (o = 0) then
          match mem s !! b with
          | Some _ => Some (Normal tt, with_mem s (delete b (mem s)))
          | None => None
          end
        else None
    end.

(** [ESL_ALLOC(p, size)] for an lvalue [p] stored at address [lv]:
    [p = malloc(size)], and on [NULL]
    [status = eslEMEM; esl_exception(eslEMEM, ...); goto ERROR]. *)
Definition ESL_ALLOC (lv : ptr) (size : Z) : prog unit :=
  p <- malloc size;;
  store lv (Vptr p);;
  if is_NULL p then (esl_exception;; throw eslEMEM) else ret tt.

(** [esl_vec_ISet(vec, n, value)] of Easel's vectorops: sets the [n] items
    of [vec] to [value]. *)
Definition esl_vec_ISet (vec : ptr) (n : Z) (value : Z) : prog unit :=
  for_loop 0 n (λ x, store (vec +ₚ x) (Vint value)).

(** The cells of Easel's [ESL_ALPHABET] this file reads: the canonical
    alphabet size [K] and the extended size [Kp].  Digital symbols are
    [0..K-1] canonical, [K] the gap, and [Kp-1] the missing-data symbol
    (Easel's [esl_abc_XGetGap] and [esl_abc_XGetMissing]). *)
Module ESL_ALPHABET.
Definition type : Z := 0.
Definition K : Z := 1.
Definition Kp : Z := 2.
Definition sizeof : Z := 3.
End ESL_ALPHABET.

Definition esl_abc_XGetGap (abc : ptr) : prog Z :=
  load_int (field abc ESL_ALPHABET.K).

Definition esl_abc_XGetMissing (abc : ptr) : prog Z :=
  Kp <- load_int (field abc ESL_ALPHABET.Kp);;
  ret (Kp - 1).

(** ** The P7_PROFILE object: allocation, initialization, destruction *)

(** [gm->f[k] = v] and [gm->f[x][k] = v]. *)
Definition store_vec (gm : ptr) (f : Z) (k : Z) (v : val) : prog unit :=
  t <- load_ptr (field gm f);;
  store (t +ₚ k) v.

Definition store_tbl (gm : ptr) (f : Z) (x k : Z) (v : val) : prog unit :=
  t <- load_ptr (field gm f);;
  row <- load_ptr (t +ₚ x);;
  store (row +ₚ k) v.

(** [gm->f[x] = gm->f[0] + d]. *)
Definition set_row (gm : ptr) (f : Z) (x d : Z) : prog unit :=
  t <- load_ptr (field gm f);;
  row0 <- load_ptr (t +ₚ 0);;
  t <- load_ptr (field gm f);;
  store (t +ₚ x) (Vptr (row0 +ₚ d)).

Definition when (c : bool) (m : prog unit) : prog unit :=
  if c then m else ret tt.

(** [if (gm->f != NULL && gm->f[0] != NULL) free(gm->f[0]);] *)
Definition free_rows (gm : ptr) (f : Z) : prog unit :=
  t <- load_ptr (field gm f);;
  when (negb (is_NULL t))
    (r <- load_ptr (t +ₚ 0);;
     when (negb (is_NULL r)) (free r)).

(** [if (gm->f != NULL) free(gm->f);] *)
Definition free_field (gm : ptr) (f : Z) : prog unit :=
  t <- load_ptr (field gm f);;
  when (negb (is_NULL t)) (free t).

Definition p7_profile_Destroy (gm : ptr) : prog unit :=
  when (negb (is_NULL gm))
    (free_rows gm P7_PROFILE.tsc;;
     free_rows gm P7_PROFILE.msc;;
     free_rows gm P7_PROFILE.isc;;
     free_field gm P7_PROFILE.tsc;;
     free_field gm P7_PROFILE.msc;;
     free_field gm P7_PROFILE.isc;;
     free_field gm P7_PROFILE.bsc;;
     free_field gm P7_PROFILE.esc;;
     free_field gm P7_PROFILE.begin;;
     free_field gm P7_PROFILE.end_);;
  free gm.

Definition float_zero : float := S754_zero false.

Definition p7_profile_Create (M : Z) (abc : ptr) : prog ptr :=
  (* level 0 *)
  gm <- malloc P7_PROFILE.sizeof;;
  catch
    ((if is_NULL gm then (esl_exception;; throw eslEMEM) else ret tt);;
     store (field gm P7_PROFILE.isc) (Vptr NULL);;
     store (field gm P7_PROFILE.msc) (Vptr NULL);;
     store (field gm P7_PROFILE.tsc) (Vptr NULL);;
     store (field gm P7_PROFILE.esc) (Vptr NULL);;
     store (field gm P7_PROFILE.bsc) (Vptr NULL);;
     store (field gm P7_PROFILE.end_) (Vptr NULL);;
     store (field gm P7_PROFILE.begin) (Vptr NULL);;
     (* level 1 *)
     ESL_ALLOC (field gm P7_PROFILE.tsc) 7;;
     store_vec gm P7_PROFILE.tsc 0 (Vptr NULL);;
     Kp <- load_int (field abc ESL_ALPHABET.Kp);;
     ESL_ALLOC (field gm P7_PROFILE.msc) Kp;;
     store_vec gm P7_PROFILE.msc 0 (Vptr NULL);;
     Kp <- load_int (field abc ESL_ALPHABET.Kp);;
     ESL_ALLOC (field gm P7_PROFILE.isc) Kp;;
     store_vec gm P7_PROFILE.isc 0 (Vptr NULL);;
     ESL_ALLOC (field gm P7_PROFILE.bsc) (M + 1);;
     ESL_ALLOC (field gm P7_PROFILE.esc) (M + 1);;
     ESL_ALLOC (field gm P7_PROFILE.begin) (M + 1);;
     ESL_ALLOC (field gm P7_PROFILE.end_) (M + 1);;
     (* level 2 *)
     t <- load_ptr (field gm P7_PROFILE.tsc);;
     ESL_ALLOC (t +ₚ 0) (7 * M);;
     Kp <- load_int (field abc ESL_ALPHABET.Kp);;
     t <- load_ptr (field gm P7_PROFILE.msc);;
     ESL_ALLOC (t +ₚ 0) (Kp * (M + 1));;
     Kp <- load_int (field abc ESL_ALPHABET.Kp);;
     t <- load_ptr (field gm P7_PROFILE.isc);;
     ESL_ALLOC (t +ₚ 0) (Kp * M);;
     Kp <- load_int (field abc ESL_ALPHABET.Kp);;
     for_loop 1 Kp (λ x,
       set_row gm P7_PROFILE.msc x (x * (M + 1));;
       set_row gm P7_PROFILE.isc x (x * M));;
     for_loop 0 7 (λ x,
       set_row gm P7_PROFILE.tsc x (x * M));;
     (* memory that is never used, only there for indexing convenience *)
     store_tbl gm P7_PROFILE.tsc p7_TMM 0 (Vint p7_IMPOSSIBLE);;
     store_tbl gm P7_PROFILE.tsc p7_TMI 0 (Vint p7_IMPOSSIBLE);;
     store_tbl gm P7_PROFILE.tsc p7_TMD 0 (Vint p7_IMPOSSIBLE);;
     store_tbl gm P7_PROFILE.tsc p7_TIM 0 (Vint p7_IMPOSSIBLE);;
     store_tbl gm P7_PROFILE.tsc p7_TII 0 (Vint p7_IMPOSSIBLE);;
     store_tbl gm P7_PROFILE.tsc p7_TDM 0 (Vint p7_IMPOSSIBLE);;
     store_tbl gm P7_PROFILE.tsc p7_TDD 0 (Vint p7_IMPOSSIBLE);;
     store_tbl gm P7_PROFILE.tsc p7_TDM 1 (Vint p7_IMPOSSIBLE);;
     store_tbl gm P7_PROFILE.tsc p7_TDD 1 (Vint p7_IMPOSSIBLE);;
     Kp <- load_int (field abc ESL_ALPHABET.Kp);;
     for_loop 0 Kp (λ x,
       store_tbl gm P7_PROFILE.msc x 0 (Vint p7_IMPOSSIBLE);;
       store_tbl gm P7_PROFILE.isc x 0 (Vint p7_IMPOSSIBLE));;
     x <- esl_abc_XGetGap abc;;
     t <- load_ptr (field gm P7_PROFILE.msc);;
     row <- load_ptr (t +ₚ x);;
     esl_vec_ISet row (M + 1) p7_IMPOSSIBLE;;
     t <- load_ptr (field gm P7_PROFILE.isc);;
     row <- load_ptr (t +ₚ x);;
     esl_vec_ISet row M p7_IMPOSSIBLE;;
     x <- esl_abc_XGetMissing abc;;
     t <- load_ptr (field gm P7_PROFILE.msc);;
     row <- load_ptr (t +ₚ x);;
     esl_vec_ISet row (M + 1) p7_IMPOSSIBLE;;
     t <- load_ptr (field gm P7_PROFILE.isc);;
     row <- load_ptr (t +ₚ x);;
     esl_vec_ISet row M p7_IMPOSSIBLE;;
     (* remaining info *)
     store (field gm P7_PROFILE.mode) (Vint p7_NO_MODE);;
     store (field gm P7_PROFILE.M) (Vint M);;
     store (field gm P7_PROFILE.abc) (Vptr abc);;
     store (field gm P7_PROFILE.hmm) (Vptr NULL);;
     store (field gm P7_PROFILE.bg) (Vptr NULL);;
     store (field gm P7_PROFILE.do_lcorrect) (Vint 0);;
     store (field gm P7_PROFILE.lscore) (Vflt float_zero);;
     store (field gm P7_PROFILE.h2_mode) (Vint 0);;
     ret gm)
    (λ _,
       p7_profile_Destroy gm;;
       ret NULL).

(** A memory that holds one alphabet, of canonical size [K] and extended
    size [Kp], in block 0; [fates] are the fates of the coming mallocs. *)
Definition alphabet_state (K Kp : Z) (fates : list bool) : state :=
  State {[ 0 := [Vint 0; Vint K; Vint Kp] ]} 1 fates [] [].

(** The claim that a failed allocation makes [p7_profile_Create] return
    [NULL] to its caller. *)
Definition Create_failure_returns_NULL (s : state) (M : Z) (abc : ptr) : Prop :=
  ∃ s', p7_profile_Create M abc s = Some (Normal NULL, s').

(** ** Memory after a run of allocations

    [heap_of m0 b0 bl] is the memory [m0] with the blocks [b0], [b0+1], ...
    holding the contents listed in [bl]; [None] stands for a block that has
    been freed again.  [frame] is the state reached from a memory [m0]
    whose next block was [b0] when the blocks allocated since are [bl]. *)
Fixpoint heap_of (m0 : gmap Z (list val)) (b0 : Z) (bl : list (option (list val)))
  : gmap Z (list val) :=
  match bl with
  | [] => m0
  | ob :: bl' =>
      match ob with
      | Some l => <[b0 := l]> (heap_of m0 (b0 + 1) bl')
      | None => delete b0 (heap_of m0 (b0 + 1) bl')
      end
  end.

Definition nb (b0 : Z) (i : nat) : Z := b0 + Z.of_nat i.

Definition frame (m0 : gmap Z (list val)) (b0 : Z) (bl : list (option (list val)))
    (fates : list bool) (snt inb : list message) : state :=
  State (heap_of m0 b0 bl) (nb b0 (length bl)) fates snt inb.

(** No block at or past [brk] is live. *)
Definition fresh (s : state) : Prop := ∀ b, brk s ≤ b → mem s !! b = None.

(** What the loops of [p7_profile_Create] leave in a block: for
    [y = x, x+1, ..., x+n-1] in turn, cell [idx y] is set to [g y]. *)
Fixpoint set_at (n : nat) (x : Z) (idx : Z → Z) (g : Z → val) (l : list val)
  : list val :=
  match n with
  | O => l
  | S n' => set_at n' (x + 1) idx g (<[Z.to_nat (idx x) := g x]> l)
  end.

(** A table of [n] row pointers into block [b], row [x] at cell [x * stride]. *)
Definition row_table (b : Z) (stride : Z) (n : Z) : list val :=
  (λ x, Vptr (Ptr b (x * stride))) <$> seqZ 0 n.

(** The first [n] coming mallocs succeed. *)
Definition fates_ok (n : nat) (fates : list bool) : Prop :=
  Forall (eq true) (take n fates).

(** ** The contents of a profile

    An [image] lists what the cells of a profile hold: the scalar fields,
    the eight cells of [xsc] and of [xt], and the seven buffers.  A profile
    as [p7_profile_Create] lays it out takes eleven consecutive blocks,
    [profile_blocks]: the structure, the three tables of row pointers, the
    four vectors, and the three shared buffers the row pointers point into. *)
Record image := Image {
  i_mode : val;
  i_abc : val;
  i_hmm : val;
  i_bg : val;
  i_M : val;
  i_xsc : list val;
  i_xt : list val;
  i_do_lcorrect : val;
  i_lscore : val;
  i_h2_mode : val;
  i_bsc : list val;
  i_esc : list val;
  i_begin : list val;
  i_end : list val;
  i_tsc : list val;
  i_msc : list val;
  i_isc : list val
}.

Definition cell (l : list val) (j : nat) : val := default Vundef (l !! j).

Definition struct_cells (bb : Z) (im : image) : list val :=
  [ i_mode im; i_abc im; i_hmm im; i_bg im; i_M im;
    Vptr (Ptr (nb bb 1) 0); Vptr (Ptr (nb bb 2) 0); Vptr (Ptr (nb bb 3) 0);
    cell (i_xsc im) 0; cell (i_xsc im) 1; cell (i_xsc im) 2; cell (i_xsc im) 3;
    cell (i_xsc im) 4; cell (i_xsc im) 5; cell (i_xsc im) 6; cell (i_xsc im) 7;
    Vptr (Ptr (nb bb 4) 0); Vptr (Ptr (nb bb 5) 0);
    cell (i_xt im) 0; cell (i_xt im) 1; cell (i_xt im) 2; cell (i_xt im) 3;
    cell (i_xt im) 4; cell (i_xt im) 5; cell (i_xt im) 6; cell (i_xt im) 7;
    Vptr (Ptr (nb bb 6) 0); Vptr (Ptr (nb bb 7) 0);
    i_do_lcorrect im; i_lscore im; i_h2_mode im ].

Definition profile_blocks (bb : Z) (M Kp : Z) (im : image) : list (option (list val)) :=
  [ Some (struct_cells bb im);
    Some (row_table (nb bb 8) M 7);
    Some (row_table (nb bb 9) (M + 1) Kp);
    Some (row_table (nb bb 10) M Kp);
    Some (i_bsc im); Some (i_esc im); Some (i_begin im); Some (i_end im);
    Some (i_tsc im); Some (i_msc im); Some (i_isc im) ].

Definition impossible : val := Vint p7_IMPOSSIBLE.

(** The buffers of a fresh profile: uninitialised but for the cells that
    [p7_profile_Create] makes impossible, in the order it writes them. *)
Definition created_tsc (M : Z) : list val :=
  <[Z.to_nat (p7_TDD * M + 1) := impossible]>
    (<[Z.to_nat (p7_TDM * M + 1) := impossible]>
       (<[Z.to_nat (p7_TDD * M) := impossible]>
          (<[Z.to_nat (p7_TDM * M) := impossible]>
             (<[Z.to_nat (p7_TII * M) := impossible]>
                (<[Z.to_nat (p7_TIM * M) := impossible]>
                   (<[Z.to_nat (p7_TMD * M) := impossible]>
                      (<[Z.to_nat (p7_TMI * M) := impossible]>
                         (<[Z.to_nat (p7_TMM * M) := impossible]>
                            (replicate (Z.to_nat (7 * M)) Vundef))))))))).

Definition created_emissions (M K Kp : Z) (width : Z) : list val :=
  set_at (Z.to_nat width) 0 (λ y, (Kp - 1) * width + y) (λ _, impossible)
    (set_at (Z.to_nat width) 0 (λ y, K * width + y) (λ _, impossible)
       (set_at (Z.to_nat Kp) 0 (λ x, x * width) (λ _, impossible)
          (replicate (Z.to_nat (Kp * width)) Vundef))).

Definition created_image (M K Kp : Z) (abc : ptr) : image :=
  {| i_mode := Vint p7_NO_MODE;
     i_abc := Vptr abc;
     i_hmm := Vptr NULL;
     i_bg := Vptr NULL;
     i_M := Vint M;
     i_xsc := replicate 8 Vundef;
     i_xt := replicate 8 Vundef;
     i_do_lcorrect := Vint 0;
     i_lscore := Vflt float_zero;
     i_h2_mode := Vint 0;
     i_bsc := replicate (Z.to_nat (M + 1)) Vundef;
     i_esc := replicate (Z.to_nat (M + 1)) Vundef;
     i_begin := replicate (Z.to_nat (M + 1)) Vundef;
     i_end := replicate (Z.to_nat (M + 1)) Vundef;
     i_tsc := created_tsc M;
     i_msc := created_emissions M K Kp (M + 1);
     i_isc := created_emissions M K Kp M |}.

(** [gm->f[x][k]] and [gm->f[k]] as pure reads. *)
Definition tbl_at (s : state) (gm : ptr) (f : Z) (x k : Z) : option val :=
  t ← rd_ptr s (field gm f);
  row ← rd_ptr s (t +ₚ x);
  rd s (row +ₚ k).

Definition vec_at (s : state) (gm : ptr) (f : Z) (k : Z) : option val :=
  v ← rd_ptr s (field gm f);
  rd s (v +ₚ k).

(** ** MPI communication *)

(** Reading and writing a run of consecutive cells. *)
Definition rd_range (s : state) (p : ptr) (n : Z) : option (list val) :=
  match p with
  | NULL => None
  | Ptr b o =>
      l ← mem s !! b;
      if decide (0 ≤ o ∧ 0 ≤ n ∧ o + n ≤ Z.of_nat (length l))
      then Some (take (Z.to_nat n) (drop (Z.to_nat o) l))
      else None
  end.

Definition splice (l : list val) (o : nat) (vs : list val) : list val :=
  take o l ++ vs ++ drop (o + length vs) l.

Definition wr_range (s : state) (p : ptr) (vs : list val) : option state :=
  match p with
  | NULL => None
  | Ptr b o =>
      l ← mem s !! b;
      if decide (0 ≤ o ∧ o + Z.of_nat (length vs) ≤ Z.of_nat (length l))
      then Some (with_mem s (<[b := splice l (Z.to_nat o) vs]> (mem s)))
      else None
  end.

(** [MPI_Send(buf, count, datatype, dest, tag, MPI_COMM_WORLD)]: posts the
    [count] cells at [buf]. *)
Definition MPI_Send (buf : ptr) (count : Z) (dt : datatype) (dest tg : Z) : prog unit :=
  λ s,
    match rd_range s buf count with
    | Some vs =>
        Some (Normal tt,
              State (mem s) (brk s) (heap_ok s) (sent s ++ [Msg dest tg dt vs]) (inbox s))
    | None => None
    end.

(** The first message from [src] with tag [tg], and the rest of the inbox. *)
Fixpoint take_message (src tg : Z) (inb : list message)
  : option (message * list message) :=
  match inb with
  | [] => None
  | m :: rest =>
      if (peer m =? src) && (tag m =? tg) then Some (m, rest)
      else '(m', rest') ← take_message src tg rest; Some (m', m :: rest')
  end.

Definition datatype_eqb (a b : datatype) : bool :=
  match a, b with
  | MPI_INT, MPI_INT | MPI_FLOAT, MPI_FLOAT => true
  | _, _ => false
  end.

(** [MPI_Recv(buf, count, datatype, source, tag, MPI_COMM_WORLD, &status)]:
    takes the first matching message and stores its cells at [buf].  With
    no such message the call never returns; a message of another datatype
    or longer than [count] is an error.  [status] is written and never
    read, and is left out. *)
Definition MPI_Recv (buf : ptr) (count : Z) (dt : datatype) (src tg : Z) : prog unit :=
  λ s,
    '(m, rest) ← take_message src tg (inbox s);
    if datatype_eqb (dtype m) dt && (Z.of_nat (length (payload m)) <=? count)
    then s' ← wr_range s buf (payload m);
         Some (Normal tt, State (mem s') (brk s') (heap_ok s') (sent s') rest)
    else None.

(** A local variable whose address is taken: a block of one cell that
    lives as long as [body] runs. *)
Definition with_local {A} (init : val) (body : ptr → prog A) : prog A :=
  λ s,
    let b := brk s in
    match body (Ptr b 0)
               (State (<[b := [init]]> (mem s)) (b + 1) (heap_ok s) (sent s) (inbox s)) with
    | Some (r, s') => Some (r, with_mem s' (delete b (mem s')))
    | None => None
    end.

Definition p7_profile_MPISend (gm : ptr) (dest : Z) : prog status :=
  if is_NULL gm then
    with_local (Vint (-1)) (λ eod,
      MPI_Send eod 1 MPI_INT dest 0;;
      ret eslOK)
  else
    MPI_Send (field gm P7_PROFILE.M) 1 MPI_INT dest 0;;
    (* receiver will now allocate storage, before reading on *)
    MPI_Send (field gm P7_PROFILE.mode) 1 MPI_INT dest 0;;
    t <- load_ptr (field gm P7_PROFILE.tsc);;
    tsc0 <- load_ptr (t +ₚ 0);;
    M <- load_int (field gm P7_PROFILE.M);;
    MPI_Send tsc0 (7 * M) MPI_INT dest 0;;
    t <- load_ptr (field gm P7_PROFILE.msc);;
    msc0 <- load_ptr (t +ₚ 0);;
    M <- load_int (field gm P7_PROFILE.M);;
    abc <- load_ptr (field gm P7_PROFILE.abc);;
    Kp <- load_int (field abc ESL_ALPHABET.Kp);;
    MPI_Send msc0 ((M + 1) * Kp) MPI_INT dest 0;;
    t <- load_ptr (field gm P7_PROFILE.isc);;
    isc0 <- load_ptr (t +ₚ 0);;
    M <- load_int (field gm P7_PROFILE.M);;
    abc <- load_ptr (field gm P7_PROFILE.abc);;
    Kp <- load_int (field abc ESL_ALPHABET.Kp);;
    MPI_Send isc0 (M * Kp) MPI_INT dest 0;;
    MPI_Send (xsc_cell gm 0 0) 2 MPI_INT dest 0;;
    MPI_Send (xsc_cell gm 1 0) 2 MPI_INT dest 0;;
    MPI_Send (xsc_cell gm 2 0) 2 MPI_INT dest 0;;
    MPI_Send (xsc_cell gm 3 0) 2 MPI_INT dest 0;;
    bsc <- load_ptr (field gm P7_PROFILE.bsc);;
    M <- load_int (field gm P7_PROFILE.M);;
    MPI_Send bsc (M + 1) MPI_INT dest 0;;
    esc <- load_ptr (field gm P7_PROFILE.esc);;
    M <- load_int (field gm P7_PROFILE.M);;
    MPI_Send esc (M + 1) MPI_INT dest 0;;
    MPI_Send (xt_cell gm 0 0) 2 MPI_FLOAT dest 0;;
    MPI_Send (xt_cell gm 1 0) 2 MPI_FLOAT dest 0;;
    MPI_Send (xt_cell gm 2 0) 2 MPI_FLOAT dest 0;;
    MPI_Send (xt_cell gm 3 0) 2 MPI_FLOAT dest 0;;
    begin <- load_ptr (field gm P7_PROFILE.begin);;
    M <- load_int (field gm P7_PROFILE.M);;
    MPI_Send begin (M + 1) MPI_FLOAT dest 0;;
    end_ <- load_ptr (field gm P7_PROFILE.end_);;
    M <- load_int (field gm P7_PROFILE.M);;
    MPI_Send end_ (M + 1) MPI_FLOAT dest 0;;
    MPI_Send (field gm P7_PROFILE.do_lcorrect) 1 MPI_INT dest 0;;
    MPI_Send (field gm P7_PROFILE.lscore) 1 MPI_FLOAT dest 0;;
    MPI_Send (field gm P7_PROFILE.h2_mode) 1 MPI_INT dest 0;;
    ret eslOK.

Definition p7_profile_MPIRecv (abc bg : ptr) (ret_gm : ptr) : prog status :=
  with_local Vundef (λ pM,
    MPI_Recv pM 1 MPI_INT 0 0;;
    M <- load_int pM;;
    if M =? -1 then ret eslEOD
    else
      gm <- p7_profile_Create M abc;;
      MPI_Recv (field gm P7_PROFILE.mode) 1 MPI_INT 0 0;;
      t <- load_ptr (field gm P7_PROFILE.tsc);;
      tsc0 <- load_ptr (t +ₚ 0);;
      MPI_Recv tsc0 (7 * M) MPI_INT 0 0;;
      t <- load_ptr (field gm P7_PROFILE.msc);;
      msc0 <- load_ptr (t +ₚ 0);;
      Kp <- load_int (field abc ESL_ALPHABET.Kp);;
      MPI_Recv msc0 ((M + 1) * Kp) MPI_INT 0 0;;
      t <- load_ptr (field gm P7_PROFILE.isc);;
      isc0 <- load_ptr (t +ₚ 0);;
      Kp <- load_int (field abc ESL_ALPHABET.Kp);;
      MPI_Recv isc0 (M * Kp) MPI_INT 0 0;;
      MPI_Recv (xsc_cell gm 0 0) 2 MPI_INT 0 0;;
      MPI_Recv (xsc_cell gm 1 0) 2 MPI_INT 0 0;;
      MPI_Recv (xsc_cell gm 2 0) 2 MPI_INT 0 0;;
      MPI_Recv (xsc_cell gm 3 0) 2 MPI_INT 0 0;;
      bsc <- load_ptr (field gm P7_PROFILE.bsc);;
      MPI_Recv bsc (M + 1) MPI_INT 0 0;;
      esc <- load_ptr (field gm P7_PROFILE.esc);;
      MPI_Recv esc (M + 1) MPI_INT 0 0;;
      MPI_Recv (xt_cell gm 0 0) 2 MPI_FLOAT 0 0;;
      MPI_Recv (xt_cell gm 1 0) 2 MPI_FLOAT 0 0;;
      MPI_Recv (xt_cell gm 2 0) 2 MPI_FLOAT 0 0;;
      MPI_Recv (xt_cell gm 3 0) 2 MPI_FLOAT 0 0;;
      begin <- load_ptr (field gm P7_PROFILE.begin);;
      MPI_Recv begin (M + 1) MPI_FLOAT 0 0;;
      end_ <- load_ptr (field gm P7_PROFILE.end_);;
      MPI_Recv end_ (M + 1) MPI_FLOAT 0 0;;
      MPI_Recv (field gm P7_PROFILE.do_lcorrect) 1 MPI_INT 0 0;;
      MPI_Recv (field gm P7_PROFILE.lscore) 1 MPI_FLOAT 0 0;;
      MPI_Recv (field gm P7_PROFILE.h2_mode) 1 MPI_INT 0 0;;
      store (field gm P7_PROFILE.abc) (Vptr abc);;
      store (field gm P7_PROFILE.hmm) (Vptr NULL);;
      store (field gm P7_PROFILE.bg) (Vptr bg);;
      store ret_gm (Vptr gm);;
      ret eslOK).

(** The profile at [gm]: eleven consecutive live blocks, laid out as
    [p7_profile_Create] lays them out, that hold the image [im]. *)
Definition profile_at (s : state) (gm : ptr) (M Kp : Z) (im : image) : Prop :=
  ∃ bb, gm = Ptr bb 0
        ∧ ∀ j, (j < 11)%nat → mem s !! nb bb j = mjoin (profile_blocks bb M Kp im !! j).

(** The sizes of the cells of a profile of [M] nodes over [Kp] symbols. *)
Definition wf_image (M Kp : Z) (im : image) : Prop :=
  i_M im = Vint M
  ∧ length (i_xsc im) = 8%nat ∧ length (i_xt im) = 8%nat
  ∧ length (i_bsc im) = Z.to_nat (M + 1) ∧ length (i_esc im) = Z.to_nat (M + 1)
  ∧ length (i_begin im) = Z.to_nat (M + 1) ∧ length (i_end im) = Z.to_nat (M + 1)
  ∧ length (i_tsc im) = Z.to_nat (7 * M)
  ∧ length (i_msc im) = Z.to_nat (Kp * (M + 1))
  ∧ length (i_isc im) = Z.to_nat (Kp * M).

(** The messages [p7_profile_MPISend] posts for a profile, in order:
    (1) the model size, (2) the mode, (3) the transition scores, (4) the
    match emissions, (5) the insert emissions, (6) the four rows of [xsc],
    (7) [bsc] and [esc], (8) the four rows of [xt], (9) [begin] and [end],
    (10) [do_lcorrect] and [lscore], (11) [h2_mode]. *)
Definition row2 (l : list val) (i : nat) : list val :=
  [cell l (2 * i); cell l (2 * i + 1)].

Definition wire_format (to : Z) (im : image) : list message :=
  [ Msg to 0 MPI_INT [i_M im];
    Msg to 0 MPI_INT [i_mode im];
    Msg to 0 MPI_INT (i_tsc im);
    Msg to 0 MPI_INT (i_msc im);
    Msg to 0 MPI_INT (i_isc im);
    Msg to 0 MPI_INT (row2 (i_xsc im) 0);
    Msg to 0 MPI_INT (row2 (i_xsc im) 1);
    Msg to 0 MPI_INT (row2 (i_xsc im) 2);
    Msg to 0 MPI_INT (row2 (i_xsc im) 3);
    Msg to 0 MPI_INT (i_bsc im);
    Msg to 0 MPI_INT (i_esc im);
    Msg to 0 MPI_FLOAT (row2 (i_xt im) 0);
    Msg to 0 MPI_FLOAT (row2 (i_xt im) 1);
    Msg to 0 MPI_FLOAT (row2 (i_xt im) 2);
    Msg to 0 MPI_FLOAT (row2 (i_xt im) 3);
    Msg to 0 MPI_FLOAT (i_begin im);
    Msg to 0 MPI_FLOAT (i_end im);
    Msg to 0 MPI_INT [i_do_lcorrect im];
    Msg to 0 MPI_FLOAT [i_lscore im];
    Msg to 0 MPI_INT [i_h2_mode im] ].

(** Delivery: what was sent to [to] by the process of rank [from] arrives
    in order, stamped with its source. *)
Definition deliver (from to : Z) (out : list message) : list message :=
  (λ m, Msg from (tag m) (dtype m) (payload m)) <$> filter (λ m, peer m = to) out.

(** The end-of-data signal. *)
Definition eod_message (to : Z) : message := Msg to 0 MPI_INT [Vint (-1)].

(** What the receiver makes of an image: the alphabet and the background
    model are its own, and no model is attached. *)
Definition received_image (im : image) (abc bg : ptr) : image :=
  {| i_mode := i_mode im; i_abc := Vptr abc; i_hmm := Vptr NULL; i_bg := Vptr bg;
     i_M := i_M im; i_xsc := i_xsc im; i_xt := i_xt im;
     i_do_lcorrect := i_do_lcorrect im; i_lscore := i_lscore im;
     i_h2_mode := i_h2_mode im;
     i_bsc := i_bsc im; i_esc := i_esc im; i_begin := i_begin im; i_end := i_end im;
     i_tsc := i_tsc im; i_msc := i_msc im; i_isc := i_isc im |}.

(** ** Debugging and development code *)

(** Arithmetic on [float]: binary32 with rounding to nearest even.  An
    expression of type [float] is evaluated in [float]. *)
Definition float_add : float → float → float := SFadd f_prec f_emax.
Definition float_mul : float → float → float := SFmul f_prec f_emax.
Definition float_of_int (n : Z) : float := binary_normalize f_prec f_emax n 0 false.
Definition float_one : float := float_of_int 1.

Definition status_eqb (a b : status) : bool :=
  match a, b with
  | eslOK, eslOK | eslFAIL, eslFAIL | eslEOD, eslEOD
  | eslEMEM, eslEMEM | eslEINVAL, eslEINVAL => true
  | _, _ => false
  end.

(** [for (x = lo; x < hi; x++) a = body x a]: a loop that updates one
    local variable. *)
Fixpoint for_acc {A} (n : nat) (x : Z) (a : A) (body : Z → A → prog A) : prog A :=
  match n with
  | O => ret a
  | S n' => a' <- body x a;; for_acc n' (x + 1) a' body
  end.

Definition for_loop_acc {A} (lo hi : Z) (a : A) (body : Z → A → prog A) : prog A :=
  for_acc (Z.to_nat (hi - lo)) lo a body.

(** A [return c;] in the middle of a body leaves the function the way the
    jump to [ERROR:] does; [returning] is the function around such a body. *)
Definition return_ {A} (c : status) : prog A := throw c.
Definition returning (body : prog status) : prog status := catch body ret.

Section Validate.
(** [esl_FCompare(a, b, tol)] is Easel's comparison of two floats within
    the relative tolerance [tol]; it answers [eslOK] or [eslFAIL] and
    touches no memory.  The file only tests its answer. *)
Variable esl_FCompare : float → float → float → status.

Definition p7_profile_Validate (gm : ptr) (tol : float) : prog status :=
  returning
    (M <- load_int (field gm P7_PROFILE.M);;
     sum <- for_loop_acc 1 (M + 1) float_zero
              (λ k sum,
                 begin <- load_ptr (field gm P7_PROFILE.begin);;
                 b <- load_flt (begin +ₚ k);;
                 ret (float_add sum (float_mul b (float_of_int (M - k + 1)))));;
     when (negb (status_eqb (esl_FCompare sum float_one tol) eslOK))
          (return_ eslFAIL);;
     for_loop 1 (M + 1)
       (λ k,
          end_ <- load_ptr (field gm P7_PROFILE.end_);;
          e <- load_flt (end_ +ₚ k);;
          when (negb (SFeqb e float_one)) (return_ eslFAIL));;
     for_loop 0 4
       (λ i,
          move <- load_flt (xt_cell gm i p7_MOVE);;
          loop <- load_flt (xt_cell gm i p7_LOOP);;
          when (negb (status_eqb (esl_FCompare (float_add move loop) float_one tol) eslOK))
               (return_ eslFAIL));;
     ret eslOK).

(** The three invariants of the implicit probability model, over the
    image of a profile. *)
Definition flt_at (l : list val) (k : Z) : float :=
  match l !! Z.to_nat k with
  | Some (Vflt x) => x
  | _ => float_zero
  end.

(** The sum over [k = 1..M] of [begin[k] * (M - k + 1)], added up in the
    order of [k]. *)
Definition begin_sum (M : Z) (im : image) : float :=
  foldl (λ sum k, float_add sum (float_mul (flt_at (i_begin im) k) (float_of_int (M - k + 1))))
        float_zero (seqZ 1 M).

Definition local_entry_normalized (M : Z) (im : image) (tol : float) : Prop :=
  esl_FCompare (begin_sum M im) float_one tol = eslOK.

Definition local_exit_unconditional (M : Z) (im : image) : Prop :=
  ∀ k, 1 ≤ k ≤ M → SFeqb (flt_at (i_end im) k) float_one = true.

Definition special_rows_normalized (im : image) (tol : float) : Prop :=
  ∀ i, 0 ≤ i < 4 →
    esl_FCompare (float_add (flt_at (i_xt im) (2 * i + p7_MOVE))
                            (flt_at (i_xt im) (2 * i + p7_LOOP)))
                 float_one tol = eslOK.
End Validate.

(** The cells [lo..hi-1] of a buffer hold floats. *)
Definition floats_from (l : list val) (lo hi : Z) : Prop :=
  ∀ k, lo ≤ k < hi → ∃ x, l !! Z.to_nat k = Some (Vflt x).

(** The blocks of the profile at [gm], and a pointer that leads into none
    of them. *)
Definition profile_block (gm : ptr) (b : Z) : Prop :=
  match gm with
  | NULL => False
  | Ptr bb _ => bb ≤ b < bb + 11
  end.

Definition outside_profile (gm p : ptr) : Prop :=
  match p with
  | NULL => True
  | Ptr b _ => ¬ profile_block gm b
  end.

(** ** The reference DP matrix (p7_refmx.h) *)

Definition p7R_NSCELLS : Z := 6.
Definition p7R_ML : Z := 0.
Definition p7R_MG : Z := 1.
Definition p7R_IL : Z := 2.
Definition p7R_IG : Z := 3.
Definition p7R_DL : Z := 4.
Definition p7R_DG : Z := 5.

Definition p7R_NXCELLS : Z := 9.
Definition p7R_E : Z := 0.
Definition p7R_N : Z := 1.
Definition p7R_J : Z := 2.
Definition p7R_B : Z := 3.
Definition p7R_L : Z := 4.
Definition p7R_G : Z := 5.
Definition p7R_C : Z := 6.
Definition p7R_JJ : Z := 7.
Definition p7R_CC : Z := 8.

(** The cells of [struct p7_refmx_s]. *)
Module P7_REFMX.
Definition M : Z := 0.
Definition L : Z := 1.
Definition dp_mem : Z := 2.
Definition allocN : Z := 3.
Definition dp : Z := 4.
Definition allocR : Z := 5.
Definition allocW : Z := 6.
Definition validR : Z := 7.
Definition type : Z := 8.
Definition sizeof : Z := 9.
End P7_REFMX.

(** The access macros [P7R_XMX(rmx,i,s)] and [P7R_MX(rmx,i,k,s)], as the
    address of the cell they name. *)
Definition P7R_XMX (rmx : ptr) (i s : Z) : prog ptr :=
  dp <- load_ptr (field rmx P7_REFMX.dp);;
  row <- load_ptr (dp +ₚ i);;
  M <- load_int (field rmx P7_REFMX.M);;
  ret (row +ₚ ((M + 1) * p7R_NSCELLS + s)).

Definition P7R_MX (rmx : ptr) (i k s : Z) : prog ptr :=
  dp <- load_ptr (field rmx P7_REFMX.dp);;
  row <- load_ptr (dp +ₚ i);;
  ret (row +ₚ (k * p7R_NSCELLS + s)).

(** The layout of a row as the notes of the header draw it:
    [[ML MG IL IG DL DG]] for each node [k = 0..M], then
    [[E N J B L G C JJ CC]]. *)
Inductive dp_cell :=
  | MainCell (k : Z) (s : Z)
  | SpecialCell (s : Z).

Definition node_block : list Z :=
  [p7R_ML; p7R_MG; p7R_IL; p7R_IG; p7R_DL; p7R_DG].

Definition special_block : list Z :=
  [p7R_E; p7R_N; p7R_J; p7R_B; p7R_L; p7R_G; p7R_C; p7R_JJ; p7R_CC].

Definition row_layout (M : Z) : list dp_cell :=
  mjoin ((λ k, MainCell k <$> node_block) <$> seqZ 0 (M + 1))
  ++ (SpecialCell <$> special_block).

(** ** Example states

    [example_state] holds, in block 0, an alphabet of two residues and three
    symbols; in blocks 1 to 11 a profile of two nodes over it; in block 12
    one cell for a result.  Its probabilities satisfy the three invariants
    of [p7_profile_Validate] exactly. *)
Definition float_half : float := binary_normalize f_prec f_emax 1 (-1) false.

Definition example_image : image :=
  {| i_mode := Vint 1; i_abc := Vptr (Ptr 0 0); i_hmm := Vptr NULL; i_bg := Vptr NULL;
     i_M := Vint 2;
     i_xsc := Vint <$> seqZ 10 8;
     i_xt := Vflt <$> [float_half; float_half; float_one; float_zero;
                       float_half; float_half; float_zero; float_one];
     i_do_lcorrect := Vint 0; i_lscore := Vflt float_zero; i_h2_mode := Vint 0;
     i_bsc := Vint <$> seqZ 20 3;
     i_esc := Vint <$> seqZ 30 3;
     i_begin := [Vundef; Vflt float_half; Vflt float_zero];
     i_end := [Vundef; Vflt float_one; Vflt float_one];
     i_tsc := Vint <$> seqZ 100 14;
     i_msc := Vint <$> seqZ 200 9;
     i_isc := Vint <$> seqZ 300 6 |}.

Definition example_state : state :=
  frame (mem (alphabet_state 2 3 [])) 1
        (profile_blocks 1 2 3 example_image ++ [Some [Vundef]]) [] [] [].

(** A profile of one node over the same alphabet, in blocks 1 to 11. *)
Definition one_node_image : image :=
  {| i_mode := Vint 1; i_abc := Vptr (Ptr 0 0); i_hmm := Vptr NULL; i_bg := Vptr NULL;
     i_M := Vint 1;
     i_xsc := Vint <$> seqZ 10 8;
     i_xt := Vflt <$> [float_half; float_half; float_one; float_zero;
                       float_half; float_half; float_zero; float_one];
     i_do_lcorrect := Vint 0; i_lscore := Vflt float_zero; i_h2_mode := Vint 0;
     i_bsc := Vint <$> seqZ 20 2;
     i_esc := Vint <$> seqZ 30 2;
     i_begin := [Vundef; Vflt float_one];
     i_end := [Vundef; Vflt float_one];
     i_tsc := Vint <$> seqZ 100 7;
     i_msc := Vint <$> seqZ 200 6;
     i_isc := Vint <$> seqZ 300 3 |}.

Definition one_node_state : state :=
  frame (mem (alphabet_state 2 3 [])) 1
        (profile_blocks 1 1 3 one_node_image) [] [] [].

(** A worker that holds the same alphabet in block 0, one cell for the
    pointer to a received profile in block 1, and [inb] in its inbox. *)
Definition example_worker (inb : list message) : state :=
  State {[ 0 := [Vint 0; Vint 2; Vint 3]; 1 := [Vundef] ]} 2 [] [] inb.

(** A worker with the alphabet in block 0 and two cells of its own in
    block 1, for the pointer to a received profile and for a score;
    [fates] are the fates of its coming mallocs. *)
Definition worker_state (fates : list bool) (inb : list message) : state :=
  State {[ 0 := [Vint 0; Vint 2; Vint 3]; 1 := [Vundef; Vundef] ]} 2 fates [] inb.

(** A handler of the application's: a function, in no block of data. *)
Definition application_handler : ptr := Ptr (-2) 0.

(** A comparison that accepts equal numbers only: one function that
    [esl_FCompare] may be. *)
Definition exact_compare (a b tol : float) : status :=
  if SFeqb a b then eslOK else eslFAIL.

(** A reference matrix for [M = 2] and [L = 1]: the structure in block 0,
    two rows of 27 cells in block 1, the two row pointers in block 2. *)
Definition example_refmx : state :=
  State {[ 0 := [Vint 2; Vint 1; Vptr (Ptr 1 0); Vint 54; Vptr (Ptr 2 0);
                 Vint 2; Vint 27; Vint 2; Vint 0];
           1 := replicate 54 Vundef;
           2 := [Vptr (Ptr 1 0); Vptr (Ptr 1 27)] ]} 3 [] [] [].

(** Programs that only read. *)
Definition readonly {A} (m : prog A) : Prop :=
  ∀ s r s', m s = Some (r, s') → s' = s.

(** The stored score [r] in terms of the contents of a profile of [M]
    nodes: [xsc[i][j]], [bsc[k]], [esc[k]], and [tsc[x][k]], which is cell
    [x * M + k] of the one buffer the rows of [tsc] point into. *)
Definition image_score (M : Z) (im : image) (r : score_ref) : option val :=
  match r with
  | Xsc i j => Some (cell (i_xsc im) (Z.to_nat (2 * i + j)))
  | Bsc k => if decide (0 ≤ k) then i_bsc im !! Z.to_nat k else None
  | Esc k => if decide (0 ≤ k) then i_esc im !! Z.to_nat k else None
  | Tsc x k => if decide (0 ≤ x * M + k) then i_tsc im !! Z.to_nat (x * M + k) else None
  end.

(** Programs that only read, and end normally or by jumping out with the
    one status [code]. *)
Definition reads_or_throws {A} (code : status) (m : prog A) : Prop :=
  ∀ s r s', m s = Some (r, s') → s' = s ∧ ((∃ a, r = Normal a) ∨ r = Thrown code).

(** * Properties *)

Lemma rd_wr_same s p v s' : wr s p v = Some s' → rd s' p = Some v.
Proof.
  destruct p as [|b o]; simpl; [done|].
  destruct (mem s !! b) as [l|] eqn:E; simpl; [|done].
  case_decide as Ho; [|done]. intros [= <-]. simpl.
  rewrite lookup_insert_eq. simpl.
  rewrite decide_True by lia.
  apply list_lookup_insert_eq. lia.
Qed.

Lemma wr_is_Some s p w : is_Some (rd s p) → is_Some (wr s p w).
Proof.
  destruct p as [|b o]; simpl; [by intros [? ?]|].
  destruct (mem s !! b) as [l|] eqn:E; simpl; [|by intros [? ?]].
  case_decide as Ho; [|by intros [? ?]].
  intros [x Hx]. apply lookup_lt_Some in Hx.
  rewrite decide_True by lia. eauto.
Qed.

Lemma assoc2_elem_of {X} a b (t : list (Z * Z * X)) x :
  assoc2 a b t = Some x → (a, b, x) ∈ t.
Proof.
  induction t as [|[[a' b'] x'] t IH]; simpl; [done|].
  destruct (Z.eqb_spec a a'), (Z.eqb_spec b b'); simpl; subst;
    try (intros H; apply elem_of_cons; right; by apply IH).
  intros [= ->]. apply elem_of_cons. by left.
Qed.

Lemma GetT_run_ok (inner : prog val) (h : status → prog status) ret_tsc v s s' :
  inner s = Some (Normal v, s) →
  wr s ret_tsc v = Some s' →
  catch (tsc <- inner;; store ret_tsc tsc;; ret eslOK) h s = Some (Normal eslOK, s').
Proof.
  intros Hi Hw. unfold catch, bind, store, ret. rewrite Hi, Hw. done.
Qed.

Lemma load_vec_run s gm f k v :
  (p ← rd_ptr s (field gm f); rd s (p +ₚ k)) = Some v →
  load_vec gm f k s = Some (Normal v, s).
Proof.
  unfold load_vec, bind, load_ptr, load, lift.
  destruct (rd_ptr s (field gm f)) as [p|]; simpl; [|done].
  by intros ->.
Qed.

Lemma load_tbl_run s gm f x k v :
  (t ← rd_ptr s (field gm f); row ← rd_ptr s (t +ₚ x); rd s (row +ₚ k)) = Some v →
  load_tbl gm f x k s = Some (Normal v, s).
Proof.
  unfold load_tbl, bind, load_ptr, load, lift.
  destruct (rd_ptr s (field gm f)) as [p|]; simpl; [|done].
  destruct (rd_ptr s (p +ₚ x)) as [q|]; simpl; [|done].
  by intros ->.
Qed.

Lemma load_run s p v : rd s p = Some v → load p s = Some (Normal v, s).
Proof. unfold load, lift. by intros ->. Qed.

Lemma GetT_run_stored s gm st1 k1 st2 k2 ret_tsc r v s' :
  transition_ref st1 k1 st2 k2 = Some r →
  score_at s gm r = Some v →
  wr s ret_tsc v = Some s' →
  p7_profile_GetT gm st1 k1 st2 k2 ret_tsc s = Some (Normal eslOK, s').
Proof.
  intros Hr Hv Hw.
  unfold transition_ref in Hr.
  destruct (assoc2 st1 st2 transition_table) as [f|] eqn:Hf; [|done].
  simpl in Hr. injection Hr as <-.
  apply assoc2_elem_of in Hf. unfold transition_table in Hf.
  repeat (apply elem_of_cons in Hf as [Hf|Hf];
          [injection Hf as -> -> ->; unfold p7_profile_GetT;
           eapply GetT_run_ok; [|exact Hw]; simpl in Hv |- *;
           first [ by apply load_run | by apply load_vec_run | by apply load_tbl_run ] |]).
  by apply elem_of_nil in Hf.
Qed.

(** C4: for a pair of the grammar, [p7_profile_GetT] answers [eslOK] and
    leaves in [*ret_tsc] the stored score that [transition_table] names for
    the pair: the cell of [xsc], [bsc], [esc] or [tsc] at the queried node. *)
Theorem GetT_stored_score s gm st1 k1 st2 k2 ret_tsc r v s' :
  transition_ref st1 k1 st2 k2 = Some r →
  score_at s gm r = Some v →
  wr s ret_tsc v = Some s' →
  p7_profile_GetT gm st1 k1 st2 k2 ret_tsc s = Some (Normal eslOK, s')
  ∧ rd s' ret_tsc = Some v.
Proof.
  intros Hr Hv Hw. split; [by eapply GetT_run_stored|by eapply rd_wr_same].
Qed.

Lemma GetT_run_err (inner : prog val) ret_tsc c s s' :
  inner s = Some (Thrown c, s) →
  wr s ret_tsc (Vint 0) = Some s' →
  catch (tsc <- inner;; store ret_tsc tsc;; ret eslOK)
        (λ status, store ret_tsc (Vint 0);; ret status) s = Some (Normal c, s').
Proof.
  intros Hi Hw. unfold catch, bind, store, ret. rewrite Hi, Hw. done.
Qed.

Ltac case_eqb x :=
  repeat match goal with
         | |- context [Z.eqb x ?c] => destruct (Z.eqb_spec x c) as [->|?]; simpl
         end.

Lemma legal_transition_ref st1 k1 st2 k2 :
  legal_transition st1 st2 = true ↔ is_Some (transition_ref st1 k1 st2 k2).
Proof.
  unfold legal_transition, transition_ref, state_grammar, transition_table.
  simpl. case_eqb st1; case_eqb st2;
    (split; [intros; try discriminate; eauto | intros [? ?]; try discriminate; eauto]).
Qed.

(** C10: a query whose source is S or T is answered with [eslOK] and a
    score of 0, whatever the destination and the node indices. *)
Theorem GetT_source_S_or_T s gm st1 k1 st2 k2 ret_tsc :
  st1 = p7_STS ∨ st1 = p7_STT →
  is_Some (rd s ret_tsc) →
  ∃ s', p7_profile_GetT gm st1 k1 st2 k2 ret_tsc s = Some (Normal eslOK, s')
        ∧ rd s' ret_tsc = Some (Vint 0).
Proof.
  intros Hst Hret.
  destruct (wr_is_Some s ret_tsc (Vint 0) Hret) as [s' Hw].
  exists s'. split; [|by eapply rd_wr_same].
  unfold p7_profile_GetT. eapply GetT_run_ok; [|exact Hw].
  by destruct Hst as [-> | ->].
Qed.

Lemma GetT_source_S_or_T_witness :
  ∃ s', p7_profile_GetT NULL p7_STS 0 p7_STM 1 (Ptr 0 0) one_int_state
        = Some (Normal eslOK, s')
        ∧ rd s' (Ptr 0 0) = Some (Vint 0).
Proof.
  apply (GetT_source_S_or_T one_int_state NULL p7_STS 0 p7_STM 1 (Ptr 0 0)).
  - left; reflexivity.
  - vm_compute. eauto.
Defined.

Lemma readonly_ret {A} (a : A) : readonly (ret a).
Proof. intros s r s'. unfold ret. congruence. Qed.

Lemma readonly_throw {A} c : readonly (@throw A c).
Proof. intros s r s'. unfold throw. congruence. Qed.

Lemma readonly_lift {A} (f : state → option A) : readonly (lift f).
Proof. intros s r s'. unfold lift. destruct (f s); congruence. Qed.

Lemma readonly_bind {A B} (m : prog A) (k : A → prog B) :
  readonly m → (∀ a, readonly (k a)) → readonly (bind m k).
Proof.
  intros Hm Hk s r s'. unfold bind.
  destruct (m s) as [[[a|c] s1]|] eqn:E; [| |done].
  - apply Hm in E as ->. apply Hk.
  - apply Hm in E as ->. congruence.
Qed.

Lemma readonly_if {A} (b : bool) (m1 m2 : prog A) :
  readonly m1 → readonly m2 → readonly (if b then m1 else m2).
Proof. by destruct b. Qed.

Lemma readonly_abort {A} : readonly (@abort A).
Proof. intros s r s'. discriminate. Qed.

Lemma readonly_esl_exception : readonly esl_exception.
Proof.
  unfold esl_exception, load_ptr. apply readonly_bind; [apply readonly_lift|].
  intros h. apply readonly_if; [apply readonly_abort|apply readonly_ret].
Qed.

Lemma readonly_XEXCEPTION {A} c : readonly (@ESL_XEXCEPTION A c).
Proof.
  unfold ESL_XEXCEPTION. apply readonly_bind; [apply readonly_esl_exception|].
  intros _. apply readonly_throw.
Qed.

Create HintDb readonly.
#[export] Hint Resolve readonly_ret readonly_throw readonly_lift readonly_if
  readonly_XEXCEPTION : readonly.
#[export] Hint Extern 2 (readonly (bind _ _)) => apply readonly_bind; [|intro] : readonly.
#[export] Hint Unfold load load_ptr load_int load_flt load_vec load_tbl : readonly.

Lemma readonly_load_vec gm f k : readonly (load_vec gm f k).
Proof. unfold load_vec, load_ptr, load. auto with readonly. Qed.

Lemma readonly_load_tbl gm f x k : readonly (load_tbl gm f x k).
Proof. unfold load_tbl, load_ptr, load. auto 6 with readonly. Qed.

#[export] Hint Resolve readonly_load_vec readonly_load_tbl : readonly.

(** Whatever the query, [p7_profile_GetT] returns to its caller only after
    one write, to [*ret_tsc]. *)
Lemma GetT_effect gm st1 k1 st2 k2 ret_tsc s r s' :
  p7_profile_GetT gm st1 k1 st2 k2 ret_tsc s = Some (r, s') →
  ∃ c v, r = Normal c ∧ wr s ret_tsc v = Some s'.
Proof.
  unfold p7_profile_GetT.
  match goal with |- catch (bind ?inner _) _ _ = _ → _ =>
    assert (readonly inner) as Hro
      by (unfold load; repeat apply readonly_if; auto with readonly);
    generalize dependent inner end.
  intros inner Hro. unfold catch, bind, store, ret.
  destruct (inner s) as [[[v|c] s1]|] eqn:E; [| |done].
  - apply Hro in E as ->.
    destruct (wr s ret_tsc v) as [s2|] eqn:Hw; [|done].
    intros [= <- <-]. eauto.
  - apply Hro in E as ->.
    destruct (wr s ret_tsc (Vint 0)) as [s2|] eqn:Hw; [|done].
    intros [= <- <-]. eauto.
Qed.

Lemma run_bind_none {A B} (m : prog A) (k : A → prog B) s :
  m s = None → bind m k s = None.
Proof. unfold bind. by intros ->. Qed.

Lemma run_catch_none {A} (m : prog A) h s :
  m s = None → catch m h s = None.
Proof. unfold catch. by intros ->. Qed.

(** Reporting an exception, with and without a handler. *)
Lemma esl_exception_run s : handler_installed s → esl_exception s = Some (Normal tt, s).
Proof.
  intros (h & Hh & Hrd). unfold esl_exception, bind, load_ptr, lift, rd_ptr.
  rewrite Hrd. by destruct h.
Qed.

Lemma esl_exception_abort s : handler_default s → esl_exception s = None.
Proof.
  intros Hrd. unfold esl_exception, bind, load_ptr, lift, rd_ptr.
  by rewrite Hrd.
Qed.

Lemma XEXCEPTION_run {A} c s :
  handler_installed s → @ESL_XEXCEPTION A c s = Some (Thrown c, s).
Proof.
  intros Hh. unfold ESL_XEXCEPTION, bind. by rewrite esl_exception_run.
Qed.

Lemma XEXCEPTION_abort {A} c s : handler_default s → @ESL_XEXCEPTION A c s = None.
Proof.
  intros Hh. unfold ESL_XEXCEPTION, bind. by rewrite esl_exception_abort.
Qed.

Lemma GetT_run_abort (inner : prog val) (h : status → prog status) ret_tsc s :
  inner s = None →
  catch (tsc <- inner;; store ret_tsc tsc;; ret eslOK) h s = None.
Proof. intros Hi. unfold catch, bind. by rewrite Hi. Qed.

(** A query outside the grammar, from a source other than S and T, ends in
    [ESL_XEXCEPTION]. *)
Lemma GetT_reaches_XEXCEPTION gm st1 k1 st2 k2 ret_tsc s :
  legal_transition st1 st2 = false → st1 ≠ p7_STS → st1 ≠ p7_STT →
  p7_profile_GetT gm st1 k1 st2 k2 ret_tsc s
  = catch (tsc <- ESL_XEXCEPTION eslEINVAL;; store ret_tsc tsc;; ret eslOK)
          (λ status, store ret_tsc (Vint 0);; ret status) s.
Proof.
  intros Hlegal HS HT. unfold p7_profile_GetT.
  revert Hlegal. unfold legal_transition, state_grammar. simpl.
  case_eqb st1; try done; case_eqb st2; done.
Qed.

(** C1, amended: a pair of the grammar whose stored score is an allocated
    cell is answered with [eslOK] and a value.  A pair outside the grammar
    whose source is neither S nor T is reported to [esl_exception]: when
    the application has installed an exception handler, the function
    returns [eslEINVAL] and a zero score; with Easel's default handler the
    process is aborted and the function does not return. *)
Theorem GetT_grammar_or_EINVAL s gm st1 k1 st2 k2 ret_tsc :
  is_Some (rd s ret_tsc) →
  (legal_transition st1 st2 = true →
     (∀ r, transition_ref st1 k1 st2 k2 = Some r → is_Some (score_at s gm r)) →
     ∃ v s', p7_profile_GetT gm st1 k1 st2 k2 ret_tsc s = Some (Normal eslOK, s')
             ∧ rd s' ret_tsc = Some v)
  ∧ (legal_transition st1 st2 = false → st1 ≠ p7_STS → st1 ≠ p7_STT →
     handler_installed s →
     ∃ s', p7_profile_GetT gm st1 k1 st2 k2 ret_tsc s = Some (Normal eslEINVAL, s')
           ∧ rd s' ret_tsc = Some (Vint 0))
  ∧ (legal_transition st1 st2 = false → st1 ≠ p7_STS → st1 ≠ p7_STT →
     handler_default s →
     p7_profile_GetT gm st1 k1 st2 k2 ret_tsc s = None).
Proof.
  intros Hret. split; [|split].
  - intros Hlegal Hcell.
    apply (legal_transition_ref st1 k1 st2 k2) in Hlegal as [r Hr].
    destruct (Hcell r Hr) as [v Hv].
    destruct (wr_is_Some s ret_tsc v Hret) as [s' Hw].
    exists v, s'. split; [by eapply GetT_run_stored|by eapply rd_wr_same].
  - intros Hlegal HS HT Hh.
    destruct (wr_is_Some s ret_tsc (Vint 0) Hret) as [s' Hw].
    exists s'. split; [|by eapply rd_wr_same].
    rewrite GetT_reaches_XEXCEPTION by done.
    eapply GetT_run_err; [|exact Hw]. by apply XEXCEPTION_run.
  - intros Hlegal HS HT Hh.
    rewrite GetT_reaches_XEXCEPTION by done.
    apply GetT_run_abort. by apply XEXCEPTION_abort.
Qed.

(** C1 as stated fails: S -> M is no pair of the grammar, and the query is
    answered with [eslOK], not with [eslEINVAL]. *)
Lemma GetT_accepts_S_to_M :
  legal_transition p7_STS p7_STM = false
  ∧ p7_profile_GetT NULL p7_STS 0 p7_STM 1 (Ptr 0 0) one_int_state
    = Some (Normal eslOK, State {[ 0 := [Vint 0] ]} 1 [] [] [])
  ∧ ¬ GetT_accepts_exactly_the_grammar one_int_state NULL p7_STS 0 p7_STM 1 (Ptr 0 0).
Proof.
  split; [reflexivity|]. split; [reflexivity|].
  intros [_ H]. destruct (H eq_refl) as (s' & Hrun & _).
  vm_compute in Hrun. discriminate.
Qed.

(** ** Running programs on a frame *)

Lemma heap_of_lookup m0 b0 bl b :
  heap_of m0 b0 bl !! b =
    if decide (b0 ≤ b < b0 + Z.of_nat (length bl))
    then mjoin (bl !! Z.to_nat (b - b0))
    else m0 !! b.
Proof.
  revert b0. induction bl as [|ob bl IH]; intros b0; simpl.
  - rewrite decide_False by lia. done.
  - destruct (decide (b = b0)) as [->|Hne].
    + rewrite decide_True by lia. rewrite Z.sub_diag. simpl.
      destruct ob; [apply lookup_insert_eq | apply lookup_delete_eq].
    + assert ((match ob with
               | Some l => <[b0 := l]> (heap_of m0 (b0 + 1) bl)
               | None => delete b0 (heap_of m0 (b0 + 1) bl)
               end) !! b = heap_of m0 (b0 + 1) bl !! b) as ->.
      { destruct ob; [by rewrite lookup_insert_ne | by rewrite lookup_delete_ne]. }
      rewrite IH. destruct (decide (b0 + 1 ≤ b < b0 + 1 + Z.of_nat (length bl))).
      * rewrite decide_True by lia.
        replace (Z.to_nat (b - b0)) with (S (Z.to_nat (b - (b0 + 1)))) by lia.
        done.
      * rewrite decide_False by lia. done.
Qed.

Lemma frame_lookup_new m0 b0 bl f snt inb i :
  (i < length bl)%nat →
  mem (frame m0 b0 bl f snt inb) !! nb b0 i = mjoin (bl !! i).
Proof.
  intros Hi. unfold frame, nb. simpl. rewrite heap_of_lookup.
  rewrite decide_True by lia. do 2 f_equal. lia.
Qed.

Lemma frame_lookup_old m0 b0 bl f snt inb b :
  b < b0 → mem (frame m0 b0 bl f snt inb) !! b = m0 !! b.
Proof.
  intros Hb. unfold frame. simpl. rewrite heap_of_lookup.
  by rewrite decide_False by lia.
Qed.

Lemma heap_of_insert m0 b0 bl i l :
  (i < length bl)%nat →
  <[nb b0 i := l]> (heap_of m0 b0 bl) = heap_of m0 b0 (<[i := Some l]> bl).
Proof.
  intros Hi. apply map_eq. intros b. unfold nb.
  rewrite lookup_insert, !heap_of_lookup, length_insert.
  case_decide as Hb.
  - subst b. rewrite decide_True by lia.
    replace (Z.to_nat (b0 + Z.of_nat i - b0)) with i by lia.
    by rewrite list_lookup_insert_eq.
  - case_decide; [|done].
    rewrite list_lookup_insert_ne by lia. done.
Qed.

Lemma heap_of_delete m0 b0 bl i :
  (i < length bl)%nat →
  delete (nb b0 i) (heap_of m0 b0 bl) = heap_of m0 b0 (<[i := None]> bl).
Proof.
  intros Hi. apply map_eq. intros b. unfold nb.
  rewrite lookup_delete, !heap_of_lookup, length_insert.
  case_decide as Hb.
  - subst b. rewrite decide_True by lia.
    replace (Z.to_nat (b0 + Z.of_nat i - b0)) with i by lia.
    by rewrite list_lookup_insert_eq.
  - case_decide; [|done].
    rewrite list_lookup_insert_ne by lia. done.
Qed.

Lemma heap_of_snoc m0 b0 bl l :
  <[nb b0 (length bl) := l]> (heap_of m0 b0 bl) = heap_of m0 b0 (bl ++ [Some l]).
Proof.
  apply map_eq. intros b. unfold nb.
  rewrite lookup_insert, !heap_of_lookup, length_app. simpl.
  case_decide as Hb.
  - subst b. rewrite decide_True by lia.
    replace (Z.to_nat (b0 + Z.of_nat (length bl) - b0)) with (length bl + 0)%nat by lia.
    by rewrite lookup_app_r, Nat.add_comm, Nat.add_sub by lia.
  - case_decide.
    + rewrite decide_True by lia. by rewrite lookup_app_l by lia.
    + rewrite decide_False by lia. done.
Qed.

Lemma heap_of_old_insert m0 b0 bl b l :
  b < b0 → heap_of (<[b := l]> m0) b0 bl = <[b := l]> (heap_of m0 b0 bl).
Proof.
  intros Hb. apply map_eq. intros b'.
  rewrite heap_of_lookup.
  destruct (decide (b = b')) as [<-|Hne].
  - rewrite decide_False by lia. by rewrite !lookup_insert_eq.
  - rewrite !lookup_insert_ne by done. by rewrite heap_of_lookup.
Qed.

Lemma heap_of_app m0 b0 bl1 bl2 :
  heap_of (heap_of m0 b0 bl1) (nb b0 (length bl1)) bl2 = heap_of m0 b0 (bl1 ++ bl2).
Proof.
  apply map_eq. intros b. unfold nb.
  rewrite !heap_of_lookup, length_app.
  case_decide as H2.
  - rewrite decide_True by lia.
    rewrite lookup_app_r by lia. do 2 f_equal. lia.
  - case_decide as H1.
    + rewrite decide_True by lia. by rewrite lookup_app_l by lia.
    + rewrite decide_False by lia. done.
Qed.

Lemma heap_of_all_freed m0 b0 bl :
  (∀ b, b0 ≤ b → m0 !! b = None) →
  Forall (λ ob, ob = None) bl →
  heap_of m0 b0 bl = m0.
Proof.
  intros Hfresh Hall. apply map_eq. intros b.
  rewrite heap_of_lookup. case_decide as Hb; [|done].
  rewrite Hfresh by lia.
  destruct (bl !! Z.to_nat (b - b0)) as [ob|] eqn:E; [|done].
  eapply Forall_lookup_1 in Hall; [|exact E]. by subst ob.
Qed.

Lemma frame_nil s :
  frame (mem s) (brk s) [] (heap_ok s) (sent s) (inbox s) = s.
Proof. destruct s. unfold frame, nb. simpl. f_equal. lia. Qed.

Lemma rd_frame_new m0 b0 bl f snt inb i o l :
  bl !! i = Some (Some l) →
  rd (frame m0 b0 bl f snt inb) (Ptr (nb b0 i) o)
  = if decide (0 ≤ o) then l !! Z.to_nat o else None.
Proof.
  intros Hl. unfold rd.
  rewrite frame_lookup_new by (by eapply lookup_lt_Some).
  by rewrite Hl.
Qed.

Lemma rd_frame_old m0 b0 bl f snt inb b o s0 :
  b < b0 → mem s0 = m0 →
  rd (frame m0 b0 bl f snt inb) (Ptr b o) = rd s0 (Ptr b o).
Proof.
  intros Hb <-. unfold rd. by rewrite frame_lookup_old.
Qed.

Lemma wr_frame_new m0 b0 bl f snt inb i o l v :
  bl !! i = Some (Some l) →
  0 ≤ o < Z.of_nat (length l) →
  wr (frame m0 b0 bl f snt inb) (Ptr (nb b0 i) o) v
  = Some (frame m0 b0 (<[i := Some (<[Z.to_nat o := v]> l)]> bl) f snt inb).
Proof.
  intros Hl Ho. unfold wr.
  rewrite frame_lookup_new by (by eapply lookup_lt_Some).
  rewrite Hl. simpl. rewrite decide_True by done.
  unfold with_mem, frame. simpl.
  rewrite heap_of_insert by (by eapply lookup_lt_Some).
  by rewrite length_insert.
Qed.

Lemma run_bind {A B} (m : prog A) (k : A → prog B) s a s' :
  m s = Some (Normal a, s') → bind m k s = k a s'.
Proof. unfold bind. by intros ->. Qed.

Lemma run_bind_thrown {A B} (m : prog A) (k : A → prog B) s c s' :
  m s = Some (Thrown c, s') → bind m k s = Some (Thrown c, s').
Proof. unfold bind. by intros ->. Qed.

Lemma run_catch_normal {A} (m : prog A) h s a s' :
  m s = Some (Normal a, s') → catch m h s = Some (Normal a, s').
Proof. unfold catch. by intros ->. Qed.

Lemma run_catch_thrown {A} (m : prog A) h s c s' :
  m s = Some (Thrown c, s') → catch m h s = h c s'.
Proof. unfold catch. by intros ->. Qed.

Lemma load_ptr_run s p q : rd s p = Some (Vptr q) → load_ptr p s = Some (Normal q, s).
Proof. unfold load_ptr, lift, rd_ptr. by intros ->. Qed.

Lemma load_int_run s p n : rd s p = Some (Vint n) → load_int p s = Some (Normal n, s).
Proof. unfold load_int, lift, rd_int. by intros ->. Qed.

Lemma load_flt_run s p x : rd s p = Some (Vflt x) → load_flt p s = Some (Normal x, s).
Proof. unfold load_flt, lift, rd_flt. by intros ->. Qed.

Lemma store_run s p v s' : wr s p v = Some s' → store p v s = Some (Normal tt, s').
Proof. unfold store. by intros ->. Qed.

Lemma rd_frame_cell m0 b0 bl f snt inb i o l v :
  bl !! i = Some (Some l) → 0 ≤ o → l !! Z.to_nat o = Some v →
  rd (frame m0 b0 bl f snt inb) (Ptr (nb b0 i) o) = Some v.
Proof.
  intros Hl Ho Hv. erewrite rd_frame_new by done. by rewrite decide_True.
Qed.

Lemma malloc_frame m0 b0 bl f snt inb n :
  head f ≠ Some false → 0 ≤ n →
  malloc n (frame m0 b0 bl f snt inb)
  = Some (Normal (Ptr (nb b0 (length bl)) 0),
          frame m0 b0 (bl ++ [Some (replicate (Z.to_nat n) Vundef)]) (tail f) snt inb).
Proof.
  intros Hf Hn. unfold malloc. simpl.
  assert (match f with b :: _ => b | [] => true end = true) as ->.
  { destruct f as [|[] ?]; simpl in *; congruence. }
  assert ((0 <=? n) = true) as -> by lia. simpl.
  unfold frame. rewrite heap_of_snoc, length_app. simpl.
  do 3 f_equal. unfold nb. lia.
Qed.

Lemma malloc_frame_fail m0 b0 bl f f' snt inb n :
  f = false :: f' →
  malloc n (frame m0 b0 bl f snt inb)
  = Some (Normal NULL, frame m0 b0 bl f' snt inb).
Proof. intros ->. done. Qed.

Lemma free_frame m0 b0 bl f snt inb i l :
  bl !! i = Some (Some l) →
  free (Ptr (nb b0 i) 0) (frame m0 b0 bl f snt inb)
  = Some (Normal tt, frame m0 b0 (<[i := None]> bl) f snt inb).
Proof.
  intros Hl. unfold free. rewrite decide_True by done.
  rewrite frame_lookup_new by (by eapply lookup_lt_Some). rewrite Hl. simpl.
  unfold with_mem, frame. simpl.
  rewrite heap_of_delete by (by eapply lookup_lt_Some).
  by rewrite length_insert.
Qed.

Lemma replicate_pos {A} (n : Z) (x : A) :
  1 ≤ n → replicate (Z.to_nat n) x = x :: replicate (Z.to_nat (n - 1)) x.
Proof.
  intros Hn. replace (Z.to_nat n) with (S (Z.to_nat (n - 1))) by lia. done.
Qed.

Lemma row_table_length b stride n : length (row_table b stride n) = Z.to_nat n.
Proof. unfold row_table. by rewrite length_fmap, length_seqZ. Qed.

Lemma row_table_lookup b stride n x :
  0 ≤ x < n → row_table b stride n !! Z.to_nat x = Some (Vptr (Ptr b (x * stride))).
Proof.
  intros Hx. unfold row_table. rewrite list_lookup_fmap.
  rewrite lookup_seqZ_lt by lia. simpl.
  by replace (0 + Z.of_nat (Z.to_nat x)) with x by lia.
Qed.

Lemma set_at_length n x idx g l : length (set_at n x idx g l) = length l.
Proof.
  revert x l. induction n as [|n IH]; intros x l; simpl; [done|].
  by rewrite IH, length_insert.
Qed.

Lemma fates_ok_S n f :
  fates_ok (S n) f → head f ≠ Some false ∧ fates_ok n (tail f).
Proof.
  unfold fates_ok. destruct f as [|b f]; simpl.
  - intros _. split; [done|]. by rewrite take_nil.
  - intros H. apply Forall_cons in H as [<- H]. done.
Qed.

Ltac is_nat_lit n :=
  lazymatch n with
  | O => idtac
  | S ?m => is_nat_lit m
  end.

Ltac lit_to_nat :=
  vm_compute;
  lazymatch goal with |- ?a = _ => is_nat_lit a end;
  reflexivity.

Lemma rd_frame_lit m0 b0 bl f snt inb i o l n v :
  bl !! i = Some (Some l) → Z.to_nat o = n → 0 ≤ o → l !! n = Some v →
  rd (frame m0 b0 bl f snt inb) (Ptr (nb b0 i) o) = Some v.
Proof. intros Hl <- Ho Hv. by eapply rd_frame_cell. Qed.

Lemma rd_frame_old_val m0 b0 bl f snt inb b o s0 v :
  rd s0 (Ptr b o) = Some v → mem s0 = m0 → b < b0 →
  rd (frame m0 b0 bl f snt inb) (Ptr b o) = Some v.
Proof. intros <- Hm Hb. by eapply rd_frame_old. Qed.

Lemma wr_frame_lit m0 b0 bl f snt inb i o l n v :
  bl !! i = Some (Some l) → Z.to_nat o = n → 0 ≤ o → (n < length l)%nat →
  wr (frame m0 b0 bl f snt inb) (Ptr (nb b0 i) o) v
  = Some (frame m0 b0 (<[i := Some (<[n := v]> l)]> bl) f snt inb).
Proof. intros Hl <- Ho Hn. apply wr_frame_new; [done|lia]. Qed.

Lemma fresh_old s b o v : fresh s → rd s (Ptr b o) = Some v → b < brk s.
Proof.
  intros Hfresh Hrd. destruct (decide (b < brk s)) as [|Hge]; [done|].
  unfold rd in Hrd. rewrite Hfresh in Hrd by lia. done.
Qed.

(** The handler cell is older than every block of a frame. *)
Lemma handler_installed_frame m0 b0 bl f snt inb s0 :
  handler_installed s0 → mem s0 = m0 → -1 < b0 →
  handler_installed (frame m0 b0 bl f snt inb).
Proof.
  intros (h & Hh & Hrd) Hm Hb. exists h. split; [done|].
  by eapply rd_frame_old_val.
Qed.

Lemma handler_default_frame m0 b0 bl f snt inb s0 :
  handler_default s0 → mem s0 = m0 → -1 < b0 →
  handler_default (frame m0 b0 bl f snt inb).
Proof. intros Hrd Hm Hb. by eapply rd_frame_old_val. Qed.

Lemma handler_old s : fresh s → handler_installed s ∨ handler_default s → -1 < brk s.
Proof.
  intros Hfresh [(h & _ & Hrd)|Hrd]; by eapply fresh_old.
Qed.

Lemma exception_throw_frame {A} c m0 b0 bl f snt inb s0 :
  handler_installed s0 → mem s0 = m0 → -1 < b0 →
  (esl_exception;; @throw A c) (frame m0 b0 bl f snt inb)
  = Some (Thrown c, frame m0 b0 bl f snt inb).
Proof.
  intros Hh Hm Hb. apply (@XEXCEPTION_run A). by eapply handler_installed_frame.
Qed.

Lemma exception_abort_frame {A} c m0 b0 bl f snt inb s0 :
  handler_default s0 → mem s0 = m0 → -1 < b0 →
  (esl_exception;; @throw A c) (frame m0 b0 bl f snt inb) = None.
Proof.
  intros Hh Hm Hb. apply (@XEXCEPTION_abort A). by eapply handler_default_frame.
Qed.

Ltac len_solve :=
  rewrite ?length_insert, ?set_at_length, ?length_replicate, ?row_table_length;
  cbn [length]; first [lia | nia].

Ltac lookup_solve :=
  first
    [ reflexivity
    | eassumption
    | apply row_table_lookup; lia
    | apply list_lookup_insert_eq; len_solve ].

Ltac rd_solve :=
  first
    [ eapply rd_frame_lit; [reflexivity | lit_to_nat | lia | lookup_solve]
    | eapply rd_frame_cell; [reflexivity | lia | lookup_solve]
    | eapply rd_frame_old_val; [eassumption | reflexivity | lia]
    | eassumption
    | match goal with H : rd _ ?p = Some _ |- rd _ ?p = Some _ => exact H end ].

Lemma wr_frame_old m0 b0 bl f snt inb f0 snt0 inb0 b o v s0' :
  b < b0 →
  wr (State m0 b0 f0 snt0 inb0) (Ptr b o) v = Some s0' →
  wr (frame m0 b0 bl f snt inb) (Ptr b o) v = Some (frame (mem s0') b0 bl f snt inb).
Proof.
  intros Hb. unfold wr. cbn [mem]. rewrite frame_lookup_old by done.
  destruct (m0 !! b) as [l|]; [|done]. cbn [mbind option_bind].
  case_decide; [|done]. intros [= <-].
  unfold with_mem, frame. cbn [mem brk heap_ok sent inbox].
  by rewrite heap_of_old_insert.
Qed.

Ltac wr_solve :=
  first
    [ eapply wr_frame_lit; [reflexivity | lit_to_nat | lia | len_solve]
    | eapply wr_frame_new; [reflexivity | len_solve]
    | eapply wr_frame_old; [lia | eassumption] ].

Ltac tidy :=
  cbv beta;
  cbn [insert list_insert app length is_NULL negb when field ptr_add
       xsc_cell xt_cell tail for_range].

Ltac prim :=
  lazymatch goal with
  | |- ret _ _ = _ => reflexivity
  | |- throw _ _ = _ => reflexivity
  | |- load _ _ = _ => apply load_run; rd_solve
  | |- load_ptr _ _ = _ => apply load_ptr_run; rd_solve
  | |- load_int _ _ = _ => apply load_int_run; rd_solve
  | |- load_flt _ _ = _ => apply load_flt_run; rd_solve
  | |- store _ _ _ = _ => apply store_run; wr_solve
  | |- malloc _ _ = _ =>
      first [ apply malloc_frame; [first [assumption | done] | first [lia | nia]]
            | apply malloc_frame_fail; reflexivity ]
  | |- free _ _ = _ => first [eapply free_frame; reflexivity | reflexivity]
  | |- bind _ _ _ = _ => steps
  | |- ESL_ALLOC _ _ _ = _ => unfold ESL_ALLOC; steps
  | |- store_vec _ _ _ _ _ = _ => unfold store_vec; tidy; steps
  | |- store_tbl _ _ _ _ _ _ = _ => unfold store_tbl; tidy; steps
  | |- set_row _ _ _ _ _ = _ => unfold set_row; tidy; steps
  | |- load_vec _ _ _ _ = _ => unfold load_vec; tidy; steps
  | |- load_tbl _ _ _ _ _ = _ => unfold load_tbl; tidy; steps
  | |- esl_abc_XGetGap _ _ = _ => unfold esl_abc_XGetGap; tidy; prim
  | |- esl_abc_XGetMissing _ _ = _ => unfold esl_abc_XGetMissing; tidy; steps
  end
with step :=
  lazymatch goal with
  | |- bind _ _ _ = _ => etransitivity; [apply run_bind; prim|]; tidy
  end
with steps :=
  lazymatch goal with
  | |- bind _ _ _ = _ => step; steps
  | |- _ => prim
  end.


(** The loop that places the row pointers of [msc] and [isc]. *)
Lemma rows_loop m0 b0 f snt inb M st t1 rest pm pi n : ∀ x tm ti,
  st !! 6%nat = Some (Vptr (Ptr (nb b0 2) 0)) →
  st !! 7%nat = Some (Vptr (Ptr (nb b0 3) 0)) →
  tm !! 0%nat = Some (Vptr pm) →
  ti !! 0%nat = Some (Vptr pi) →
  1 ≤ x →
  x + Z.of_nat n ≤ Z.of_nat (length tm) →
  x + Z.of_nat n ≤ Z.of_nat (length ti) →
  for_range n x
    (λ x, set_row (Ptr (nb b0 0) 0) P7_PROFILE.msc x (x * (M + 1));;
          set_row (Ptr (nb b0 0) 0) P7_PROFILE.isc x (x * M))
    (frame m0 b0 (Some st :: t1 :: Some tm :: Some ti :: rest) f snt inb)
  = Some (Normal tt,
          frame m0 b0
            (Some st :: t1
             :: Some (set_at n x id (λ y, Vptr (pm +ₚ y * (M + 1))) tm)
             :: Some (set_at n x id (λ y, Vptr (pi +ₚ y * M)) ti)
             :: rest) f snt inb).
Proof.
  unfold P7_PROFILE.msc, P7_PROFILE.isc.
  induction n as [|n IH]; intros x tm ti Hst6 Hst7 Htm Hti Hx Hlm Hli.
  - reflexivity.
  - cbn [for_range set_at]. step. rewrite !Z.add_0_l.
    apply IH; try done; try len_solve.
    + rewrite list_lookup_insert_ne by (unfold id; lia). done.
    + rewrite list_lookup_insert_ne by (unfold id; lia). done.
Qed.


Lemma set_at_id_lookup n : ∀ x g l (j : nat),
  0 ≤ x →
  x + Z.of_nat n ≤ Z.of_nat (length l) →
  set_at n x id g l !! j
  = if decide (x ≤ Z.of_nat j < x + Z.of_nat n) then Some (g (Z.of_nat j)) else l !! j.
Proof.
  induction n as [|n IH]; intros x g l j Hx Hl; cbn [set_at].
  - by rewrite decide_False by lia.
  - rewrite IH by (rewrite ?length_insert; lia). unfold id.
    destruct (decide (Z.of_nat j = x)) as [<-|Hne].
    + rewrite decide_False by lia. rewrite decide_True by lia.
      rewrite Nat2Z.id. apply list_lookup_insert_eq. lia.
    + rewrite list_lookup_insert_ne by lia.
      destruct (decide (x + 1 ≤ Z.of_nat j < x + 1 + Z.of_nat n)).
      * by rewrite decide_True by lia.
      * by rewrite decide_False by lia.
Qed.

Lemma set_at_rows b stride n :
  1 ≤ n →
  set_at (Z.to_nat (n - 1)) 1 id (λ y, Vptr (Ptr b (0 + y * stride)))
         (Vptr (Ptr b 0) :: replicate (Z.to_nat (n - 1)) Vundef)
  = row_table b stride n.
Proof.
  intros Hn. apply list_eq. intros j.
  rewrite set_at_id_lookup by (cbn [length]; rewrite ?length_replicate; lia).
  destruct (decide (Z.of_nat j < n)) as [Hj|Hj].
  - pose proof (row_table_lookup b stride n (Z.of_nat j)) as Hrow.
    rewrite Nat2Z.id in Hrow. rewrite Hrow by lia.
    case_decide; [done|].
    assert (j = 0%nat) as -> by lia. done.
  - rewrite decide_False by lia.
    rewrite (lookup_ge_None_2 (row_table b stride n))
      by (rewrite row_table_length; lia).
    apply lookup_ge_None_2. cbn [length]. rewrite length_replicate. lia.
Qed.

Lemma insert_keep {A} (l : list A) i j v :
  l !! j = Some v → <[i := v]> l !! j = Some v.
Proof.
  intros Hj. destruct (decide (i = j)) as [->|Hne].
  - apply list_lookup_insert_eq. by eapply lookup_lt_Some.
  - by rewrite list_lookup_insert_ne.
Qed.

Lemma set_at_keep n : ∀ x idx v l j,
  l !! j = Some v → set_at n x idx (λ _, v) l !! j = Some v.
Proof.
  induction n as [|n IH]; intros x idx v l j Hj; cbn [set_at]; [done|].
  apply IH. by apply insert_keep.
Qed.

Lemma set_at_hit n : ∀ x idx v l y,
  x ≤ y < x + Z.of_nat n →
  0 ≤ idx y < Z.of_nat (length l) →
  set_at n x idx (λ _, v) l !! Z.to_nat (idx y) = Some v.
Proof.
  induction n as [|n IH]; intros x idx v l y Hy Hi; cbn [set_at]; [lia|].
  destruct (decide (y = x)) as [->|Hne].
  - apply set_at_keep. apply list_lookup_insert_eq. lia.
  - apply IH; [lia|]. by rewrite length_insert.
Qed.

(** A loop that stores one value into cells of a single block. *)
Lemma store_loop_frame m0 b0 f snt inb i v idx n : ∀ x bl l,
  bl !! i = Some (Some l) →
  (∀ y, x ≤ y < x + Z.of_nat n → 0 ≤ idx y < Z.of_nat (length l)) →
  for_range n x (λ y, store (Ptr (nb b0 i) (idx y)) v) (frame m0 b0 bl f snt inb)
  = Some (Normal tt,
          frame m0 b0 (<[i := Some (set_at n x idx (λ _, v) l)]> bl) f snt inb).
Proof.
  induction n as [|n IH]; intros x bl l Hl Hidx; cbn [for_range set_at].
  - rewrite list_insert_id by done. reflexivity.
  - etransitivity; [apply run_bind, store_run, wr_frame_new; [exact Hl|apply Hidx; lia]|].
    cbv beta. erewrite IH.
    + by rewrite list_insert_insert_eq.
    + apply list_lookup_insert_eq. by eapply lookup_lt_Some.
    + intros y Hy. rewrite length_insert. apply Hidx. lia.
Qed.

Lemma ISet_frame m0 b0 f snt inb i o n v bl l :
  bl !! i = Some (Some l) →
  0 ≤ o → o + n ≤ Z.of_nat (length l) →
  esl_vec_ISet (Ptr (nb b0 i) o) n v (frame m0 b0 bl f snt inb)
  = Some (Normal tt,
          frame m0 b0
            (<[i := Some (set_at (Z.to_nat n) 0 (λ y, o + y) (λ _, Vint v) l)]> bl)
            f snt inb).
Proof.
  intros Hl Ho Hn. unfold esl_vec_ISet, for_loop. cbn [ptr_add].
  rewrite Z.sub_0_r.
  apply (store_loop_frame m0 b0 f snt inb i (Vint v) (λ y, o + y)); [done|].
  intros y Hy. lia.
Qed.

(** The loop that makes the node-0 emissions impossible. *)
Lemma node0_loop m0 b0 f snt inb M Kp st t1 b4 b5 b6 b7 b8 rest v n : ∀ x bm bi,
  st !! 6%nat = Some (Vptr (Ptr (nb b0 2) 0)) →
  st !! 7%nat = Some (Vptr (Ptr (nb b0 3) 0)) →
  1 ≤ M → 0 ≤ x → x + Z.of_nat n ≤ Kp →
  length bm = Z.to_nat (Kp * (M + 1)) →
  length bi = Z.to_nat (Kp * M) →
  for_range n x
    (λ x, store_tbl (Ptr (nb b0 0) 0) P7_PROFILE.msc x 0 v;;
          store_tbl (Ptr (nb b0 0) 0) P7_PROFILE.isc x 0 v)
    (frame m0 b0
       (Some st :: t1
        :: Some (row_table (nb b0 9) (M + 1) Kp)
        :: Some (row_table (nb b0 10) M Kp)
        :: b4 :: b5 :: b6 :: b7 :: b8 :: Some bm :: Some bi :: rest) f snt inb)
  = Some (Normal tt,
          frame m0 b0
            (Some st :: t1
             :: Some (row_table (nb b0 9) (M + 1) Kp)
             :: Some (row_table (nb b0 10) M Kp)
             :: b4 :: b5 :: b6 :: b7 :: b8
             :: Some (set_at n x (λ y, y * (M + 1) + 0) (λ _, v) bm)
             :: Some (set_at n x (λ y, y * M + 0) (λ _, v) bi)
             :: rest) f snt inb).
Proof.
  unfold P7_PROFILE.msc, P7_PROFILE.isc.
  induction n as [|n IH]; intros x bm bi Hst6 Hst7 HM Hx Hn Hlm Hli.
  - reflexivity.
  - cbn [for_range set_at]. step. rewrite !Z.add_0_l.
    apply IH; try done; try lia; by rewrite length_insert.
Qed.


Lemma set_at_ext n : ∀ x idx idx' g l,
  (∀ y, x ≤ y < x + Z.of_nat n → idx y = idx' y) →
  set_at n x idx g l = set_at n x idx' g l.
Proof.
  induction n as [|n IH]; intros x idx idx' g l Hidx; cbn [set_at]; [done|].
  rewrite (Hidx x) by lia. apply IH. intros y Hy. apply Hidx. lia.
Qed.

(** Running up to the operation that jumps to [ERROR:]. *)
Ltac throws :=
  lazymatch goal with
  | |- throw _ _ = _ => reflexivity
  | |- bind esl_exception _ _ = _ =>
      eapply exception_throw_frame; [eassumption | reflexivity | lia]
  | |- ESL_ALLOC _ _ _ = _ =>
      unfold ESL_ALLOC; step; step;
      eapply exception_throw_frame; [eassumption | reflexivity | lia]
  end.

Ltac go_throw :=
  lazymatch goal with
  | |- bind _ _ _ = _ => first [step; go_throw | apply run_bind_thrown; throws]
  end.

(** Running up to the exception that the default handler answers by
    aborting the process. *)
Ltac aborts :=
  lazymatch goal with
  | |- bind esl_exception _ _ = _ =>
      eapply exception_abort_frame; [eassumption | reflexivity | lia]
  | |- ESL_ALLOC _ _ _ = _ =>
      unfold ESL_ALLOC; step; step;
      eapply exception_abort_frame; [eassumption | reflexivity | lia]
  end.

Ltac go_abort :=
  lazymatch goal with
  | |- bind _ _ _ = _ => first [step; go_abort | apply run_bind_none; aborts]
  end.

Ltac eq_blocks :=
  repeat match goal with
         | |- set_at ?n ?x ?idx ?g ?l = set_at _ _ ?idx' _ _ =>
             tryif constr_eq idx idx' then fail
             else rewrite (set_at_ext n x idx idx' g l)
                 by (intros ? ?; cbv beta; lia)
         | |- _ = _ => first [reflexivity | lia | progress f_equal]
         end.

(** [p7_profile_Create] on a model of at least two nodes, with memory to
    spare: the blocks it leaves behind. *)
Lemma Create_frame m0 b0 f snt inb M K Kp abc :
  let s0 := State m0 b0 f snt inb in
  2 ≤ M → 1 ≤ Kp → 0 ≤ K < Kp →
  fresh s0 →
  rd s0 (field abc ESL_ALPHABET.K) = Some (Vint K) →
  rd s0 (field abc ESL_ALPHABET.Kp) = Some (Vint Kp) →
  fates_ok 11 f →
  p7_profile_Create M abc (frame m0 b0 [] f snt inb)
  = Some (Normal (Ptr (nb b0 0) 0),
          frame m0 b0 (profile_blocks b0 M Kp (created_image M K Kp abc))
                (Nat.iter 11 tail f) snt inb).
Proof.
  intros s0 HM HKp HK Hfresh HrK HrKp Hf.
  destruct abc as [|a oa]; [done|].
  pose proof (fresh_old _ _ _ _ Hfresh HrKp) as Ha. simpl in Ha.
  unfold p7_profile_Create.
  unfold P7_PROFILE.sizeof, P7_PROFILE.tsc, P7_PROFILE.msc, P7_PROFILE.isc,
    P7_PROFILE.bsc, P7_PROFILE.esc, P7_PROFILE.begin, P7_PROFILE.end_,
    P7_PROFILE.mode, P7_PROFILE.M, P7_PROFILE.abc, P7_PROFILE.hmm, P7_PROFILE.bg,
    P7_PROFILE.do_lcorrect, P7_PROFILE.lscore, P7_PROFILE.h2_mode.
  unfold p7_TMM, p7_TMI, p7_TMD, p7_TIM, p7_TII, p7_TDM, p7_TDD.
  unfold field in HrK, HrKp. cbn [ptr_add] in HrK, HrKp.
  apply fates_ok_S in Hf as [Hf0 Hf]. apply fates_ok_S in Hf as [Hf1 Hf].
  apply fates_ok_S in Hf as [Hf2 Hf]. apply fates_ok_S in Hf as [Hf3 Hf].
  apply fates_ok_S in Hf as [Hf4 Hf]. apply fates_ok_S in Hf as [Hf5 Hf].
  apply fates_ok_S in Hf as [Hf6 Hf]. apply fates_ok_S in Hf as [Hf7 Hf].
  apply fates_ok_S in Hf as [Hf8 Hf]. apply fates_ok_S in Hf as [Hf9 Hf].
  apply fates_ok_S in Hf as [Hf10 _].
  step.
  let r := eval vm_compute in (replicate (Z.to_nat 31) Vundef) in
  change (replicate (Z.to_nat 31) Vundef) with r.
  apply run_catch_normal.
  (* level 0 and level 1 *)
  do 9 step.
  let r := eval vm_compute in (replicate (Z.to_nat 7) Vundef) in
  change (replicate (Z.to_nat 7) Vundef) with r.
  do 3 step.
  rewrite (replicate_pos Kp) by lia.
  do 3 step.
  rewrite (replicate_pos Kp) by lia.
  do 5 step.
  (* level 2 *)
  do 9 step. unfold for_loop at 1.
  etransitivity; [apply run_bind; eapply rows_loop; try reflexivity;
                  cbn [length]; rewrite ?length_replicate; lia|]. tidy.
  rewrite !set_at_rows by lia.
  unfold for_loop at 1. change (Z.to_nat (7 - 0)) with 7%nat. tidy.
  step.
  match goal with
  | |- context [Some [Vptr (Ptr (nb b0 8) ?o0); ?v1; ?v2; ?v3; ?v4; ?v5; ?v6]] =>
      replace [Vptr (Ptr (nb b0 8) o0); v1; v2; v3; v4; v5; v6]
        with (row_table (nb b0 8) M 7)
        by (unfold row_table; cbn; eq_blocks)
  end.
  (* the cells that are never used *)
  do 10 step. unfold for_loop at 1. rewrite Z.sub_0_r.
  etransitivity; [apply run_bind; eapply node0_loop; try reflexivity;
                  rewrite ?length_replicate; lia|]. tidy.
  do 3 step.
  etransitivity; [apply run_bind; eapply ISet_frame;
                  [reflexivity | first [lia | nia] | len_solve]|]. tidy.
  do 2 step.
  etransitivity; [apply run_bind; eapply ISet_frame;
                  [reflexivity | first [lia | nia] | len_solve]|]. tidy.
  do 3 step.
  etransitivity; [apply run_bind; eapply ISet_frame;
                  [reflexivity | first [lia | nia] | len_solve]|]. tidy.
  do 2 step.
  etransitivity; [apply run_bind; eapply ISet_frame;
                  [reflexivity | first [lia | nia] | len_solve]|]. tidy.
  (* remaining info *)
  do 8 step.
  unfold ret, profile_blocks, created_image, struct_cells, created_tsc,
    created_emissions, impossible, p7_TMM, p7_TMI, p7_TMD, p7_TIM, p7_TII,
    p7_TDM, p7_TDD.
  cbn [i_mode i_abc i_hmm i_bg i_M i_xsc i_xt i_do_lcorrect i_lscore i_h2_mode
       i_bsc i_esc i_begin i_end i_tsc i_msc i_isc].
  eq_blocks.
Qed.

Lemma first_failure n : ∀ f,
  (∃ i, (i < n)%nat ∧ f !! i = Some false) →
  ∃ k f', (k < n)%nat ∧ f = replicate k true ++ false :: f'.
Proof.
  induction n as [|n IH]; intros f (i & Hi & Hf); [lia|].
  destruct f as [|[] f]; [done| |].
  - destruct i as [|i]; [done|]. simpl in Hf.
    destruct (IH f) as (k & f' & Hk & ->); [exists i; split; [lia|done]|].
    exists (S k), f'. split; [lia|done].
  - exists 0%nat, f. split; [lia|done].
Qed.

(** An allocation of [p7_profile_Create] fails and the exception handler
    returns: the [ERROR:] block tears the profile down. *)
Lemma Create_fail_run s M Kp abc :
  1 ≤ M → 1 ≤ Kp →
  fresh s →
  rd s (field abc ESL_ALPHABET.Kp) = Some (Vint Kp) →
  (∃ i, (i < 11)%nat ∧ heap_ok s !! i = Some false) →
  handler_installed s →
  ∃ s', p7_profile_Create M abc s = Some (Normal NULL, s')
        ∧ mem s' = mem s ∧ sent s' = sent s ∧ inbox s' = inbox s.
Proof.
  intros HM HKp Hfresh HrKp Hfail Hh.
  pose proof (handler_old _ Hfresh (or_introl Hh)) as Hb.
  destruct s as [m0 b0 f snt inb]. simpl in Hfail, Hb.
  apply first_failure in Hfail as (k & f' & Hk & ->).
  destruct abc as [|a oa]; [done|].
  pose proof (fresh_old _ _ _ _ Hfresh HrKp) as Ha. simpl in Ha.
  unfold field in HrKp. cbn [ptr_add] in HrKp.
  match goal with |- ∃ s', _ ?s0 = _ ∧ _ =>
    replace s0 with (frame m0 b0 [] (replicate k true ++ false :: f') snt inb)
      by (unfold frame, nb; simpl; f_equal; lia)
  end.
  unfold p7_profile_Create, p7_profile_Destroy, free_rows, free_field.
  unfold P7_PROFILE.sizeof, P7_PROFILE.tsc, P7_PROFILE.msc, P7_PROFILE.isc,
    P7_PROFILE.bsc, P7_PROFILE.esc, P7_PROFILE.begin, P7_PROFILE.end_.
  do 11 (destruct k as [|k]; [
    eexists; split;
      [ cbn [replicate app]; step;
        (etransitivity; [apply run_catch_thrown; go_throw|]); tidy; steps
      | cbn [mem sent inbox frame]; split; [|done];
        apply heap_of_all_freed; [exact Hfresh | repeat constructor] ] |]).
  lia.
Qed.

(** The same failure under Easel's default handler: the process is aborted
    where the allocation failed, and [p7_profile_Create] does not return. *)
Lemma Create_fail_abort s M Kp abc :
  1 ≤ M → 1 ≤ Kp →
  fresh s →
  rd s (field abc ESL_ALPHABET.Kp) = Some (Vint Kp) →
  (∃ i, (i < 11)%nat ∧ heap_ok s !! i = Some false) →
  handler_default s →
  p7_profile_Create M abc s = None.
Proof.
  intros HM HKp Hfresh HrKp Hfail Hh.
  pose proof (handler_old _ Hfresh (or_intror Hh)) as Hb.
  destruct s as [m0 b0 f snt inb]. simpl in Hfail, Hb.
  apply first_failure in Hfail as (k & f' & Hk & ->).
  destruct abc as [|a oa]; [done|].
  pose proof (fresh_old _ _ _ _ Hfresh HrKp) as Ha. simpl in Ha.
  unfold field in HrKp. cbn [ptr_add] in HrKp.
  match goal with |- _ ?s0 = _ =>
    replace s0 with (frame m0 b0 [] (replicate k true ++ false :: f') snt inb)
      by (unfold frame, nb; simpl; f_equal; lia)
  end.
  unfold p7_profile_Create.
  unfold P7_PROFILE.sizeof, P7_PROFILE.tsc, P7_PROFILE.msc, P7_PROFILE.isc,
    P7_PROFILE.bsc, P7_PROFILE.esc, P7_PROFILE.begin, P7_PROFILE.end_.
  do 11 (destruct k as [|k]; [
    cbn [replicate app]; step; apply run_catch_none; go_abort |]).
  lia.
Qed.

(** C6, amended: when one of the eleven allocations of [p7_profile_Create] fails,
    the failure is first reported to Easel's exception handler.  If an
    application handler is installed (it returns), [p7_profile_Create]
    returns [NULL], and [p7_profile_Destroy] has freed every block allocated
    until then - each field that is not [NULL], and nothing at all for a
    [NULL] profile: the memory is the one it started from.  Under the default
    handler the process is aborted instead, and nothing is returned. *)
Theorem Create_allocation_failure s M Kp abc :
  1 ≤ M → 1 ≤ Kp →
  fresh s →
  rd s (field abc ESL_ALPHABET.Kp) = Some (Vint Kp) →
  (∃ i, (i < 11)%nat ∧ heap_ok s !! i = Some false) →
  p7_profile_Destroy NULL s = Some (Normal tt, s)
  ∧ (handler_installed s →
     ∃ s', p7_profile_Create M abc s = Some (Normal NULL, s')
           ∧ mem s' = mem s ∧ sent s' = sent s ∧ inbox s' = inbox s)
  ∧ (handler_default s → p7_profile_Create M abc s = None).
Proof.
  intros HM HKp Hfresh HrKp Hfail. split; [reflexivity|]. split; intros Hh.
  - by eapply Create_fail_run.
  - by eapply Create_fail_abort.
Qed.

(** C6 as stated fails under Easel's default handler: the third
    allocation fails, the process is aborted where it failed, and
    [p7_profile_Create] returns nothing - no [NULL] either. *)
Lemma Create_aborts_by_default :
  handler_default (esl_exception_SetHandler NULL (alphabet_state 2 3 [true; true; false]))
  ∧ heap_ok (esl_exception_SetHandler NULL (alphabet_state 2 3 [true; true; false])) !! 2%nat
    = Some false
  ∧ p7_profile_Create 2 (Ptr 0 0)
      (esl_exception_SetHandler NULL (alphabet_state 2 3 [true; true; false])) = None
  ∧ ¬ Create_failure_returns_NULL
        (esl_exception_SetHandler NULL (alphabet_state 2 3 [true; true; false]))
        2 (Ptr 0 0).
Proof.
  assert (p7_profile_Create 2 (Ptr 0 0)
            (esl_exception_SetHandler NULL (alphabet_state 2 3 [true; true; false]))
          = None) as Hrun by (vm_compute; reflexivity).
  split; [reflexivity|]. split; [reflexivity|]. split; [exact Hrun|].
  intros [s' Hs']. rewrite Hrun in Hs'. discriminate.
Qed.

Lemma rd_ptr_val s p q : rd s p = Some (Vptr q) → rd_ptr s p = Some q.
Proof. unfold rd_ptr. by intros ->. Qed.

(** Reading a profile laid out by [profile_blocks] at base block [bb],
    when these are the blocks [k .. k+10] of a frame. *)
Section profile_reads.
Context (m0 : gmap Z (list val)) (b0 : Z) (f : list bool) (snt inb : list message).
Context (M Kp : Z) (im : image) (pre : list (option (list val))).
Context (bb : Z) (Hbb : bb = nb b0 (length pre)).

Let s := frame m0 b0 (pre ++ profile_blocks bb M Kp im) f snt inb.
Let gm := Ptr bb 0.

Lemma profile_block_lookup (j : nat) ob :
  profile_blocks bb M Kp im !! j = Some (Some ob) →
  mem s !! nb bb j = Some ob.
Proof.
  intros Hj. subst s.
  replace (nb bb j) with (nb b0 (length pre + j)) by (unfold nb in *; lia).
  rewrite frame_lookup_new.
  - by rewrite lookup_app_r, Nat.add_comm, Nat.add_sub, Hj by lia.
  - apply lookup_lt_Some in Hj. rewrite length_app. lia.
Qed.

Lemma profile_rd (j : nat) ob o :
  profile_blocks bb M Kp im !! j = Some (Some ob) →
  0 ≤ o →
  rd s (Ptr (nb bb j) o) = ob !! Z.to_nat o.
Proof.
  intros Hj Ho. unfold rd. rewrite (profile_block_lookup j ob Hj). simpl.
  by rewrite decide_True.
Qed.

Lemma profile_field (o : Z) (n : nat) v :
  0 ≤ o → Z.to_nat o = n →
  struct_cells bb im !! n = Some v →
  rd s (field gm o) = Some v.
Proof.
  intros Ho <- <-. unfold field, gm, ptr_add.
  replace (Ptr bb (0 + o)) with (Ptr (nb bb 0) (0 + o))
    by (unfold nb; f_equal; lia).
  rewrite (profile_rd 0 (struct_cells bb im)); [|reflexivity|lia].
  do 2 f_equal.
Qed.

Lemma profile_tsc_at x k :
  0 ≤ x < 7 → 0 ≤ x * M + k →
  tbl_at s gm P7_PROFILE.tsc x k = i_tsc im !! Z.to_nat (x * M + k).
Proof.
  intros Hx Hk. unfold tbl_at.
  erewrite rd_ptr_val; [|eapply profile_field; [done|lit_to_nat|reflexivity]].
  cbn [mbind option_bind ptr_add].
  erewrite rd_ptr_val;
    [|erewrite (profile_rd 1); [|reflexivity|lia];
      rewrite Z.add_0_l; by apply row_table_lookup].
  cbn [mbind option_bind ptr_add]. by erewrite (profile_rd 8); [|reflexivity|lia].
Qed.

Lemma profile_msc_at x k :
  0 ≤ x < Kp → 0 ≤ x * (M + 1) + k →
  tbl_at s gm P7_PROFILE.msc x k = i_msc im !! Z.to_nat (x * (M + 1) + k).
Proof.
  intros Hx Hk. unfold tbl_at.
  erewrite rd_ptr_val; [|eapply profile_field; [done|lit_to_nat|reflexivity]].
  cbn [mbind option_bind ptr_add].
  erewrite rd_ptr_val;
    [|erewrite (profile_rd 2); [|reflexivity|lia];
      rewrite Z.add_0_l; by apply row_table_lookup].
  cbn [mbind option_bind ptr_add]. by erewrite (profile_rd 9); [|reflexivity|lia].
Qed.

Lemma profile_isc_at x k :
  0 ≤ x < Kp → 0 ≤ x * M + k →
  tbl_at s gm P7_PROFILE.isc x k = i_isc im !! Z.to_nat (x * M + k).
Proof.
  intros Hx Hk. unfold tbl_at.
  erewrite rd_ptr_val; [|eapply profile_field; [done|lit_to_nat|reflexivity]].
  cbn [mbind option_bind ptr_add].
  erewrite rd_ptr_val;
    [|erewrite (profile_rd 3); [|reflexivity|lia];
      rewrite Z.add_0_l; by apply row_table_lookup].
  cbn [mbind option_bind ptr_add]. by erewrite (profile_rd 10); [|reflexivity|lia].
Qed.
End profile_reads.

Lemma nb_0 b0 : nb b0 0 = b0.
Proof. unfold nb. lia. Qed.

Lemma state_as_frame s :
  s = frame (mem s) (brk s) [] (heap_ok s) (sent s) (inbox s).
Proof. by rewrite frame_nil. Qed.

Lemma insert_hit {A} (l : list A) (i j : nat) v :
  i = j → (j < length l)%nat → <[i := v]> l !! j = Some v.
Proof. intros ->. apply list_lookup_insert_eq. Qed.

Lemma created_tsc_length M : length (created_tsc M) = Z.to_nat (7 * M).
Proof. unfold created_tsc. by rewrite !length_insert, length_replicate. Qed.

Lemma created_emissions_length M K Kp w :
  length (created_emissions M K Kp w) = Z.to_nat (Kp * w).
Proof. unfold created_emissions. by rewrite !set_at_length, length_replicate. Qed.

Ltac find_insert :=
  repeat first
    [ apply insert_hit; [lia | rewrite ?length_insert, ?length_replicate; lia]
    | apply insert_keep ].

Lemma created_tsc_node0 M x :
  1 ≤ M → 0 ≤ x < 7 → created_tsc M !! Z.to_nat (x * M + 0) = Some impossible.
Proof.
  intros HM Hx. unfold created_tsc, p7_TMM, p7_TMI, p7_TMD, p7_TIM, p7_TII, p7_TDM, p7_TDD.
  assert (x = 0 ∨ x = 1 ∨ x = 2 ∨ x = 3 ∨ x = 4 ∨ x = 5 ∨ x = 6) as Hc by lia.
  destruct Hc as [->|[->|[->|[->|[->|[->| ->]]]]]]; find_insert.
Qed.

Lemma created_tsc_wing M x :
  2 ≤ M → x = p7_TDM ∨ x = p7_TDD →
  created_tsc M !! Z.to_nat (x * M + 1) = Some impossible.
Proof.
  intros HM Hx. unfold created_tsc, p7_TMM, p7_TMI, p7_TMD, p7_TIM, p7_TII, p7_TDM, p7_TDD in *.
  destruct Hx as [-> | ->]; find_insert.
Qed.

Lemma created_emissions_node0 M K Kp w x :
  1 ≤ w → 0 ≤ x < Kp →
  created_emissions M K Kp w !! Z.to_nat (x * w + 0) = Some impossible.
Proof.
  intros Hw Hx. unfold created_emissions. rewrite Z.add_0_r.
  do 2 apply set_at_keep.
  apply (set_at_hit _ 0 (λ x, x * w)); [lia|].
  rewrite length_replicate. nia.
Qed.

Lemma created_emissions_gap M K Kp w k :
  1 ≤ w → 0 ≤ K < Kp → 0 ≤ k < w →
  created_emissions M K Kp w !! Z.to_nat (K * w + k) = Some impossible.
Proof.
  intros Hw HK Hk. unfold created_emissions.
  apply set_at_keep.
  apply (set_at_hit _ 0 (λ y, K * w + y)); [lia|].
  rewrite set_at_length, length_replicate. nia.
Qed.

Lemma created_emissions_missing M K Kp w k :
  1 ≤ w → 1 ≤ Kp → 0 ≤ k < w →
  created_emissions M K Kp w !! Z.to_nat ((Kp - 1) * w + k) = Some impossible.
Proof.
  intros Hw HK Hk. unfold created_emissions.
  apply (set_at_hit _ 0 (λ y, (Kp - 1) * w + y)); [lia|].
  rewrite !set_at_length, length_replicate. nia.
Qed.

(** C3, for a model of two nodes or more, where [p7_profile_Create]
    succeeds:
    the node-0 transitions and emissions, the two delete transitions of
    node 1, and the emission rows of the gap and of the missing-data symbol
    all hold [p7_IMPOSSIBLE]. *)
Theorem Create_impossible_cells s M K Kp abc :
  2 ≤ M → 1 ≤ Kp → 0 ≤ K < Kp →
  fresh s →
  rd s (field abc ESL_ALPHABET.K) = Some (Vint K) →
  rd s (field abc ESL_ALPHABET.Kp) = Some (Vint Kp) →
  fates_ok 11 (heap_ok s) →
  ∃ s', p7_profile_Create M abc s = Some (Normal (Ptr (brk s) 0), s')
    ∧ (∀ x, 0 ≤ x < 7 →
         tbl_at s' (Ptr (brk s) 0) P7_PROFILE.tsc x 0 = Some impossible)
    ∧ (∀ x, 0 ≤ x < Kp →
         tbl_at s' (Ptr (brk s) 0) P7_PROFILE.msc x 0 = Some impossible
         ∧ tbl_at s' (Ptr (brk s) 0) P7_PROFILE.isc x 0 = Some impossible)
    ∧ tbl_at s' (Ptr (brk s) 0) P7_PROFILE.tsc p7_TDM 1 = Some impossible
    ∧ tbl_at s' (Ptr (brk s) 0) P7_PROFILE.tsc p7_TDD 1 = Some impossible
    ∧ (∀ k, 0 ≤ k ≤ M →
         tbl_at s' (Ptr (brk s) 0) P7_PROFILE.msc K k = Some impossible
         ∧ tbl_at s' (Ptr (brk s) 0) P7_PROFILE.msc (Kp - 1) k = Some impossible)
    ∧ (∀ k, 0 ≤ k < M →
         tbl_at s' (Ptr (brk s) 0) P7_PROFILE.isc K k = Some impossible
         ∧ tbl_at s' (Ptr (brk s) 0) P7_PROFILE.isc (Kp - 1) k = Some impossible).
Proof.
  intros HM HKp HK Hfresh HrK HrKp Hf.
  destruct s as [m0 b0 f snt inb]. cbn [brk heap_ok] in *.
  pose proof (Create_frame m0 b0 f snt inb M K Kp abc HM HKp HK Hfresh HrK HrKp Hf)
    as Hrun.
  rewrite nb_0 in Hrun.
  rewrite (state_as_frame (State m0 b0 f snt inb)). cbn [mem brk heap_ok sent inbox].
  eexists. split; [exact Hrun|].
  assert (b0 = nb b0 (length (@nil (option (list val))))) as Hbb
    by (by rewrite nb_0).
  set (im := created_image M K Kp abc).
  pose proof (profile_tsc_at m0 b0 (Nat.iter 11 tail f) snt inb M Kp im [] b0 Hbb) as Ht.
  pose proof (profile_msc_at m0 b0 (Nat.iter 11 tail f) snt inb M Kp im [] b0 Hbb) as Hm.
  pose proof (profile_isc_at m0 b0 (Nat.iter 11 tail f) snt inb M Kp im [] b0 Hbb) as Hi.
  cbn [app] in Ht, Hm, Hi.
  repeat split.
  - intros x Hx. rewrite Ht by lia. by apply created_tsc_node0; [lia|].
  - rewrite Hm by lia. apply created_emissions_node0; lia.
  - rewrite Hi by lia. apply created_emissions_node0; lia.
  - rewrite Ht by (unfold p7_TDM; lia). apply created_tsc_wing; auto.
  - rewrite Ht by (unfold p7_TDD; lia). apply created_tsc_wing; auto.
  - rewrite Hm by nia. apply created_emissions_gap; lia.
  - rewrite Hm by nia. apply created_emissions_missing; lia.
  - rewrite Hi by nia. apply created_emissions_gap; lia.
  - rewrite Hi by nia. apply created_emissions_missing; lia.
Qed.

Lemma wr_frame_out_of_bounds m0 b0 bl f snt inb i o l v :
  bl !! i = Some (Some l) →
  Z.of_nat (length l) ≤ o →
  wr (frame m0 b0 bl f snt inb) (Ptr (nb b0 i) o) v = None.
Proof.
  intros Hl Ho. unfold wr.
  rewrite frame_lookup_new by (by eapply lookup_lt_Some).
  rewrite Hl. simpl. by rewrite decide_False by lia.
Qed.

(** The run of [p7_profile_Create] for one node, up to the write past the
    end of the [tsc] buffer. *)
Lemma Create_one_node_run s K Kp abc :
  1 ≤ Kp → 0 ≤ K < Kp →
  fresh s →
  rd s (field abc ESL_ALPHABET.K) = Some (Vint K) →
  rd s (field abc ESL_ALPHABET.Kp) = Some (Vint Kp) →
  fates_ok 11 (heap_ok s) →
  p7_profile_Create 1 abc s = None.
Proof.
  intros HKp HK Hfresh HrK HrKp Hf.
  destruct s as [m0 b0 f snt inb]. cbn [heap_ok] in *.
  rewrite (state_as_frame (State m0 b0 f snt inb)). cbn [mem brk heap_ok sent inbox].
  destruct abc as [|a oa]; [done|].
  pose proof (fresh_old _ _ _ _ Hfresh HrKp) as Ha. simpl in Ha.
  unfold p7_profile_Create.
  unfold P7_PROFILE.sizeof, P7_PROFILE.tsc, P7_PROFILE.msc, P7_PROFILE.isc,
    P7_PROFILE.bsc, P7_PROFILE.esc, P7_PROFILE.begin, P7_PROFILE.end_,
    P7_PROFILE.mode, P7_PROFILE.M, P7_PROFILE.abc, P7_PROFILE.hmm, P7_PROFILE.bg,
    P7_PROFILE.do_lcorrect, P7_PROFILE.lscore, P7_PROFILE.h2_mode.
  unfold p7_TMM, p7_TMI, p7_TMD, p7_TIM, p7_TII, p7_TDM, p7_TDD.
  unfold field in HrK, HrKp. cbn [ptr_add] in HrK, HrKp.
  apply fates_ok_S in Hf as [Hf0 Hf]. apply fates_ok_S in Hf as [Hf1 Hf].
  apply fates_ok_S in Hf as [Hf2 Hf]. apply fates_ok_S in Hf as [Hf3 Hf].
  apply fates_ok_S in Hf as [Hf4 Hf]. apply fates_ok_S in Hf as [Hf5 Hf].
  apply fates_ok_S in Hf as [Hf6 Hf]. apply fates_ok_S in Hf as [Hf7 Hf].
  apply fates_ok_S in Hf as [Hf8 Hf]. apply fates_ok_S in Hf as [Hf9 Hf].
  apply fates_ok_S in Hf as [Hf10 _].
  step.
  let r := eval vm_compute in (replicate (Z.to_nat 31) Vundef) in
  change (replicate (Z.to_nat 31) Vundef) with r.
  apply run_catch_none.
  do 9 step.
  let r := eval vm_compute in (replicate (Z.to_nat 7) Vundef) in
  change (replicate (Z.to_nat 7) Vundef) with r.
  do 3 step.
  rewrite (replicate_pos Kp) by lia.
  do 3 step.
  rewrite (replicate_pos Kp) by lia.
  do 5 step.
  do 9 step. unfold for_loop at 1.
  etransitivity; [apply run_bind; eapply rows_loop; try reflexivity;
                  cbn [length]; rewrite ?length_replicate; lia|]. tidy.
  rewrite !set_at_rows by lia.
  unfold for_loop at 1. change (Z.to_nat (7 - 0)) with 7%nat. tidy.
  step.
  match goal with
  | |- context [Some [Vptr (Ptr (nb b0 8) ?o0); ?v1; ?v2; ?v3; ?v4; ?v5; ?v6]] =>
      replace [Vptr (Ptr (nb b0 8) o0); v1; v2; v3; v4; v5; v6]
        with (row_table (nb b0 8) 1 7)
        by (unfold row_table; cbn; eq_blocks)
  end.
  (* the eight stores that are in bounds, then gm->tsc[p7_TDD][1] *)
  do 8 step.
  apply run_bind_none. unfold store_tbl. tidy. do 2 step.
  unfold store.
  erewrite wr_frame_out_of_bounds; [done|reflexivity|].
  rewrite !length_insert, length_replicate. lia.
Qed.

(** C3, for a model of one node: [p7_profile_Create] has no defined
    outcome, whatever the memory and the alphabet.  [tsc] is a buffer of
    [7*M = 7] cells, and [gm->tsc[p7_TDD][1]] is its cell [6*M + 1 = 7]. *)
Theorem Create_one_node_undefined s K Kp abc :
  1 ≤ Kp → 0 ≤ K < Kp →
  fresh s →
  rd s (field abc ESL_ALPHABET.K) = Some (Vint K) →
  rd s (field abc ESL_ALPHABET.Kp) = Some (Vint Kp) →
  fates_ok 11 (heap_ok s) →
  p7_profile_Create 1 abc s = None.
Proof. apply Create_one_node_run. Qed.

(** ** Messages on a frame *)

Lemma MPI_Send_frame m0 b0 bl f snt inb i o n dt dest tg l (o' n' : nat) :
  bl !! i = Some (Some l) →
  Z.to_nat o = o' → Z.to_nat n = n' → 0 ≤ o → 0 ≤ n →
  (o' + n' ≤ length l)%nat →
  MPI_Send (Ptr (nb b0 i) o) n dt dest tg (frame m0 b0 bl f snt inb)
  = Some (Normal tt,
          frame m0 b0 bl f (snt ++ [Msg dest tg dt (take n' (drop o' l))]) inb).
Proof.
  intros Hl <- <- Ho Hn Hlen. unfold MPI_Send, rd_range.
  rewrite frame_lookup_new by (by eapply lookup_lt_Some).
  rewrite Hl. simpl. by rewrite decide_True by lia.
Qed.

Lemma MPI_Recv_frame m0 b0 bl f snt rest i o count dt src tg l vs (o' : nat) :
  bl !! i = Some (Some l) →
  Z.to_nat o = o' → 0 ≤ o →
  (o' + length vs ≤ length l)%nat →
  Z.of_nat (length vs) ≤ count →
  MPI_Recv (Ptr (nb b0 i) o) count dt src tg
           (frame m0 b0 bl f snt (Msg src tg dt vs :: rest))
  = Some (Normal tt, frame m0 b0 (<[i := Some (splice l o' vs)]> bl) f snt rest).
Proof.
  intros Hl <- Ho Hlen Hcount. unfold MPI_Recv. cbn [inbox frame take_message peer tag].
  rewrite !Z.eqb_refl. cbn [andb mbind option_bind dtype payload].
  assert (datatype_eqb dt dt = true) as -> by (by destruct dt).
  assert ((Z.of_nat (length vs) <=? count) = true) as -> by lia.
  cbn [andb]. unfold wr_range.
  change (State (heap_of m0 b0 bl) (nb b0 (length bl)) f snt
                (Msg src tg dt vs :: rest))
    with (frame m0 b0 bl f snt (Msg src tg dt vs :: rest)).
  rewrite frame_lookup_new by (by eapply lookup_lt_Some).
  rewrite Hl. cbn [mjoin option_join mbind option_bind].
  rewrite decide_True by lia. cbn [mbind option_bind].
  unfold with_mem, frame. cbn [mem brk heap_ok sent inbox].
  rewrite heap_of_insert by (by eapply lookup_lt_Some).
  by rewrite length_insert.
Qed.

Lemma with_local_frame {A} m0 b0 bl f snt inb init (body : ptr → prog A)
    r m0' bl' f' snt' inb' :
  body (Ptr (nb b0 (length bl)) 0) (frame m0 b0 (bl ++ [Some [init]]) f snt inb)
  = Some (r, frame m0' b0 bl' f' snt' inb') →
  (length bl < length bl')%nat →
  with_local init body (frame m0 b0 bl f snt inb)
  = Some (r, frame m0' b0 (<[length bl := None]> bl') f' snt' inb').
Proof.
  intros Hbody Hlen. unfold with_local. cbn [brk mem heap_ok sent inbox frame].
  rewrite heap_of_snoc.
  replace (nb b0 (length bl) + 1) with (nb b0 (length (bl ++ [Some [init]])))
    by (rewrite length_app; unfold nb; simpl; lia).
  change (State (heap_of m0 b0 (bl ++ [Some [init]]))
                (nb b0 (length (bl ++ [Some [init]]))) f snt inb)
    with (frame m0 b0 (bl ++ [Some [init]]) f snt inb).
  rewrite Hbody. unfold with_mem, frame. cbn [mem brk heap_ok sent inbox].
  rewrite heap_of_delete by done. by rewrite length_insert.
Qed.

Lemma splice_full (l vs : list val) : length vs = length l → splice l 0 vs = vs.
Proof.
  intros Hlen. unfold splice. simpl. rewrite Hlen, drop_all. by rewrite app_nil_r.
Qed.

Lemma take_drop_full (l : list val) n : n = length l → take n (drop 0 l) = l.
Proof. intros ->. rewrite drop_0. apply firstn_all. Qed.

(** C8: [p7_profile_MPISend] on a NULL profile posts the one-cell message
    -1 and nothing else; [p7_profile_MPIRecv], finding that message as the
    model size, returns [eslEOD], having allocated nothing, consumed no
    malloc and written nothing to the caller's memory. *)
Theorem MPI_end_of_data sender receiver dest abc bg ret_gm rest :
  fresh sender → fresh receiver →
  inbox receiver = Msg 0 0 MPI_INT [Vint (-1)] :: rest →
  (∃ s1, p7_profile_MPISend NULL dest sender = Some (Normal eslOK, s1)
         ∧ sent s1 = sent sender ++ [eod_message dest]
         ∧ mem s1 = mem sender)
  ∧ (∃ s2, p7_profile_MPIRecv abc bg ret_gm receiver = Some (Normal eslEOD, s2)
           ∧ mem s2 = mem receiver
           ∧ heap_ok s2 = heap_ok receiver
           ∧ inbox s2 = rest).
Proof.
  intros Hf1 Hf2 Hin.
  destruct sender as [m1 b1 f1 snt1 inb1], receiver as [m2 b2 f2 snt2 inb2].
  cbn [inbox mem sent heap_ok] in *. subst inb2. split.
  - rewrite (state_as_frame (State m1 b1 f1 snt1 inb1)).
    cbn [mem brk heap_ok sent inbox].
    unfold p7_profile_MPISend. cbn [is_NULL].
    eexists. split; [|split].
    + eapply with_local_frame.
      * cbn [app length].
        etransitivity;
          [apply run_bind; eapply MPI_Send_frame;
           [reflexivity | lit_to_nat | lit_to_nat | lia | lia | cbn [length]; lia]|].
        reflexivity.
      * cbn [length]. lia.
    + reflexivity.
    + cbn [mem frame]. apply heap_of_all_freed; [exact Hf1 | repeat constructor].
  - rewrite (state_as_frame (State m2 b2 f2 snt2 _)).
    cbn [mem brk heap_ok sent inbox].
    unfold p7_profile_MPIRecv.
    eexists. split; [|split; [|split]].
    + eapply with_local_frame.
      * cbn [app length].
        etransitivity;
          [apply run_bind; eapply MPI_Recv_frame;
           [reflexivity | lit_to_nat | lia | cbn [length]; lia | cbn [length]; lia]|].
        cbn [insert list_insert splice firstn skipn app length Nat.add].
        step. reflexivity.
      * cbn [length]. lia.
    + cbn [mem frame]. apply heap_of_all_freed; [exact Hf2 | repeat constructor].
    + reflexivity.
    + reflexivity.
Qed.

Ltac send_step :=
  etransitivity;
    [apply run_bind; eapply MPI_Send_frame;
     [ reflexivity | first [lit_to_nat | reflexivity] | first [lit_to_nat | reflexivity]
     | lia | first [lia | nia] | len_solve ]|];
  tidy; cbn [firstn skipn].

(** Sending a profile: the messages posted, the memory untouched. *)
Lemma Send_frame m0 bb post f snt inb M Kp im abc dest :
  wf_image M Kp im → i_abc im = Vptr abc →
  0 ≤ M → 1 ≤ Kp →
  rd (frame m0 bb (profile_blocks bb M Kp im ++ post) f snt inb)
     (field abc ESL_ALPHABET.Kp) = Some (Vint Kp) →
  p7_profile_MPISend (Ptr (nb bb 0) 0) dest
    (frame m0 bb (profile_blocks bb M Kp im ++ post) f snt inb)
  = Some (Normal eslOK,
          frame m0 bb (profile_blocks bb M Kp im ++ post) f
                (snt ++ wire_format dest im) inb).
Proof.
  intros (HM & Hxsc & Hxt & Hbsc & Hesc & Hbeg & Hend & Htsc & Hmsc & Hisc) Habc
    HM0 HKp0 HrKp.
  destruct im as [mode abc' hmm bg M' xsc xt lc ls h2 bsc esc beg en tsc msc isc].
  cbn [i_mode i_abc i_hmm i_bg i_M i_xsc i_xt i_do_lcorrect i_lscore i_h2_mode
       i_bsc i_esc i_begin i_end i_tsc i_msc i_isc] in *.
  subst M' abc'.
  unfold p7_profile_MPISend, profile_blocks, struct_cells in *.
  cbn [i_mode i_abc i_hmm i_bg i_M i_xsc i_xt i_do_lcorrect i_lscore i_h2_mode
       i_bsc i_esc i_begin i_end i_tsc i_msc i_isc app is_NULL] in *.
  unfold xsc_cell, xt_cell.
  unfold P7_PROFILE.tsc, P7_PROFILE.msc, P7_PROFILE.isc,
    P7_PROFILE.bsc, P7_PROFILE.esc, P7_PROFILE.begin, P7_PROFILE.end_,
    P7_PROFILE.mode, P7_PROFILE.M, P7_PROFILE.abc, P7_PROFILE.hmm, P7_PROFILE.bg,
    P7_PROFILE.do_lcorrect, P7_PROFILE.lscore, P7_PROFILE.h2_mode,
    P7_PROFILE.xsc, P7_PROFILE.xt.
  unfold field in HrKp. tidy.
  send_step. send_step.
  do 3 step. send_step.
  do 5 step. send_step.
  do 5 step. send_step.
  do 4 send_step.
  do 2 step. send_step.
  do 2 step. send_step.
  do 4 send_step.
  do 2 step. send_step.
  do 2 step. send_step.
  do 3 send_step.
  unfold ret, wire_format, row2.
  cbn [i_mode i_abc i_hmm i_bg i_M i_xsc i_xt i_do_lcorrect i_lscore i_h2_mode
       i_bsc i_esc i_begin i_end i_tsc i_msc i_isc Nat.mul Nat.add].
  rewrite <- !app_assoc. cbn [app].
  rewrite !take_drop_full by lia.
  reflexivity.
Qed.

Lemma nb_nb b0 i j : nb (nb b0 i) j = nb b0 (i + j).
Proof. unfold nb. lia. Qed.

Lemma frame_shift m0 b0 pre bl f snt inb :
  frame m0 b0 (pre ++ bl) f snt inb
  = frame (heap_of m0 b0 pre) (nb b0 (length pre)) bl f snt inb.
Proof.
  unfold frame. rewrite heap_of_app, length_app, nb_nb. done.
Qed.

Lemma fresh_shift m0 b0 pre f snt inb :
  fresh (State m0 b0 f snt inb) →
  fresh (State (heap_of m0 b0 pre) (nb b0 (length pre)) f snt inb).
Proof.
  intros Hfresh b Hb. cbn [brk mem] in *. rewrite heap_of_lookup.
  unfold nb in Hb. rewrite decide_False by lia. apply Hfresh. simpl. lia.
Qed.

Lemma rd_shift m0 b0 pre f snt inb f' snt' inb' b o :
  b < b0 →
  rd (State (heap_of m0 b0 pre) (nb b0 (length pre)) f snt inb) (Ptr b o)
  = rd (State m0 b0 f' snt' inb') (Ptr b o).
Proof.
  intros Hb. unfold rd. cbn [mem]. rewrite heap_of_lookup.
  by rewrite decide_False by lia.
Qed.

Lemma fresh_old_wr s b o v s' : fresh s → wr s (Ptr b o) v = Some s' → b < brk s.
Proof.
  intros Hfresh Hwr. destruct (decide (b < brk s)) as [|Hge]; [done|].
  unfold wr in Hwr. rewrite Hfresh in Hwr by lia. done.
Qed.

Ltac recv_cell :=
  etransitivity;
    [apply run_bind; eapply MPI_Recv_frame;
     [ reflexivity | lit_to_nat | lia | cbn [length row2]; lia | cbn [length row2]; lia ]|];
  tidy; cbn [splice firstn skipn app length Nat.add row2].

Ltac recv_buffer :=
  etransitivity;
    [apply run_bind; eapply MPI_Recv_frame;
     [ reflexivity | lit_to_nat | lia
     | rewrite ?created_tsc_length, ?created_emissions_length, ?length_replicate; lia
     | lia ]|];
  rewrite splice_full
    by (rewrite ?created_tsc_length, ?created_emissions_length, ?length_replicate; lia);
  tidy.

(** Receiving a profile: the blocks [p7_profile_MPIRecv] leaves behind. *)
Lemma Recv_frame m0 b0 f snt rest M K Kp im abc bg ret_gm s0' :
  let s0 := State m0 b0 f snt (wire_format 0 im ++ rest) in
  2 ≤ M → 1 ≤ Kp → 0 ≤ K < Kp →
  wf_image M Kp im →
  fresh s0 →
  rd s0 (field abc ESL_ALPHABET.K) = Some (Vint K) →
  rd s0 (field abc ESL_ALPHABET.Kp) = Some (Vint Kp) →
  fates_ok 11 f →
  wr s0 ret_gm (Vptr (Ptr (nb b0 1) 0)) = Some s0' →
  p7_profile_MPIRecv abc bg ret_gm (frame m0 b0 [] f snt (wire_format 0 im ++ rest))
  = Some (Normal eslOK,
          frame (mem s0') b0
                (None :: profile_blocks (nb b0 1) M Kp (received_image im abc bg))
                (Nat.iter 11 tail f) snt rest).
Proof.
  intros s0 HM HKp HK (HiM & Hxsc & Hxt & Hbsc & Hesc & Hbeg & Hend & Htsc & Hmsc & Hisc)
    Hfresh HrK HrKp Hf Hret.
  destruct im as [mode abc' hmm bg' M' xsc xt lc ls h2 bsc esc beg en tsc msc isc].
  cbn [i_mode i_abc i_hmm i_bg i_M i_xsc i_xt i_do_lcorrect i_lscore i_h2_mode
       i_bsc i_esc i_begin i_end i_tsc i_msc i_isc] in *.
  subst M'.
  destruct abc as [|a oa]; [done|].
  pose proof (fresh_old _ _ _ _ Hfresh HrKp) as Ha. simpl in Ha.
  destruct ret_gm as [|r ro]; [done|].
  pose proof (fresh_old_wr _ _ _ _ _ Hfresh Hret) as Hr. simpl in Hr.
  unfold p7_profile_MPIRecv, wire_format.
  cbn [i_mode i_abc i_hmm i_bg i_M i_xsc i_xt i_do_lcorrect i_lscore i_h2_mode
       i_bsc i_esc i_begin i_end i_tsc i_msc i_isc app].
  etransitivity; [eapply with_local_frame|].
  { cbn [app length].
  recv_cell. step.
  rewrite (proj2 (Z.eqb_neq M (-1))) by lia.
  (* the receiver allocates storage *)
  etransitivity.
  { apply run_bind.
    change [Some [Vint M]] with ([Some [Vint M]] ++ @nil (option (list val))).
    rewrite frame_shift.
    apply (Create_frame _ _ _ _ _ M K Kp (Ptr a oa)); try done.
    - by apply (fresh_shift m0 b0 [Some [Vint M]]).
    - unfold field, ptr_add. erewrite rd_shift by done. exact HrK.
    - unfold field, ptr_add. erewrite rd_shift by done. exact HrKp. }
  cbv beta. rewrite <- frame_shift.
  unfold profile_blocks, struct_cells, created_image, xsc_cell, xt_cell.
  cbn [i_mode i_abc i_hmm i_bg i_M i_xsc i_xt i_do_lcorrect i_lscore i_h2_mode
       i_bsc i_esc i_begin i_end i_tsc i_msc i_isc app length cell replicate
       lookup list_lookup default from_option].
  rewrite !nb_nb. cbn [Nat.add].
  unfold P7_PROFILE.tsc, P7_PROFILE.msc, P7_PROFILE.isc,
    P7_PROFILE.bsc, P7_PROFILE.esc, P7_PROFILE.begin, P7_PROFILE.end_,
    P7_PROFILE.mode, P7_PROFILE.M, P7_PROFILE.abc, P7_PROFILE.hmm, P7_PROFILE.bg,
    P7_PROFILE.do_lcorrect, P7_PROFILE.lscore, P7_PROFILE.h2_mode,
    P7_PROFILE.xsc, P7_PROFILE.xt.
  unfold field in HrK, HrKp. cbn [ptr_add] in HrK, HrKp. tidy. cbn [id].
  recv_cell.
  do 2 step. recv_buffer.
  do 3 step. recv_buffer.
  do 3 step. recv_buffer.
  do 4 recv_cell.
  step. recv_buffer.
  step. recv_buffer.
  do 4 recv_cell.
  step. recv_buffer.
  step. recv_buffer.
  do 3 recv_cell.
  do 4 step.
  reflexivity. }
  { cbn [length]. lia. }
  unfold profile_blocks, struct_cells, received_image.
  cbn [i_mode i_abc i_hmm i_bg i_M i_xsc i_xt i_do_lcorrect i_lscore i_h2_mode
       i_bsc i_esc i_begin i_end i_tsc i_msc i_isc length insert list_insert].
  rewrite !nb_nb. reflexivity.
Qed.

Lemma profile_blocks_length bb M Kp im : length (profile_blocks bb M Kp im) = 11%nat.
Proof. done. Qed.

(** A state that holds a profile is a frame over the profile's blocks. *)
Lemma profile_at_frame s bb M Kp im :
  fresh s →
  profile_at s (Ptr bb 0) M Kp im →
  ∃ post, s = frame (mem s) bb (profile_blocks bb M Kp im ++ post)
                    (heap_ok s) (sent s) (inbox s).
Proof.
  intros Hfresh (bb' & [= <-] & Hb).
  assert (bb + 11 ≤ brk s) as Hbrk.
  { destruct (decide (bb + 11 ≤ brk s)) as [|Hlt]; [done|].
    specialize (Hb 10%nat ltac:(lia)).
    rewrite Hfresh in Hb by (unfold nb; lia). done. }
  exists ((λ i, mem s !! nb bb (11 + i)) <$> seq 0 (Z.to_nat (brk s - bb - 11))).
  destruct s as [m b f snt inb]. unfold frame. cbn [mem brk heap_ok sent inbox] in *.
  f_equal.
  - apply map_eq. intros b'. rewrite heap_of_lookup.
    rewrite length_app, length_fmap, length_seq, profile_blocks_length.
    case_decide as Hin; [|done].
    destruct (decide (b' - bb < 11)) as [Hlt|Hge].
    + rewrite lookup_app_l by (rewrite profile_blocks_length; lia).
      rewrite <- Hb by lia. f_equal. unfold nb. lia.
    + rewrite lookup_app_r by (rewrite profile_blocks_length; lia).
      rewrite profile_blocks_length, list_lookup_fmap.
      rewrite lookup_seq_lt by lia. cbn [fmap option_fmap option_map mjoin option_join].
      f_equal. unfold nb. lia.
  - unfold nb. rewrite length_app, length_fmap, length_seq, profile_blocks_length. lia.
Qed.

Lemma frame_profile_at m0 b0 pre bb M Kp im post f snt inb :
  bb = nb b0 (length pre) →
  profile_at (frame m0 b0 (pre ++ profile_blocks bb M Kp im ++ post) f snt inb)
             (Ptr bb 0) M Kp im.
Proof.
  intros Hbb. exists bb. split; [done|]. intros j Hj.
  replace (nb bb j) with (nb b0 (length pre + j)) by (subst bb; by rewrite nb_nb).
  rewrite frame_lookup_new
    by (rewrite !length_app, profile_blocks_length; lia).
  rewrite lookup_app_r by lia.
  rewrite Nat.add_comm, Nat.add_sub.
  by rewrite lookup_app_l by (rewrite profile_blocks_length; lia).
Qed.

Lemma deliver_wire_format from to im :
  deliver from to (wire_format to im) = wire_format from im.
Proof.
  unfold deliver, wire_format.
  repeat (rewrite filter_cons_True by done). by rewrite filter_nil.
Qed.

(** The round trip of a profile of two nodes or more: sent by
    [p7_profile_MPISend] from the master (rank 0) and received by
    [p7_profile_MPIRecv], it is reconstructed cell for cell.  The receiver's
    profile holds the sender's image, with the receiver's own alphabet and
    background model; the messages posted are the twenty of [wire_format],
    in the eleven-step order. *)
Theorem MPI_round_trip
    sender gm M Kp im abc1 dest receiver abc2 bg K2 ret_gm rest :
  fresh sender →
  profile_at sender gm M Kp im →
  wf_image M Kp im →
  i_abc im = Vptr abc1 →
  rd sender (field abc1 ESL_ALPHABET.Kp) = Some (Vint Kp) →
  2 ≤ M → 1 ≤ Kp →
  fresh receiver →
  rd receiver (field abc2 ESL_ALPHABET.K) = Some (Vint K2) → 0 ≤ K2 < Kp →
  rd receiver (field abc2 ESL_ALPHABET.Kp) = Some (Vint Kp) →
  fates_ok 11 (heap_ok receiver) →
  is_Some (rd receiver ret_gm) →
  inbox receiver = deliver 0 dest (wire_format dest im) ++ rest →
  (∃ sender',
      p7_profile_MPISend gm dest sender = Some (Normal eslOK, sender')
      ∧ sent sender' = sent sender ++ wire_format dest im
      ∧ mem sender' = mem sender)
  ∧ (∃ receiver' gm',
      p7_profile_MPIRecv abc2 bg ret_gm receiver = Some (Normal eslOK, receiver')
      ∧ rd receiver' ret_gm = Some (Vptr gm')
      ∧ profile_at receiver' gm' M Kp (received_image im abc2 bg)
      ∧ inbox receiver' = rest).
Proof.
  intros Hfs Hat Hwf Habc HKp1 HM HKp Hfr HrK HK HrKp Hf Hret Hin. split.
  - pose proof Hat as (bb & -> & _).
    destruct (profile_at_frame sender bb M Kp im Hfs Hat) as [post Hs].
    pose proof (Send_frame (mem sender) bb post (heap_ok sender) (sent sender)
                  (inbox sender) M Kp im abc1 dest Hwf Habc) as Hsend.
    rewrite <- Hs, nb_0 in Hsend. rewrite Hsend by (done || lia).
    eexists. split; [reflexivity|]. split; [reflexivity|].
    cbn [mem frame]. by rewrite Hs at 2.
  - destruct receiver as [m0 b0 f snt inb]. cbn [inbox heap_ok] in *. subst inb.
    rewrite deliver_wire_format in *.
    destruct (wr_is_Some _ ret_gm (Vptr (Ptr (nb b0 1) 0)) Hret) as [s0' Hwr].
    rewrite (state_as_frame (State m0 b0 f snt _)). cbn [mem brk heap_ok sent inbox].
    erewrite Recv_frame; [|done..].
    eexists _, (Ptr (nb b0 1) 0). split; [reflexivity|]. split; [|split].
    + destruct ret_gm as [|r ro]; [done|].
      pose proof (fresh_old_wr _ _ _ _ _ Hfr Hwr) as Hr. cbn [brk] in Hr.
      erewrite rd_frame_old; [by eapply rd_wr_same|done|done].
    + apply (frame_profile_at (mem s0') b0 [None] (nb b0 1) M Kp _ []).
      done.
    + reflexivity.
Qed.

(** *** Validation *)

Lemma for_acc_run {A} n x (a : A) body (f : A → Z → A) s :
  (∀ k a, x ≤ k < x + Z.of_nat n → body k a s = Some (Normal (f a k), s)) →
  for_acc n x a body s = Some (Normal (foldl f a (seqZ x (Z.of_nat n))), s).
Proof.
  revert x a. induction n as [|n IH]; intros x a Hbody; [done|].
  rewrite seqZ_cons by lia. cbn [for_acc foldl].
  erewrite run_bind; [|apply Hbody; lia].
  rewrite IH by (intros; apply Hbody; lia).
  by replace (Z.succ x) with (x + 1) by lia;
    replace (Z.pred (Z.of_nat (S n))) with (Z.of_nat n) by lia.
Qed.

Lemma for_range_check n x body (P : Z → bool) s :
  (∀ k, x ≤ k < x + Z.of_nat n →
        body k s = Some (if P k then Normal tt else Thrown eslFAIL, s)) →
  for_range n x body s
  = Some (if forallb P (seqZ x (Z.of_nat n)) then Normal tt else Thrown eslFAIL, s).
Proof.
  revert x. induction n as [|n IH]; intros x Hbody; [done|].
  rewrite seqZ_cons by lia. cbn [for_range forallb].
  pose proof (Hbody x ltac:(lia)) as Hx.
  destruct (P x); cbn [andb].
  - erewrite run_bind; [|exact Hx].
    rewrite IH by (intros; apply Hbody; lia).
    by replace (Z.succ x) with (x + 1) by lia;
      replace (Z.pred (Z.of_nat (S n))) with (Z.of_nat n) by lia.
  - unfold bind. by rewrite Hx.
Qed.

Lemma forallb_seqZ (P : Z → bool) x n :
  forallb P (seqZ x n) = true ↔ ∀ k, x ≤ k < x + n → P k = true.
Proof.
  rewrite forallb_forall. split.
  - intros H k Hk. apply H, list_elem_of_In, elem_of_seqZ. lia.
  - intros H k Hk%list_elem_of_In%elem_of_seqZ. apply H. lia.
Qed.

Lemma profile_at_rd s bb M Kp im (j : nat) ob o :
  profile_at s (Ptr bb 0) M Kp im →
  profile_blocks bb M Kp im !! j = Some (Some ob) →
  0 ≤ o →
  rd s (Ptr (nb bb j) o) = ob !! Z.to_nat o.
Proof.
  intros (bb' & [= <-] & Hb) Hj Ho. unfold rd.
  rewrite Hb by (apply lookup_lt_Some in Hj; by rewrite profile_blocks_length in Hj).
  rewrite Hj. cbn [mjoin option_join mbind option_bind]. by rewrite decide_True.
Qed.

Lemma profile_at_field s bb M Kp im (o : Z) v :
  profile_at s (Ptr bb 0) M Kp im →
  0 ≤ o →
  struct_cells bb im !! Z.to_nat o = Some v →
  rd s (field (Ptr bb 0) o) = Some v.
Proof.
  intros Hat Ho <-. unfold field, ptr_add. rewrite <- (nb_0 bb) at 1.
  rewrite (profile_at_rd s bb M Kp im 0 (struct_cells bb im)); [|done|done|lia].
  do 2 f_equal.
Qed.

Lemma flt_at_lookup l k x : l !! Z.to_nat k = Some (Vflt x) → flt_at l k = x.
Proof. unfold flt_at. by intros ->. Qed.

Lemma status_eqb_eq a b : status_eqb a b = true ↔ a = b.
Proof. destruct a, b; split; (done || discriminate). Qed.

Lemma Validate_run esl_FCompare s gm M Kp im tol :
  profile_at s gm M Kp im →
  i_M im = Vint M →
  floats_from (i_begin im) 1 (M + 1) →
  floats_from (i_end im) 1 (M + 1) →
  floats_from (i_xt im) 0 8 →
  p7_profile_Validate esl_FCompare gm tol s
  = Some (Normal
            (if status_eqb (esl_FCompare (begin_sum M im) float_one tol) eslOK
                && forallb (λ k, SFeqb (flt_at (i_end im) k) float_one) (seqZ 1 M)
                && forallb (λ i, status_eqb
                                   (esl_FCompare
                                      (float_add (flt_at (i_xt im) (2 * i + p7_MOVE))
                                                 (flt_at (i_xt im) (2 * i + p7_LOOP)))
                                      float_one tol) eslOK) (seqZ 0 4)
             then eslOK else eslFAIL), s).
Proof.
  intros Hat HM Hbegin Hend Hxt.
  pose proof Hat as (bb & -> & _).
  assert (∀ o v, 0 ≤ o → struct_cells bb im !! Z.to_nat o = Some v →
                 rd s (field (Ptr bb 0) o) = Some v) as Hfield
    by (intros; by eapply profile_at_field).
  assert (∀ k, 1 ≤ k < M + 1 →
            rd_flt s (Ptr (nb bb 6) (0 + k)) = Some (flt_at (i_begin im) k)) as Hb.
  { intros k Hk. destruct (Hbegin k Hk) as [x Hx]. unfold rd_flt.
    rewrite (profile_at_rd s bb M Kp im 6 (i_begin im)); [|done|done|lia].
    rewrite Z.add_0_l, Hx. cbn. by rewrite (flt_at_lookup _ _ _ Hx). }
  assert (∀ k, 1 ≤ k < M + 1 →
            rd_flt s (Ptr (nb bb 7) (0 + k)) = Some (flt_at (i_end im) k)) as He.
  { intros k Hk. destruct (Hend k Hk) as [x Hx]. unfold rd_flt.
    rewrite (profile_at_rd s bb M Kp im 7 (i_end im)); [|done|done|lia].
    rewrite Z.add_0_l, Hx. cbn. by rewrite (flt_at_lookup _ _ _ Hx). }
  assert (∀ i j, 0 ≤ i < 4 → 0 ≤ j < 2 →
            rd_flt s (xt_cell (Ptr bb 0) i j) = Some (flt_at (i_xt im) (2 * i + j))) as Hx.
  { intros i j Hi Hj. destruct (Hxt (2 * i + j) ltac:(lia)) as [x Hx].
    unfold rd_flt, xt_cell. fold (field (Ptr bb 0) (P7_PROFILE.xt + 2 * i + j)).
    unfold P7_PROFILE.xt.
    assert (i = 0 ∨ i = 1 ∨ i = 2 ∨ i = 3) as Hi' by lia.
    assert (j = 0 ∨ j = 1) as Hj' by lia.
    destruct Hi' as [->|[->|[->| ->]]], Hj' as [->| ->];
      (erewrite Hfield; [|done|reflexivity]);
      unfold cell, flt_at;
      match type of Hx with context [Z.to_nat ?e] =>
        let n := eval vm_compute in (Z.to_nat e) in
        change (Z.to_nat e) with n in Hx |- * end;
      by rewrite Hx. }
  assert (∀ x n, seqZ x (Z.of_nat (Z.to_nat n)) = seqZ x n) as Hseq
    by (intros; unfold seqZ; by rewrite Nat2Z.id).
  unfold p7_profile_Validate, returning, for_loop_acc, for_loop, return_.
  fold (begin_sum M im).
  set (c1 := status_eqb (esl_FCompare (begin_sum M im) float_one tol) eslOK).
  set (P2 := λ k, SFeqb (flt_at (i_end im) k) float_one).
  set (P3 := λ i, status_eqb _ eslOK).
  unfold catch.
  erewrite run_bind; [|apply load_int_run, Hfield; [done|rewrite <- HM; reflexivity]].
  erewrite run_bind;
    [|apply (for_acc_run _ _ _ _
               (λ sum k, float_add sum (float_mul (flt_at (i_begin im) k)
                                                  (float_of_int (M - k + 1)))));
      intros k a Hk;
      (erewrite run_bind; [|apply load_ptr_run, Hfield; [done|reflexivity]]);
      (erewrite run_bind; [|unfold load_flt, lift; cbn [ptr_add]; rewrite Hb by lia; reflexivity]);
      reflexivity].
  rewrite Hseq. replace (M + 1 - 1) with M by lia. fold (begin_sum M im). fold c1.
  destruct c1; cbn [negb when andb]; [|reflexivity].
  erewrite run_bind; [|reflexivity].
  match goal with |- context [for_range ?n ?x ?b] =>
    pose proof (for_range_check n x b P2 s) as Hloop end.
  rewrite Hseq in Hloop. replace (M + 1 - 1) with M in Hloop by lia.
  unfold bind at 1. rewrite Hloop; clear Hloop;
    [|intros k Hk;
      (erewrite run_bind; [|apply load_ptr_run, Hfield; [done|reflexivity]]);
      (erewrite run_bind; [|unfold load_flt, lift; cbn [ptr_add]; rewrite He by lia; reflexivity]);
      unfold P2; by destruct (SFeqb _ _)].
  destruct (forallb P2 (seqZ 1 M)); cbn [andb]; [|reflexivity].
  match goal with |- context [for_range ?n ?x ?b] =>
    pose proof (for_range_check n x b P3 s) as Hloop end.
  change (Z.of_nat (Z.to_nat (4 - 0))) with 4 in Hloop.
  cbv beta iota. unfold bind at 1. rewrite Hloop; clear Hloop;
    [|intros k Hk;
      (erewrite run_bind;
         [|unfold load_flt, lift; rewrite Hx by (unfold p7_MOVE; lia); reflexivity]);
      (erewrite run_bind;
         [|unfold load_flt, lift; rewrite Hx by (unfold p7_LOOP; lia); reflexivity]);
      unfold P3; by destruct (status_eqb _ _)].
  by destruct (forallb P3 (seqZ 0 4)).
Qed.

(** C2: on a profile whose probability cells hold floats,
    [p7_profile_Validate] returns [eslOK] if and only if the three
    invariants hold together - the weighted sum of [begin] is 1.0 within
    [tol], every [end[k]] is exactly 1.0, and each of the four rows of [xt]
    sums to 1.0 within [tol] - and the bare [eslFAIL] otherwise; the state
    is the one it started from. *)
Theorem Validate_iff_invariants esl_FCompare s gm M Kp im tol :
  profile_at s gm M Kp im →
  i_M im = Vint M →
  floats_from (i_begin im) 1 (M + 1) →
  floats_from (i_end im) 1 (M + 1) →
  floats_from (i_xt im) 0 8 →
  ∃ c, p7_profile_Validate esl_FCompare gm tol s = Some (Normal c, s)
       ∧ (c = eslOK ↔ local_entry_normalized esl_FCompare M im tol
                       ∧ local_exit_unconditional M im
                       ∧ special_rows_normalized esl_FCompare im tol)
       ∧ (c ≠ eslOK → c = eslFAIL).
Proof.
  intros Hat HM Hbegin Hend Hxt.
  rewrite (Validate_run esl_FCompare s gm M Kp im tol) by done.
  eexists. split; [reflexivity|].
  unfold local_entry_normalized, local_exit_unconditional, special_rows_normalized.
  set (b1 := status_eqb _ _).
  set (b2 := forallb _ (seqZ 1 M)).
  set (b3 := forallb _ (seqZ 0 4)).
  assert (b1 = true ↔ esl_FCompare (begin_sum M im) float_one tol = eslOK) as H1
    by apply status_eqb_eq.
  assert (b2 = true ↔ ∀ k, 1 ≤ k ≤ M → SFeqb (flt_at (i_end im) k) float_one = true) as H2.
  { unfold b2. rewrite forallb_seqZ. split; intros H k Hk; apply H; lia. }
  assert (b3 = true ↔
          ∀ i, 0 ≤ i < 4 →
            esl_FCompare (float_add (flt_at (i_xt im) (2 * i + p7_MOVE))
                                    (flt_at (i_xt im) (2 * i + p7_LOOP)))
                         float_one tol = eslOK) as H3.
  { unfold b3. rewrite forallb_seqZ. split; intros H k Hk.
    - apply status_eqb_eq, H. lia.
    - apply status_eqb_eq, H. lia. }
  rewrite <- H1, <- H2, <- H3.
  destruct b1, b2, b3; cbn [andb]; split; try done; intuition discriminate.
Qed.

(** *** The access methods only read the profile *)

Lemma GetT_returns s gm st1 k1 st2 k2 ret_tsc :
  is_Some (rd s ret_tsc) →
  (∀ r, transition_ref st1 k1 st2 k2 = Some r → is_Some (score_at s gm r)) →
  (legal_transition st1 st2 = false → st1 ≠ p7_STS → st1 ≠ p7_STT →
   handler_installed s) →
  ∃ c v s', p7_profile_GetT gm st1 k1 st2 k2 ret_tsc s = Some (Normal c, s')
            ∧ wr s ret_tsc v = Some s'.
Proof.
  intros Hret Hcell Hh.
  destruct (legal_transition st1 st2) eqn:Hlegal.
  - apply (legal_transition_ref st1 k1 st2 k2) in Hlegal as [r Hr].
    destruct (Hcell r Hr) as [v Hv].
    destruct (wr_is_Some s ret_tsc v Hret) as [s' Hw].
    exists eslOK, v, s'. split; [by eapply GetT_run_stored|done].
  - destruct (wr_is_Some s ret_tsc (Vint 0) Hret) as [s' Hw].
    destruct (decide (st1 = p7_STS ∨ st1 = p7_STT)) as [Hst|Hst].
    + exists eslOK, (Vint 0), s'. split; [|done].
      unfold p7_profile_GetT. eapply GetT_run_ok; [|exact Hw].
      by destruct Hst as [-> | ->].
    + exists eslEINVAL, (Vint 0), s'. split; [|done].
      assert (st1 ≠ p7_STS ∧ st1 ≠ p7_STT) as [HS HT] by tauto.
      rewrite GetT_reaches_XEXCEPTION by done.
      eapply GetT_run_err; [|exact Hw]. apply XEXCEPTION_run. by apply Hh.
Qed.

Lemma wr_profile_at s gm M Kp im p v s' :
  profile_at s gm M Kp im →
  outside_profile gm p →
  wr s p v = Some s' →
  profile_at s' gm M Kp im.
Proof.
  intros (bb & -> & Hb) Hout Hw. exists bb. split; [done|]. intros j Hj.
  rewrite <- Hb by done.
  destruct p as [|b o]; [done|]. cbn in Hout, Hw.
  destruct (mem s !! b) as [l|]; [|done]. cbn in Hw.
  case_decide; [|done]. injection Hw as <-. cbn [mem with_mem].
  apply lookup_insert_ne. unfold nb. lia.
Qed.

Lemma wr_other s p v s' b o :
  wr s p v = Some s' → Ptr b o ≠ p → rd s' (Ptr b o) = rd s (Ptr b o).
Proof.
  intros Hw Hne. destruct p as [|b' o']; [done|].
  cbn in Hw |- *. destruct (mem s !! b') as [l|] eqn:Hl; [|done]. cbn in Hw.
  case_decide as Ho'; [|done]. injection Hw as <-. cbn [mem with_mem].
  destruct (decide (b = b')) as [->|Hb].
  - rewrite lookup_insert_eq, Hl. cbn. case_decide; [|done].
    apply list_lookup_insert_ne. intros Heq. apply Hne. f_equal. lia.
  - by rewrite lookup_insert_ne.
Qed.

(** C9: the two access methods leave the profile as it is.  A query the
    function answers - a pair of the grammar, a pair whose source is S or T,
    or any other pair once an exception handler is installed -
    [p7_profile_GetT] returns from, and its one write goes to [*ret_tsc]:
    when that cell is no cell of the profile, the profile holds the same
    image afterwards.  Whatever the query, legal or not, and whatever the
    handler, a call that returns at all has left the profile and every cell
    but [*ret_tsc] as they were.  [p7_profile_Validate] returns in the very
    state it was called in. *)
Theorem accessors_leave_profile_unchanged esl_FCompare s gm M Kp im :
  profile_at s gm M Kp im →
  (∀ st1 k1 st2 k2 ret_tsc,
     is_Some (rd s ret_tsc) →
     outside_profile gm ret_tsc →
     (∀ r, transition_ref st1 k1 st2 k2 = Some r → is_Some (score_at s gm r)) →
     (legal_transition st1 st2 = false → st1 ≠ p7_STS → st1 ≠ p7_STT →
      handler_installed s) →
     ∃ c s', p7_profile_GetT gm st1 k1 st2 k2 ret_tsc s = Some (Normal c, s')
             ∧ profile_at s' gm M Kp im
             ∧ ∀ b o, Ptr b o ≠ ret_tsc → rd s' (Ptr b o) = rd s (Ptr b o))
  ∧ (∀ st1 k1 st2 k2 ret_tsc r s',
       outside_profile gm ret_tsc →
       p7_profile_GetT gm st1 k1 st2 k2 ret_tsc s = Some (r, s') →
       profile_at s' gm M Kp im
       ∧ ∀ b o, Ptr b o ≠ ret_tsc → rd s' (Ptr b o) = rd s (Ptr b o))
  ∧ (∀ tol,
       i_M im = Vint M →
       floats_from (i_begin im) 1 (M + 1) →
       floats_from (i_end im) 1 (M + 1) →
       floats_from (i_xt im) 0 8 →
       ∃ c, p7_profile_Validate esl_FCompare gm tol s = Some (Normal c, s)).
Proof.
  intros Hat. split; [|split].
  - intros st1 k1 st2 k2 ret_tsc Hret Hout Hcell Hh.
    destruct (GetT_returns s gm st1 k1 st2 k2 ret_tsc Hret Hcell Hh)
      as (c & v & s' & Hrun & Hw).
    exists c, s'. split; [done|]. split; [by eapply wr_profile_at|].
    intros b o Hne. by eapply wr_other.
  - intros st1 k1 st2 k2 ret_tsc r s' Hout Hrun.
    apply GetT_effect in Hrun as (c & v & -> & Hw).
    split; [by eapply wr_profile_at|].
    intros b o Hne. by eapply wr_other.
  - intros tol HM Hbegin Hend Hxt.
    eexists. by apply (Validate_run esl_FCompare s gm M Kp im tol).
Qed.

(** *** The rows of the reference DP matrix *)

Lemma main_blocks_length M :
  0 ≤ M →
  length (mjoin ((λ k, MainCell k <$> node_block) <$> seqZ 0 (M + 1)))
  = (Z.to_nat (M + 1) * 6)%nat.
Proof.
  intros HM. rewrite length_join, <- list_fmap_compose.
  rewrite (sum_list_fmap_same 6) by (by apply Forall_forall).
  by rewrite length_seqZ.
Qed.

Lemma row_layout_length M :
  0 ≤ M → length (row_layout M) = Z.to_nat ((M + 1) * p7R_NSCELLS + p7R_NXCELLS).
Proof.
  intros HM. unfold row_layout. rewrite length_app, main_blocks_length by done.
  unfold p7R_NSCELLS, p7R_NXCELLS. cbn [length fmap list_fmap special_block]. lia.
Qed.

Lemma row_layout_main M k s :
  0 ≤ k ≤ M → 0 ≤ s < p7R_NSCELLS →
  row_layout M !! Z.to_nat (k * p7R_NSCELLS + s) = Some (MainCell k s).
Proof.
  unfold p7R_NSCELLS. intros Hk Hs. unfold row_layout.
  rewrite lookup_app_l by (rewrite main_blocks_length; lia).
  replace (Z.to_nat (k * 6 + s)) with (Z.to_nat k * 6 + Z.to_nat s)%nat by lia.
  apply (join_lookup_Some_same_length' 6); [by apply Forall_fmap, Forall_forall|lia|].
  exists (MainCell k <$> node_block). split.
  - rewrite list_lookup_fmap, lookup_seqZ_lt by lia.
    by replace (0 + Z.of_nat (Z.to_nat k)) with k by lia.
  - assert (s = 0 ∨ s = 1 ∨ s = 2 ∨ s = 3 ∨ s = 4 ∨ s = 5) as Hs' by lia.
    by destruct Hs' as [->|[->|[->|[->|[->| ->]]]]].
Qed.

Lemma row_layout_special M s :
  0 ≤ M → 0 ≤ s < p7R_NXCELLS →
  row_layout M !! Z.to_nat ((M + 1) * p7R_NSCELLS + s) = Some (SpecialCell s).
Proof.
  unfold p7R_NSCELLS, p7R_NXCELLS. intros HM Hs. unfold row_layout.
  rewrite lookup_app_r by (rewrite main_blocks_length; lia).
  rewrite main_blocks_length by done.
  replace (Z.to_nat ((M + 1) * 6 + s) - Z.to_nat (M + 1) * 6)%nat
    with (Z.to_nat s) by lia.
  assert (s = 0 ∨ s = 1 ∨ s = 2 ∨ s = 3 ∨ s = 4 ∨ s = 5 ∨ s = 6 ∨ s = 7 ∨ s = 8)
    as Hs' by lia.
  by destruct Hs' as [->|[->|[->|[->|[->|[->|[->|[->| ->]]]]]]]].
Qed.

(** C7: a row of the matrix is [M + 1] blocks of the six main cells
    ML, MG, IL, IG, DL, DG, for the nodes 0 to M in turn, and then one block
    of the nine special cells E, N, J, B, L, G, C, JJ, CC.  [P7R_MX] names
    the cell at offset [k * 6 + s] of row [i], [P7R_XMX] the cell at
    offset [(M + 1) * 6 + s], and these are the places of main cell [(k, s)]
    and of special cell [s] in that layout. *)
Theorem refmx_row_layout st rmx dp row i M :
  0 ≤ M →
  rd st (field rmx P7_REFMX.M) = Some (Vint M) →
  rd st (field rmx P7_REFMX.dp) = Some (Vptr dp) →
  rd st (dp +ₚ i) = Some (Vptr row) →
  row_layout M
  = mjoin ((λ k, [MainCell k p7R_ML; MainCell k p7R_MG; MainCell k p7R_IL;
                  MainCell k p7R_IG; MainCell k p7R_DL; MainCell k p7R_DG])
             <$> seqZ 0 (M + 1))
    ++ [SpecialCell p7R_E; SpecialCell p7R_N; SpecialCell p7R_J;
        SpecialCell p7R_B; SpecialCell p7R_L; SpecialCell p7R_G;
        SpecialCell p7R_C; SpecialCell p7R_JJ; SpecialCell p7R_CC]
  ∧ length (row_layout M) = Z.to_nat ((M + 1) * 6 + 9)
  ∧ (∀ k s, 0 ≤ k ≤ M → 0 ≤ s < p7R_NSCELLS →
       P7R_MX rmx i k s st = Some (Normal (row +ₚ (k * 6 + s)), st)
       ∧ row_layout M !! Z.to_nat (k * 6 + s) = Some (MainCell k s))
  ∧ (∀ s, 0 ≤ s < p7R_NXCELLS →
       P7R_XMX rmx i s st = Some (Normal (row +ₚ ((M + 1) * 6 + s)), st)
       ∧ row_layout M !! Z.to_nat ((M + 1) * 6 + s) = Some (SpecialCell s)).
Proof.
  intros HM HrM Hdp Hrow. split; [reflexivity|].
  split; [by apply row_layout_length|]. split.
  - intros k s Hk Hs. split; [|by apply row_layout_main].
    unfold P7R_MX.
    erewrite run_bind; [|by apply load_ptr_run].
    erewrite run_bind; [|by apply load_ptr_run].
    reflexivity.
  - intros s Hs. split; [|by apply row_layout_special].
    unfold P7R_XMX.
    erewrite run_bind; [|by apply load_ptr_run].
    erewrite run_bind; [|by apply load_ptr_run].
    erewrite run_bind; [|by apply load_int_run].
    reflexivity.
Qed.

(** *** Destruction *)

(** The eleven blocks of a profile, freed. *)
Lemma Destroy_frame m0 bb post f snt inb M Kp im :
  1 ≤ Kp →
  p7_profile_Destroy (Ptr (nb bb 0) 0)
    (frame m0 bb (profile_blocks bb M Kp im ++ post) f snt inb)
  = Some (Normal tt, frame m0 bb (replicate 11 None ++ post) f snt inb).
Proof.
  intros HKp.
  unfold p7_profile_Destroy, free_rows, free_field, profile_blocks, struct_cells.
  unfold P7_PROFILE.tsc, P7_PROFILE.msc, P7_PROFILE.isc,
    P7_PROFILE.bsc, P7_PROFILE.esc, P7_PROFILE.begin, P7_PROFILE.end_.
  cbn [app is_NULL negb when].
  step. etransitivity; [eapply free_frame; reflexivity|]. reflexivity.
Qed.

(** [p7_profile_Destroy] frees the eleven blocks of the profile, and
    nothing else changes. *)
Theorem Destroy_frees_profile s gm M Kp im :
  fresh s →
  profile_at s gm M Kp im →
  1 ≤ Kp →
  ∃ s', p7_profile_Destroy gm s = Some (Normal tt, s')
        ∧ (∀ b, profile_block gm b → mem s' !! b = None)
        ∧ (∀ b, ¬ profile_block gm b → mem s' !! b = mem s !! b)
        ∧ brk s' = brk s ∧ heap_ok s' = heap_ok s
        ∧ sent s' = sent s ∧ inbox s' = inbox s.
Proof.
  intros Hfresh Hat HKp. pose proof Hat as (bb & -> & _).
  destruct (profile_at_frame s bb M Kp im Hfresh Hat) as [post Hs].
  pose proof (Destroy_frame (mem s) bb post (heap_ok s) (sent s) (inbox s)
                M Kp im HKp) as Hrun.
  rewrite <- Hs, nb_0 in Hrun. rewrite Hrun. eexists. split; [reflexivity|].
  cbn [mem brk heap_ok sent inbox frame profile_block].
  split; [|split; [|split; [|done]]].
  - intros b Hb. rewrite heap_of_lookup.
    rewrite decide_True by (rewrite length_app, length_replicate; lia).
    rewrite lookup_app_l by (rewrite length_replicate; lia).
    by rewrite lookup_replicate_2 by lia.
  - intros b Hb. pose proof (f_equal (λ x, mem x !! b) Hs) as Hm.
    cbn [mem frame] in Hm. rewrite Hm.
    rewrite !heap_of_lookup, !length_app, length_replicate, profile_blocks_length.
    case_decide as Hin; [|done].
    by rewrite !lookup_app_r, length_replicate, profile_blocks_length
      by (rewrite ?length_replicate, ?profile_blocks_length; lia).
  - pose proof (f_equal brk Hs) as Hb. cbn [brk frame] in Hb. rewrite Hb.
    by rewrite !length_app, length_replicate, profile_blocks_length.
Qed.

(** A second [p7_profile_Destroy] of the same profile reads freed memory:
    it has no defined outcome. *)
Theorem Destroy_twice_undefined s gm M Kp im :
  fresh s →
  profile_at s gm M Kp im →
  1 ≤ Kp →
  (p7_profile_Destroy gm;; p7_profile_Destroy gm) s = None.
Proof.
  intros Hfresh Hat HKp. pose proof Hat as (bb & -> & _).
  destruct (profile_at_frame s bb M Kp im Hfresh Hat) as [post Hs].
  pose proof (Destroy_frame (mem s) bb post (heap_ok s) (sent s) (inbox s)
                M Kp im HKp) as Hrun.
  rewrite <- Hs, nb_0 in Hrun.
  erewrite run_bind; [|exact Hrun].
  unfold p7_profile_Destroy, free_rows. cbn [is_NULL negb when].
  apply run_bind_none, run_bind_none, run_bind_none.
  unfold load_ptr, lift, rd_ptr, rd, field, ptr_add. cbn [mem frame].
  rewrite heap_of_lookup, decide_True
    by (rewrite length_app, length_replicate; lia).
  by rewrite Z.sub_diag.
Qed.

(** *** A freshly created profile *)

Lemma Create_run s M K Kp abc :
  2 ≤ M → 1 ≤ Kp → 0 ≤ K < Kp →
  fresh s →
  rd s (field abc ESL_ALPHABET.K) = Some (Vint K) →
  rd s (field abc ESL_ALPHABET.Kp) = Some (Vint Kp) →
  fates_ok 11 (heap_ok s) →
  p7_profile_Create M abc s
  = Some (Normal (Ptr (brk s) 0),
          frame (mem s) (brk s)
                (profile_blocks (brk s) M Kp (created_image M K Kp abc))
                (Nat.iter 11 tail (heap_ok s)) (sent s) (inbox s)).
Proof.
  intros HM HKp HK Hfresh HrK HrKp Hf.
  destruct s as [m0 b0 f snt inb]. cbn [mem brk heap_ok sent inbox] in *.
  pose proof (Create_frame m0 b0 f snt inb M K Kp abc HM HKp HK Hfresh HrK HrKp Hf)
    as Hrun.
  rewrite nb_0 in Hrun. rewrite <- Hrun. f_equal.
  apply (state_as_frame (State m0 b0 f snt inb)).
Qed.

Lemma created_profile_at m0 b0 f snt inb M Kp im :
  profile_at (frame m0 b0 (profile_blocks b0 M Kp im) f snt inb) (Ptr b0 0) M Kp im.
Proof.
  pose proof (frame_profile_at m0 b0 [] b0 M Kp im [] f snt inb) as H.
  rewrite app_nil_r in H. apply H. by rewrite nb_0.
Qed.

Lemma fresh_frame_of s bl f snt inb :
  fresh s → fresh (frame (mem s) (brk s) bl f snt inb).
Proof.
  intros Hfresh b Hb. cbn [frame mem brk] in *. unfold nb in Hb.
  rewrite heap_of_lookup, decide_False by lia. apply Hfresh. lia.
Qed.

(** What [p7_profile_Create] returns for a model of two nodes or more: a
    profile in eleven new blocks, its scalar fields set ([mode] to
    [p7_NO_MODE], [M], [abc], [hmm] and [bg] to [NULL], [do_lcorrect] and
    [h2_mode] to [FALSE], [lscore] to 0), at the cost of eleven
    allocations; no cell the caller could read before has changed. *)
Theorem Create_fresh_profile s M K Kp abc :
  2 ≤ M → 1 ≤ Kp → 0 ≤ K < Kp →
  fresh s →
  rd s (field abc ESL_ALPHABET.K) = Some (Vint K) →
  rd s (field abc ESL_ALPHABET.Kp) = Some (Vint Kp) →
  fates_ok 11 (heap_ok s) →
  ∃ gm s',
    p7_profile_Create M abc s = Some (Normal gm, s')
    ∧ gm = Ptr (brk s) 0
    ∧ rd s' (field gm P7_PROFILE.mode) = Some (Vint p7_NO_MODE)
    ∧ rd s' (field gm P7_PROFILE.M) = Some (Vint M)
    ∧ rd s' (field gm P7_PROFILE.abc) = Some (Vptr abc)
    ∧ rd s' (field gm P7_PROFILE.hmm) = Some (Vptr NULL)
    ∧ rd s' (field gm P7_PROFILE.bg) = Some (Vptr NULL)
    ∧ rd s' (field gm P7_PROFILE.do_lcorrect) = Some (Vint 0)
    ∧ rd s' (field gm P7_PROFILE.lscore) = Some (Vflt float_zero)
    ∧ rd s' (field gm P7_PROFILE.h2_mode) = Some (Vint 0)
    ∧ (∀ b o, b < brk s → rd s' (Ptr b o) = rd s (Ptr b o))
    ∧ (∀ b, profile_block gm b → mem s !! b = None ∧ is_Some (mem s' !! b))
    ∧ brk s' = brk s + 11
    ∧ heap_ok s' = Nat.iter 11 tail (heap_ok s)
    ∧ sent s' = sent s ∧ inbox s' = inbox s
    ∧ fresh s'.
Proof.
  intros HM HKp HK Hfresh HrK HrKp Hf.
  rewrite (Create_run s M K Kp abc) by done.
  eexists _, _. split; [reflexivity|]. split; [reflexivity|].
  set (im := created_image M K Kp abc).
  pose proof (created_profile_at (mem s) (brk s) (Nat.iter 11 tail (heap_ok s))
                (sent s) (inbox s) M Kp im) as Hat.
  repeat match goal with
         | |- rd _ (field _ _) = _ ∧ _ =>
             split; [by eapply profile_at_field; [exact Hat|done|reflexivity]|]
         end.
  split; [|split; [|split; [|split; [|split; [|split]]]]].
  - intros b o Hb. by eapply rd_frame_old.
  - intros b Hb. cbn [profile_block] in Hb. split; [apply Hfresh; lia|].
    destruct Hat as (bb & [= <-] & Hblocks).
    replace b with (nb (brk s) (Z.to_nat (b - brk s))) by (unfold nb; lia).
    rewrite Hblocks by lia.
    assert (Z.to_nat (b - brk s) < 11)%nat as Hj by lia.
    revert Hj. generalize (Z.to_nat (b - brk s)). intros j Hj.
    do 11 (destruct j as [|j]; [by eexists|]). lia.
  - cbn [brk frame]. unfold nb. rewrite profile_blocks_length. lia.
  - reflexivity.
  - reflexivity.
  - reflexivity.
  - by apply fresh_frame_of.
Qed.

(** Every index the profile documents is an allocated cell of a fresh
    profile: [k = 0..M] of [bsc], [esc], [begin] and [end]; rows
    [x = 0..6] and nodes [k = 0..M-1] of [tsc]; rows [x = 0..Kp-1] of [msc]
    (nodes [0..M]) and of [isc] (nodes [0..M-1]).  Row [x] of a table starts
    [x] row lengths into the buffer that row 0 points to. *)
Theorem Create_cells_in_bounds s M K Kp abc :
  2 ≤ M → 1 ≤ Kp → 0 ≤ K < Kp →
  fresh s →
  rd s (field abc ESL_ALPHABET.K) = Some (Vint K) →
  rd s (field abc ESL_ALPHABET.Kp) = Some (Vint Kp) →
  fates_ok 11 (heap_ok s) →
  ∃ gm s' t m i tsc0 msc0 isc0,
    p7_profile_Create M abc s = Some (Normal gm, s')
    ∧ rd s' (field gm P7_PROFILE.tsc) = Some (Vptr t)
    ∧ rd s' (field gm P7_PROFILE.msc) = Some (Vptr m)
    ∧ rd s' (field gm P7_PROFILE.isc) = Some (Vptr i)
    ∧ (∀ x, 0 ≤ x < 7 → rd s' (t +ₚ x) = Some (Vptr (tsc0 +ₚ x * M)))
    ∧ (∀ x, 0 ≤ x < Kp → rd s' (m +ₚ x) = Some (Vptr (msc0 +ₚ x * (M + 1))))
    ∧ (∀ x, 0 ≤ x < Kp → rd s' (i +ₚ x) = Some (Vptr (isc0 +ₚ x * M)))
    ∧ (∀ x k, 0 ≤ x < 7 → 0 ≤ k < M →
         is_Some (tbl_at s' gm P7_PROFILE.tsc x k))
    ∧ (∀ x k, 0 ≤ x < Kp → 0 ≤ k ≤ M →
         is_Some (tbl_at s' gm P7_PROFILE.msc x k))
    ∧ (∀ x k, 0 ≤ x < Kp → 0 ≤ k < M →
         is_Some (tbl_at s' gm P7_PROFILE.isc x k))
    ∧ (∀ k, 0 ≤ k ≤ M →
         is_Some (vec_at s' gm P7_PROFILE.bsc k)
         ∧ is_Some (vec_at s' gm P7_PROFILE.esc k)
         ∧ is_Some (vec_at s' gm P7_PROFILE.begin k)
         ∧ is_Some (vec_at s' gm P7_PROFILE.end_ k)).
Proof.
  intros HM HKp HK Hfresh HrK HrKp Hf.
  rewrite (Create_run s M K Kp abc) by done.
  set (bb := brk s). set (im := created_image M K Kp abc).
  pose proof (created_profile_at (mem s) bb (Nat.iter 11 tail (heap_ok s))
                (sent s) (inbox s) M Kp im) as Hat.
  set (s' := frame _ _ _ _ _ _) in *.
  exists (Ptr bb 0), s', (Ptr (nb bb 1) 0), (Ptr (nb bb 2) 0), (Ptr (nb bb 3) 0),
    (Ptr (nb bb 8) 0), (Ptr (nb bb 9) 0), (Ptr (nb bb 10) 0).
  assert (∀ (j : nat) ob o, profile_blocks bb M Kp im !! j = Some (Some ob) →
            0 ≤ o → rd s' (Ptr (nb bb j) o) = ob !! Z.to_nat o) as Hrd
    by (intros; by eapply profile_at_rd).
  assert (∀ o v, 0 ≤ o → struct_cells bb im !! Z.to_nat o = Some v →
            rd s' (field (Ptr bb 0) o) = Some v) as Hfield
    by (intros; by eapply profile_at_field).
  split; [reflexivity|].
  split; [by apply Hfield|]. split; [by apply Hfield|]. split; [by apply Hfield|].
  assert (∀ x, 0 ≤ x < 7 →
            rd s' (Ptr (nb bb 1) 0 +ₚ x) = Some (Vptr (Ptr (nb bb 8) 0 +ₚ x * M))) as Ht.
  { intros x Hx. cbn [ptr_add]. rewrite (Hrd 1%nat _ _ eq_refl) by lia.
    rewrite !Z.add_0_l. by apply row_table_lookup. }
  assert (∀ x, 0 ≤ x < Kp →
            rd s' (Ptr (nb bb 2) 0 +ₚ x)
            = Some (Vptr (Ptr (nb bb 9) 0 +ₚ x * (M + 1)))) as Hm.
  { intros x Hx. cbn [ptr_add]. rewrite (Hrd 2%nat _ _ eq_refl) by lia.
    rewrite !Z.add_0_l. by apply row_table_lookup. }
  assert (∀ x, 0 ≤ x < Kp →
            rd s' (Ptr (nb bb 3) 0 +ₚ x) = Some (Vptr (Ptr (nb bb 10) 0 +ₚ x * M))) as Hi.
  { intros x Hx. cbn [ptr_add]. rewrite (Hrd 3%nat _ _ eq_refl) by lia.
    rewrite !Z.add_0_l. by apply row_table_lookup. }
  split; [exact Ht|]. split; [exact Hm|]. split; [exact Hi|].
  split; [|split; [|split]].
  - intros x k Hx Hk. unfold tbl_at.
    erewrite rd_ptr_val by (by apply Hfield). cbn [mbind option_bind].
    erewrite rd_ptr_val by (by apply Ht). cbn [mbind option_bind ptr_add].
    rewrite (Hrd 8%nat _ _ eq_refl) by nia.
    apply lookup_lt_is_Some. cbn [i_tsc im created_image].
    rewrite created_tsc_length. nia.
  - intros x k Hx Hk. unfold tbl_at.
    erewrite rd_ptr_val by (by apply Hfield). cbn [mbind option_bind].
    erewrite rd_ptr_val by (by apply Hm). cbn [mbind option_bind ptr_add].
    rewrite (Hrd 9%nat _ _ eq_refl) by nia.
    apply lookup_lt_is_Some. cbn [i_msc im created_image].
    rewrite created_emissions_length. nia.
  - intros x k Hx Hk. unfold tbl_at.
    erewrite rd_ptr_val by (by apply Hfield). cbn [mbind option_bind].
    erewrite rd_ptr_val by (by apply Hi). cbn [mbind option_bind ptr_add].
    rewrite (Hrd 10%nat _ _ eq_refl) by nia.
    apply lookup_lt_is_Some. cbn [i_isc im created_image].
    rewrite created_emissions_length. nia.
  - intros k Hk. unfold vec_at.
    repeat split;
      (erewrite rd_ptr_val by (by apply Hfield); cbn [mbind option_bind ptr_add]).
    + rewrite (Hrd 4%nat _ _ eq_refl) by lia.
      apply lookup_lt_is_Some. cbn [i_bsc im created_image].
      rewrite length_replicate. lia.
    + rewrite (Hrd 5%nat _ _ eq_refl) by lia.
      apply lookup_lt_is_Some. cbn [i_esc im created_image].
      rewrite length_replicate. lia.
    + rewrite (Hrd 6%nat _ _ eq_refl) by lia.
      apply lookup_lt_is_Some. cbn [i_begin im created_image].
      rewrite length_replicate. lia.
    + rewrite (Hrd 7%nat _ _ eq_refl) by lia.
      apply lookup_lt_is_Some. cbn [i_end im created_image].
      rewrite length_replicate. lia.
Qed.

(** A profile created and destroyed again leaves no block behind: the
    memory is the one before [p7_profile_Create]. *)
Theorem Create_Destroy_no_leak s M K Kp abc :
  2 ≤ M → 1 ≤ Kp → 0 ≤ K < Kp →
  fresh s →
  rd s (field abc ESL_ALPHABET.K) = Some (Vint K) →
  rd s (field abc ESL_ALPHABET.Kp) = Some (Vint Kp) →
  fates_ok 11 (heap_ok s) →
  ∃ gm s1 s2,
    p7_profile_Create M abc s = Some (Normal gm, s1)
    ∧ gm ≠ NULL
    ∧ mem s1 ≠ mem s
    ∧ p7_profile_Destroy gm s1 = Some (Normal tt, s2)
    ∧ mem s2 = mem s.
Proof.
  intros HM HKp HK Hfresh HrK HrKp Hf.
  rewrite (Create_run s M K Kp abc) by done.
  eexists _, _, _. split; [reflexivity|]. split; [done|].
  pose proof (Destroy_frame (mem s) (brk s) [] (Nat.iter 11 tail (heap_ok s))
                (sent s) (inbox s) M Kp (created_image M K Kp abc) HKp) as Hrun.
  rewrite nb_0, !app_nil_r in Hrun.
  split; [|split; [exact Hrun|]].
  - intros Heq. pose proof (f_equal (λ m, m !! brk s) Heq) as Hb.
    cbn [mem frame] in Hb. rewrite (Hfresh (brk s)) in Hb by lia.
    rewrite heap_of_lookup, decide_True in Hb by (rewrite profile_blocks_length; lia).
    by rewrite Z.sub_diag in Hb.
  - cbn [mem frame]. apply heap_of_all_freed; [exact Hfresh|].
    repeat constructor.
Qed.

Lemma transition_ref_tsc st1 k1 st2 k2 x k :
  transition_ref st1 k1 st2 k2 = Some (Tsc x k) → 0 ≤ x < 7 ∧ k = k1.
Proof.
  unfold transition_ref. intros Hr.
  destruct (assoc2 st1 st2 transition_table) as [f|] eqn:Hf; [|done].
  cbn in Hr. injection Hr as Hr.
  apply assoc2_elem_of in Hf. unfold transition_table in Hf.
  repeat (apply elem_of_cons in Hf as [Hf|Hf];
          [injection Hf as -> -> ->; try discriminate Hr;
           injection Hr as <- <-;
           unfold p7_TMM, p7_TMI, p7_TMD, p7_TIM, p7_TII, p7_TDM, p7_TDD; lia|]).
  by apply elem_of_nil in Hf.
Qed.

(** The impossible transitions of a fresh profile, seen through the
    accessor: a query for one of the seven transitions scored in [tsc]
    (M -> M, M -> I, M -> D, I -> M, I -> I, D -> M, D -> D) out of node 0,
    or for the delete transitions D1 -> M and D1 -> D, is answered with
    [eslOK] and [p7_IMPOSSIBLE].  The exit M0 -> E is scored in [esc], which
    [p7_profile_Create] leaves uninitialised, and is not among them. *)
Theorem Create_GetT_impossible s M K Kp abc st1 k1 st2 k2 x ret_tsc :
  2 ≤ M → 1 ≤ Kp → 0 ≤ K < Kp →
  fresh s →
  rd s (field abc ESL_ALPHABET.K) = Some (Vint K) →
  rd s (field abc ESL_ALPHABET.Kp) = Some (Vint Kp) →
  fates_ok 11 (heap_ok s) →
  is_Some (rd s ret_tsc) →
  transition_ref st1 k1 st2 k2 = Some (Tsc x k1) →
  k1 = 0 ∨ (k1 = 1 ∧ st1 = p7_STD) →
  ∃ gm s1 s2,
    p7_profile_Create M abc s = Some (Normal gm, s1)
    ∧ p7_profile_GetT gm st1 k1 st2 k2 ret_tsc s1 = Some (Normal eslOK, s2)
    ∧ rd s2 ret_tsc = Some (Vint p7_IMPOSSIBLE).
Proof.
  intros HM HKp HK Hfresh HrK HrKp Hf Hret Hr Hk.
  rewrite (Create_run s M K Kp abc) by done.
  set (im := created_image M K Kp abc).
  destruct (transition_ref_tsc _ _ _ _ _ _ Hr) as [Hx _].
  destruct (wr_is_Some s ret_tsc (Vint p7_IMPOSSIBLE) Hret) as [s0' Hw].
  destruct ret_tsc as [|b o]; [done|].
  pose proof (fresh_old_wr _ _ _ _ _ Hfresh Hw) as Hb.
  destruct s as [m0 b0 f snt inb]. cbn [mem brk heap_ok sent inbox] in *.
  eexists _, _, _. split; [reflexivity|].
  assert (wr (frame m0 b0 (profile_blocks b0 M Kp im) (Nat.iter 11 tail f) snt inb)
             (Ptr b o) (Vint p7_IMPOSSIBLE)
          = Some (frame (mem s0') b0 (profile_blocks b0 M Kp im)
                        (Nat.iter 11 tail f) snt inb)) as Hw'
    by (by eapply wr_frame_old).
  split; [|by eapply rd_wr_same].
  eapply GetT_run_stored; [exact Hr| |exact Hw'].
  change (tbl_at (frame m0 b0 (profile_blocks b0 M Kp im) (Nat.iter 11 tail f) snt inb)
                 (Ptr b0 0) P7_PROFILE.tsc x k1 = Some (Vint p7_IMPOSSIBLE)).
  assert (b0 = nb b0 (length (@nil (option (list val))))) as Hbb
    by (by rewrite nb_0).
  pose proof (profile_tsc_at m0 b0 (Nat.iter 11 tail f) snt inb M Kp im [] b0 Hbb) as Ht.
  cbn [app] in Ht.
  destruct Hk as [-> | [-> ->]].
  - rewrite Ht by lia. by apply created_tsc_node0; [lia|].
  - rewrite Ht by lia. apply created_tsc_wing; [done|].
    revert Hr. unfold transition_ref, transition_table. cbn.
    case_eqb st2; intros [= <-]; auto.
Qed.

(** *** Receiving when memory runs out *)

Lemma MPI_Recv_NULL count dt src tg s : MPI_Recv NULL count dt src tg s = None.
Proof.
  unfold MPI_Recv.
  destruct (take_message src tg (inbox s)) as [[m rest]|]; cbn; [|done].
  by destruct (_ && _).
Qed.

Lemma with_local_frame_none {A} m0 b0 bl f snt inb init (body : ptr → prog A) :
  body (Ptr (nb b0 (length bl)) 0) (frame m0 b0 (bl ++ [Some [init]]) f snt inb)
  = None →
  with_local init body (frame m0 b0 bl f snt inb) = None.
Proof.
  intros Hbody. unfold with_local. cbn [brk mem heap_ok sent inbox frame].
  rewrite heap_of_snoc.
  replace (nb b0 (length bl) + 1) with (nb b0 (length (bl ++ [Some [init]])))
    by (rewrite length_app; unfold nb; simpl; lia).
  change (State (heap_of m0 b0 (bl ++ [Some [init]]))
                (nb b0 (length (bl ++ [Some [init]]))) f snt inb)
    with (frame m0 b0 (bl ++ [Some [init]]) f snt inb).
  by rewrite Hbody.
Qed.

(** [p7_profile_MPIRecv] does not test what [p7_profile_Create] returns.
    When an allocation fails while the worker builds the profile it is
    being sent, no status comes back.  Under Easel's default exception
    handler the process is aborted inside [p7_profile_Create].  With an
    application handler that returns, [p7_profile_Create] returns [NULL],
    and the next [MPI_Recv] is handed [&(gm->mode)] of a [NULL] profile:
    the call has no defined outcome. *)
Theorem Recv_allocation_failure_undefined receiver abc bg ret_gm M Kp rest :
  fresh receiver →
  inbox receiver = Msg 0 0 MPI_INT [Vint M] :: rest →
  1 ≤ M → 1 ≤ Kp →
  rd receiver (field abc ESL_ALPHABET.Kp) = Some (Vint Kp) →
  (∃ i, (i < 11)%nat ∧ heap_ok receiver !! i = Some false) →
  handler_installed receiver ∨ handler_default receiver →
  p7_profile_MPIRecv abc bg ret_gm receiver = None.
Proof.
  intros Hfresh Hin HM HKp HrKp Hfail Hh.
  pose proof (handler_old _ Hfresh Hh) as Hb.
  destruct receiver as [m0 b0 f snt inb]. cbn [inbox heap_ok brk] in *. subst inb.
  destruct abc as [|a oa]; [done|].
  pose proof (fresh_old _ _ _ _ Hfresh HrKp) as Ha. cbn [brk] in Ha.
  rewrite (state_as_frame (State m0 b0 f snt _)). cbn [mem brk heap_ok sent inbox].
  unfold p7_profile_MPIRecv. apply with_local_frame_none. cbn [app length].
  recv_cell. step.
  assert ((M =? -1) = false) as -> by lia.
  rewrite (frame_shift m0 b0 [Some [Vint M]] []).
  set (s1 := State (heap_of m0 b0 [Some [Vint M]]) (nb b0 (length [Some [Vint M]]))
                   f snt rest).
  assert (fresh s1) as Hfresh1 by (by apply fresh_shift).
  assert (rd s1 (field (Ptr a oa) ESL_ALPHABET.Kp) = Some (Vint Kp)) as HrKp1.
  { unfold field, ptr_add in *. unfold s1. by erewrite rd_shift. }
  change (frame _ _ [] f snt rest) with (frame (mem s1) (brk s1) [] (heap_ok s1) (sent s1) (inbox s1)).
  rewrite <- (state_as_frame s1).
  destruct Hh as [Hh|Hh].
  - assert (handler_installed s1) as Hh1.
    { destruct Hh as (h & Hne & Hrd). exists h. split; [done|].
      unfold s1, esl_exception_handler.
      by rewrite (rd_shift _ _ _ _ _ _ f snt [] (-1) 0 Hb). }
    destruct (Create_fail_run s1 M Kp (Ptr a oa)) as (s' & Hs' & _); try done.
    erewrite run_bind; [|exact Hs'].
    apply run_bind_none. cbn [field ptr_add]. apply MPI_Recv_NULL.
  - assert (handler_default s1) as Hh1.
    { unfold handler_default, s1, esl_exception_handler.
      by rewrite (rd_shift _ _ _ _ _ _ f snt [] (-1) 0 Hb). }
    apply run_bind_none. by eapply Create_fail_abort.
Qed.

(** *** A profile of one node *)

(** C5 fails for a profile of one node.  [p7_profile_MPISend] posts its
    twenty messages as for any other profile.  [p7_profile_MPIRecv] takes
    the model size from the first and calls [p7_profile_Create] for it,
    which writes [tsc[p7_TDD][1]] past the end of a buffer of seven cells
    (C3): no profile is reconstructed and no status comes back, the
    receiving call has no defined outcome. *)
Theorem MPI_one_node_not_received
    sender gm Kp im abc1 dest receiver abc2 bg K2 ret_gm rest :
  fresh sender →
  profile_at sender gm 1 Kp im →
  wf_image 1 Kp im →
  i_abc im = Vptr abc1 →
  rd sender (field abc1 ESL_ALPHABET.Kp) = Some (Vint Kp) →
  1 ≤ Kp →
  fresh receiver →
  rd receiver (field abc2 ESL_ALPHABET.K) = Some (Vint K2) → 0 ≤ K2 < Kp →
  rd receiver (field abc2 ESL_ALPHABET.Kp) = Some (Vint Kp) →
  fates_ok 11 (heap_ok receiver) →
  inbox receiver = deliver 0 dest (wire_format dest im) ++ rest →
  (∃ sender',
      p7_profile_MPISend gm dest sender = Some (Normal eslOK, sender')
      ∧ sent sender' = sent sender ++ wire_format dest im
      ∧ mem sender' = mem sender)
  ∧ p7_profile_MPIRecv abc2 bg ret_gm receiver = None.
Proof.
  intros Hfs Hat Hwf Habc HKp1 HKp Hfr HrK HK HrKp Hf Hin. split.
  - pose proof Hat as (bb & -> & _).
    destruct (profile_at_frame sender bb 1 Kp im Hfs Hat) as [post Hs].
    pose proof (Send_frame (mem sender) bb post (heap_ok sender) (sent sender)
                  (inbox sender) 1 Kp im abc1 dest Hwf Habc) as Hsend.
    rewrite <- Hs, nb_0 in Hsend. rewrite Hsend by (done || lia).
    eexists. split; [reflexivity|]. split; [reflexivity|].
    cbn [mem frame]. by rewrite Hs at 2.
  - destruct receiver as [m0 b0 f snt inb]. cbn [inbox heap_ok] in *. subst inb.
    rewrite deliver_wire_format. unfold wire_format.
    destruct Hwf as (-> & _).
    destruct abc2 as [|a oa]; [done|].
    pose proof (fresh_old _ _ _ _ Hfr HrKp) as Ha. cbn [brk] in Ha.
    rewrite (state_as_frame (State m0 b0 f snt _)). cbn [mem brk heap_ok sent inbox].
    unfold p7_profile_MPIRecv. apply with_local_frame_none. cbn [app length].
    recv_cell. step.
    change (1 =? -1) with false. cbv iota.
    rewrite (frame_shift m0 b0 [Some [Vint 1]] []).
    set (s1 := State (heap_of m0 b0 [Some [Vint 1]]) (nb b0 (length [Some [Vint 1]]))
                     f snt (tail (wire_format 0 im) ++ rest)).
    change (frame _ _ [] f snt _)
      with (frame (mem s1) (brk s1) [] (heap_ok s1) (sent s1) (inbox s1)).
    rewrite <- (state_as_frame s1).
    apply run_bind_none.
    apply (Create_one_node_run s1 K2 Kp); [done|done| | | |done].
    + by apply fresh_shift.
    + unfold field, ptr_add in *. unfold s1. by erewrite rd_shift.
    + unfold field, ptr_add in *. unfold s1. by erewrite rd_shift.
Qed.

(** *** The master and the worker *)

Lemma fresh_wr s p v s' : fresh s → wr s p v = Some s' → fresh s'.
Proof.
  intros Hfresh Hw b Hb. destruct p as [|b' o]; [done|].
  pose proof (fresh_old_wr _ _ _ _ _ Hfresh Hw) as Hb'.
  cbn in Hw. destruct (mem s !! b') as [l|]; [|done]. cbn in Hw.
  case_decide; [|done]. injection Hw as <-. cbn [mem brk with_mem] in *.
  rewrite lookup_insert_ne by lia. by apply Hfresh.
Qed.

Lemma wr_brk s p v s' : wr s p v = Some s' → brk s' = brk s.
Proof.
  destruct p as [|b o]; [done|]. cbn.
  destruct (mem s !! b) as [l|]; [|done]. cbn.
  case_decide; [|done]. by intros [= <-].
Qed.

Lemma Send_profile_run s gm M Kp im abc dest :
  fresh s →
  profile_at s gm M Kp im →
  wf_image M Kp im →
  i_abc im = Vptr abc →
  rd s (field abc ESL_ALPHABET.Kp) = Some (Vint Kp) →
  0 ≤ M → 1 ≤ Kp →
  p7_profile_MPISend gm dest s
  = Some (Normal eslOK,
          State (mem s) (brk s) (heap_ok s) (sent s ++ wire_format dest im) (inbox s)).
Proof.
  intros Hfs Hat Hwf Habc HKp1 HM HKp.
  pose proof Hat as (bb & -> & _).
  destruct (profile_at_frame s bb M Kp im Hfs Hat) as [post Hs].
  pose proof (Send_frame (mem s) bb post (heap_ok s) (sent s)
                (inbox s) M Kp im abc dest Hwf Habc) as Hsend.
  rewrite <- Hs, nb_0 in Hsend. rewrite Hsend by done.
  do 2 f_equal. unfold frame.
  pose proof (f_equal mem Hs) as Hm. pose proof (f_equal brk Hs) as Hb.
  cbn [mem brk frame] in Hm, Hb. by rewrite <- Hm, <- Hb.
Qed.

Lemma Send_NULL_run s dest :
  fresh s →
  p7_profile_MPISend NULL dest s
  = Some (Normal eslOK,
          State (mem s) (brk s + 1) (heap_ok s) (sent s ++ [eod_message dest]) (inbox s)).
Proof.
  intros Hf. destruct s as [m1 b1 f1 snt1 inb1].
  rewrite (state_as_frame (State m1 b1 f1 snt1 inb1)) at 1.
  cbn [mem brk heap_ok sent inbox].
  unfold p7_profile_MPISend. cbn [is_NULL].
  etransitivity.
  { eapply with_local_frame.
    - cbn [app length].
      etransitivity;
        [apply run_bind; eapply MPI_Send_frame;
         [reflexivity | lit_to_nat | lit_to_nat | lia | lia | cbn [length]; lia]|].
      reflexivity.
    - cbn [length]. lia. }
  cbn [length insert list_insert]. unfold frame. cbn [length heap_of].
  do 2 f_equal. f_equal.
  apply delete_id, Hf. cbn [brk]. lia.
Qed.

Lemma Recv_eod_run s abc bg ret_gm rest :
  fresh s →
  inbox s = eod_message 0 :: rest →
  p7_profile_MPIRecv abc bg ret_gm s
  = Some (Normal eslEOD, State (mem s) (brk s + 1) (heap_ok s) (sent s) rest).
Proof.
  intros Hf Hin. destruct s as [m2 b2 f2 snt2 inb2].
  cbn [inbox] in Hin. subst inb2. unfold eod_message.
  rewrite (state_as_frame (State m2 b2 f2 snt2 _)) at 1.
  cbn [mem brk heap_ok sent inbox].
  unfold p7_profile_MPIRecv.
  etransitivity.
  { eapply with_local_frame.
    - cbn [app length].
      etransitivity;
        [apply run_bind; eapply MPI_Recv_frame;
         [reflexivity | lit_to_nat | lia | cbn [length]; lia | cbn [length]; lia]|].
      cbn [insert list_insert splice firstn skipn app length Nat.add].
      step. reflexivity.
    - cbn [length]. lia. }
  cbn [length insert list_insert]. unfold frame. cbn [length heap_of].
  do 2 f_equal. f_equal.
  apply delete_id, Hf. cbn [brk]. lia.
Qed.

Lemma Recv_profile_run receiver M K Kp im abc bg ret_gm rest :
  2 ≤ M → 1 ≤ Kp → 0 ≤ K < Kp →
  wf_image M Kp im →
  fresh receiver →
  rd receiver (field abc ESL_ALPHABET.K) = Some (Vint K) →
  rd receiver (field abc ESL_ALPHABET.Kp) = Some (Vint Kp) →
  fates_ok 11 (heap_ok receiver) →
  is_Some (rd receiver ret_gm) →
  inbox receiver = wire_format 0 im ++ rest →
  ∃ receiver' gm',
    p7_profile_MPIRecv abc bg ret_gm receiver = Some (Normal eslOK, receiver')
    ∧ rd receiver' ret_gm = Some (Vptr gm')
    ∧ profile_at receiver' gm' M Kp (received_image im abc bg)
    ∧ inbox receiver' = rest
    ∧ sent receiver' = sent receiver
    ∧ fresh receiver'
    ∧ (∀ b o, b < brk receiver → Ptr b o ≠ ret_gm →
         rd receiver' (Ptr b o) = rd receiver (Ptr b o)).
Proof.
  intros HM HKp HK Hwf Hfr HrK HrKp Hf Hret Hin.
  destruct receiver as [m0 b0 f snt inb]. cbn [inbox heap_ok brk sent] in *. subst inb.
  destruct (wr_is_Some _ ret_gm (Vptr (Ptr (nb b0 1) 0)) Hret) as [s0' Hwr].
  rewrite (state_as_frame (State m0 b0 f snt _)). cbn [mem brk heap_ok sent inbox].
  erewrite Recv_frame; [|done..].
  eexists _, (Ptr (nb b0 1) 0). split; [reflexivity|].
  destruct ret_gm as [|r ro]; [done|].
  pose proof (fresh_old_wr _ _ _ _ _ Hfr Hwr) as Hr. cbn [brk] in Hr.
  pose proof (fresh_wr _ _ _ _ Hfr Hwr) as Hfr'.
  pose proof (wr_brk _ _ _ _ Hwr) as Hbrk. cbn [brk] in Hbrk.
  split; [|split; [|split; [|split; [|split]]]].
  - erewrite rd_frame_old; [by eapply rd_wr_same|done|done].
  - apply (frame_profile_at (mem s0') b0 [None] (nb b0 1) M Kp _ []). done.
  - reflexivity.
  - reflexivity.
  - rewrite <- Hbrk. by apply fresh_frame_of.
  - intros b o Hb Hne. rewrite (rd_frame_old _ _ _ _ _ _ _ _ s0') by done.
    exact (wr_other _ _ _ _ _ _ Hwr Hne).
Qed.

Lemma deliver_app from to out1 out2 :
  deliver from to (out1 ++ out2) = deliver from to out1 ++ deliver from to out2.
Proof. unfold deliver. by rewrite filter_app, fmap_app. Qed.

Lemma deliver_eod from to : deliver from to [eod_message to] = [eod_message from].
Proof. unfold deliver. by rewrite filter_cons_True by done. Qed.

(** The master sends a profile of two nodes or more and then the
    end-of-data signal; the worker calls [p7_profile_MPIRecv] twice.  The
    first call returns [eslOK] and the profile, the second [eslEOD], with
    the profile and the pointer to it left as the first call returned
    them. *)
Theorem MPI_profile_then_end_of_data
    sender gm M Kp im abc1 dest receiver abc2 bg K2 ret_gm rest :
  fresh sender →
  profile_at sender gm M Kp im →
  wf_image M Kp im →
  i_abc im = Vptr abc1 →
  rd sender (field abc1 ESL_ALPHABET.Kp) = Some (Vint Kp) →
  2 ≤ M → 1 ≤ Kp →
  fresh receiver →
  rd receiver (field abc2 ESL_ALPHABET.K) = Some (Vint K2) → 0 ≤ K2 < Kp →
  rd receiver (field abc2 ESL_ALPHABET.Kp) = Some (Vint Kp) →
  fates_ok 11 (heap_ok receiver) →
  is_Some (rd receiver ret_gm) →
  inbox receiver
  = deliver 0 dest (wire_format dest im ++ [eod_message dest]) ++ rest →
  ∃ m1 m2 w1 w2 gm',
    p7_profile_MPISend gm dest sender = Some (Normal eslOK, m1)
    ∧ p7_profile_MPISend NULL dest m1 = Some (Normal eslOK, m2)
    ∧ sent m2 = sent sender ++ wire_format dest im ++ [eod_message dest]
    ∧ mem m2 = mem sender
    ∧ p7_profile_MPIRecv abc2 bg ret_gm receiver = Some (Normal eslOK, w1)
    ∧ p7_profile_MPIRecv abc2 bg ret_gm w1 = Some (Normal eslEOD, w2)
    ∧ rd w2 ret_gm = Some (Vptr gm')
    ∧ profile_at w2 gm' M Kp (received_image im abc2 bg)
    ∧ inbox w2 = rest.
Proof.
  intros Hfs Hat Hwf Habc HKp1 HM HKp Hfr HrK HK HrKp Hf Hret Hin.
  rewrite deliver_app, deliver_wire_format, deliver_eod, <- app_assoc in Hin.
  destruct (Recv_profile_run receiver M K2 Kp im abc2 bg ret_gm
              ([eod_message 0] ++ rest))
    as (w1 & gm' & Hrecv & Hgm & Hprof & Hin1 & _ & Hfw1 & _); [done..|].
  eexists _, _, w1, _, gm'.
  split; [apply (Send_profile_run sender gm M Kp im abc1 dest); done || lia|].
  split; [apply Send_NULL_run; intros b Hb; by apply Hfs|].
  split; [cbn [sent]; by rewrite <- app_assoc|].
  split; [reflexivity|].
  split; [exact Hrecv|].
  split; [by apply Recv_eod_run|].
  split; [exact Hgm|]. split; [|reflexivity].
  destruct Hprof as (bb & -> & Hb). by exists bb.
Qed.

(** A worker that passes on the profile it received posts the messages the
    master posted: the wire format carries nothing of the alphabet, the
    model or the background the profile points to. *)
Theorem Recv_then_Send_same_messages
    receiver M K Kp im abc bg ret_gm rest dest :
  2 ≤ M → 1 ≤ Kp → 0 ≤ K < Kp →
  wf_image M Kp im →
  fresh receiver →
  rd receiver (field abc ESL_ALPHABET.K) = Some (Vint K) →
  rd receiver (field abc ESL_ALPHABET.Kp) = Some (Vint Kp) →
  fates_ok 11 (heap_ok receiver) →
  is_Some (rd receiver ret_gm) →
  ret_gm ≠ field abc ESL_ALPHABET.Kp →
  inbox receiver = wire_format 0 im ++ rest →
  ∃ w1 gm' w2,
    p7_profile_MPIRecv abc bg ret_gm receiver = Some (Normal eslOK, w1)
    ∧ rd w1 ret_gm = Some (Vptr gm')
    ∧ p7_profile_MPISend gm' dest w1 = Some (Normal eslOK, w2)
    ∧ sent w2 = sent receiver ++ wire_format dest im
    ∧ mem w2 = mem w1.
Proof.
  intros HM HKp HK Hwf Hfr HrK HrKp Hf Hret Hne Hin.
  destruct (Recv_profile_run receiver M K Kp im abc bg ret_gm rest)
    as (w1 & gm' & Hrecv & Hgm & Hprof & Hin1 & Hsent & Hfw1 & Hold); [done..|].
  exists w1, gm'. eexists. split; [exact Hrecv|]. split; [exact Hgm|].
  split.
  - eapply (Send_profile_run w1 gm' M Kp (received_image im abc bg) abc dest);
      [done|done| |reflexivity| |lia|done].
    + destruct Hwf as (? & ? & ? & ? & ? & ? & ? & ? & ? & ?). by repeat split.
    + destruct abc as [|a oa]; [done|].
      pose proof (fresh_old _ _ _ _ Hfr HrKp) as Ha.
      unfold field, ptr_add in *. by rewrite Hold.
  - cbn [sent mem]. by rewrite Hsent.
Qed.

(** *** Cells of the reference matrix never alias *)

Lemma P7R_MX_run st rmx dp row i k s :
  rd st (field rmx P7_REFMX.dp) = Some (Vptr dp) →
  rd st (dp +ₚ i) = Some (Vptr row) →
  P7R_MX rmx i k s st = Some (Normal (row +ₚ (k * p7R_NSCELLS + s)), st).
Proof.
  intros Hdp Hrow. unfold P7R_MX.
  erewrite run_bind; [|by apply load_ptr_run].
  erewrite run_bind; [|by apply load_ptr_run].
  reflexivity.
Qed.

Lemma P7R_XMX_run st rmx dp row i M s :
  rd st (field rmx P7_REFMX.M) = Some (Vint M) →
  rd st (field rmx P7_REFMX.dp) = Some (Vptr dp) →
  rd st (dp +ₚ i) = Some (Vptr row) →
  P7R_XMX rmx i s st = Some (Normal (row +ₚ ((M + 1) * p7R_NSCELLS + s)), st).
Proof.
  intros HM Hdp Hrow. unfold P7R_XMX.
  erewrite run_bind; [|by apply load_ptr_run].
  erewrite run_bind; [|by apply load_ptr_run].
  erewrite run_bind; [|by apply load_int_run].
  reflexivity.
Qed.

Lemma row_offsets_distinct W i i' a a' :
  0 ≤ a < W → 0 ≤ a' < W → i * W + a = i' * W + a' → i = i' ∧ a = a'.
Proof.
  intros Ha Ha' Heq.
  destruct (decide (i = i')) as [->|Hne]; [lia|]. exfalso.
  assert (i + 1 ≤ i' ∨ i' + 1 ≤ i) as [H|H] by lia.
  - assert ((i + 1) * W ≤ i' * W) by (apply Z.mul_le_mono_nonneg_r; lia). lia.
  - assert ((i' + 1) * W ≤ i * W) by (apply Z.mul_le_mono_nonneg_r; lia). lia.
Qed.

(** When the rows are laid out as the notes of the header say - row [r] at
    [dp_mem + r * allocW], each wide enough for its [M + 1] node blocks and
    its special block - the access macros name a different cell for every
    different (row, node, state): two main cells, two special cells, or a
    main and a special cell never share an address, and each lies inside
    the [allocW] cells of its row. *)
Theorem refmx_cells_distinct st rmx dp bm om W R M :
  0 ≤ M →
  (M + 1) * p7R_NSCELLS + p7R_NXCELLS ≤ W →
  rd st (field rmx P7_REFMX.M) = Some (Vint M) →
  rd st (field rmx P7_REFMX.dp) = Some (Vptr dp) →
  rd st (field rmx P7_REFMX.dp_mem) = Some (Vptr (Ptr bm om)) →
  rd st (field rmx P7_REFMX.allocW) = Some (Vint W) →
  (∀ r, 0 ≤ r < R → rd st (dp +ₚ r) = Some (Vptr (Ptr bm om +ₚ r * W))) →
  ∀ i i', 0 ≤ i < R → 0 ≤ i' < R →
    (∀ k s k' s' p,
       0 ≤ k ≤ M → 0 ≤ k' ≤ M → 0 ≤ s < p7R_NSCELLS → 0 ≤ s' < p7R_NSCELLS →
       P7R_MX rmx i k s st = Some (Normal p, st) →
       P7R_MX rmx i' k' s' st = Some (Normal p, st) →
       i = i' ∧ k = k' ∧ s = s')
    ∧ (∀ s s' p,
       0 ≤ s < p7R_NXCELLS → 0 ≤ s' < p7R_NXCELLS →
       P7R_XMX rmx i s st = Some (Normal p, st) →
       P7R_XMX rmx i' s' st = Some (Normal p, st) →
       i = i' ∧ s = s')
    ∧ (∀ k s s' p,
       0 ≤ k ≤ M → 0 ≤ s < p7R_NSCELLS → 0 ≤ s' < p7R_NXCELLS →
       P7R_MX rmx i k s st = Some (Normal p, st) →
       P7R_XMX rmx i' s' st ≠ Some (Normal p, st))
    ∧ (∀ k s, 0 ≤ k ≤ M → 0 ≤ s < p7R_NSCELLS →
       ∃ n, P7R_MX rmx i k s st = Some (Normal (Ptr bm (om + n)), st)
            ∧ i * W ≤ n < (i + 1) * W)
    ∧ (∀ s, 0 ≤ s < p7R_NXCELLS →
       ∃ n, P7R_XMX rmx i s st = Some (Normal (Ptr bm (om + n)), st)
            ∧ i * W ≤ n < (i + 1) * W).
Proof.
  unfold p7R_NSCELLS, p7R_NXCELLS.
  intros HM HW HrM Hdp _ _ Hrows i i' Hi Hi'.
  assert (∀ r k s, 0 ≤ r < R →
            P7R_MX rmx r k s st
            = Some (Normal (Ptr bm (om + r * W + (k * 6 + s))), st)) as Hmx.
  { intros r k s Hr.
    by rewrite (P7R_MX_run st rmx dp (Ptr bm om +ₚ r * W)) by (done || by apply Hrows). }
  assert (∀ r s, 0 ≤ r < R →
            P7R_XMX rmx r s st
            = Some (Normal (Ptr bm (om + r * W + ((M + 1) * 6 + s))), st)) as Hxmx.
  { intros r s Hr.
    by rewrite (P7R_XMX_run st rmx dp (Ptr bm om +ₚ r * W) r M)
      by (done || by apply Hrows). }
  split; [|split; [|split; [|split]]].
  - intros k s k' s' p Hk Hk' Hs Hs'. rewrite !Hmx by done.
    intros [= <-] [= Heq].
    destruct (row_offsets_distinct W i i' (k * 6 + s) (k' * 6 + s')); lia.
  - intros s s' p Hs Hs'. rewrite !Hxmx by done.
    intros [= <-] [= Heq].
    destruct (row_offsets_distinct W i i' ((M + 1) * 6 + s) ((M + 1) * 6 + s')); lia.
  - intros k s s' p Hk Hs Hs'. rewrite Hmx, Hxmx by done.
    intros [= <-] [= Heq].
    destruct (row_offsets_distinct W i i' (k * 6 + s) ((M + 1) * 6 + s')); lia.
  - intros k s Hk Hs. eexists. split.
    + rewrite Hmx by done. by rewrite <- Z.add_assoc.
    + nia.
  - intros s Hs. eexists. split.
    + rewrite Hxmx by done. by rewrite <- Z.add_assoc.
    + nia.
Qed.

(** *** What the access methods never do *)

Lemma reads_or_throws_ret {A} c (a : A) : reads_or_throws c (ret a).
Proof. intros s r s' [= <- <-]. eauto. Qed.

Lemma reads_or_throws_throw {A} c : reads_or_throws c (@throw A c).
Proof. intros s r s' [= <- <-]. eauto. Qed.

Lemma reads_or_throws_lift {A} c (f : state → option A) : reads_or_throws c (lift f).
Proof. intros s r s'. unfold lift. destruct (f s); intros [= <- <-]. eauto. Qed.

Lemma reads_or_throws_bind {A B} c (m : prog A) (k : A → prog B) :
  reads_or_throws c m → (∀ a, reads_or_throws c (k a)) → reads_or_throws c (bind m k).
Proof.
  intros Hm Hk s r s'. unfold bind.
  destruct (m s) as [[[a|c'] s1]|] eqn:E; [| |done].
  - apply Hm in E as [-> _]. apply Hk.
  - apply Hm in E as [-> [[a [=]]|[= ->]]]. intros [= <- <-]. eauto.
Qed.

Lemma reads_or_throws_if {A} c (b : bool) (m1 m2 : prog A) :
  reads_or_throws c m1 → reads_or_throws c m2 →
  reads_or_throws c (if b then m1 else m2).
Proof. by destruct b. Qed.

Lemma reads_or_throws_for_range c n x body :
  (∀ k, reads_or_throws c (body k)) → reads_or_throws c (for_range n x body).
Proof.
  intros Hbody. revert x. induction n as [|n IH]; intros x; cbn [for_range].
  - apply reads_or_throws_ret.
  - apply reads_or_throws_bind; [apply Hbody|]. intros _. apply IH.
Qed.

Lemma reads_or_throws_for_acc {A} c n x (a : A) body :
  (∀ k a, reads_or_throws c (body k a)) → reads_or_throws c (for_acc n x a body).
Proof.
  intros Hbody. revert x a. induction n as [|n IH]; intros x a; cbn [for_acc].
  - apply reads_or_throws_ret.
  - apply reads_or_throws_bind; [apply Hbody|]. intros a'. apply IH.
Qed.

Lemma reads_or_throws_XEXCEPTION {A} c : reads_or_throws c (@ESL_XEXCEPTION A c).
Proof.
  intros s r s'. unfold ESL_XEXCEPTION, esl_exception, bind, load_ptr, lift, abort.
  destruct (rd_ptr s esl_exception_handler) as [[|b o]|]; [done| |done].
  intros [= <- <-]. split; [done|by right].
Qed.

Create HintDb reads.
#[export] Hint Resolve reads_or_throws_ret reads_or_throws_throw reads_or_throws_lift
  reads_or_throws_XEXCEPTION reads_or_throws_if reads_or_throws_for_range reads_or_throws_for_acc : reads.
#[export] Hint Extern 2 (reads_or_throws _ (bind _ _)) =>
  apply reads_or_throws_bind; [|intro] : reads.
#[export] Hint Extern 2 (reads_or_throws _ (for_range _ _ _)) =>
  apply reads_or_throws_for_range; intro : reads.
#[export] Hint Extern 2 (reads_or_throws _ (for_acc _ _ _ _)) =>
  apply reads_or_throws_for_acc; intros ? ? : reads.

(** Whatever the profile pointer, the query and the memory: when
    [p7_profile_GetT] returns, it returns a status - [eslOK], or [eslEINVAL]
    with 0 left in [*ret_tsc] - and the state differs from the one it was
    called in by the write to [*ret_tsc] alone.  It allocates, frees, sends
    and receives nothing. *)
Theorem GetT_only_writes_ret_tsc gm st1 k1 st2 k2 ret_tsc s r s' :
  p7_profile_GetT gm st1 k1 st2 k2 ret_tsc s = Some (r, s') →
  ∃ v, wr s ret_tsc v = Some s'
       ∧ (r = Normal eslOK ∨ (r = Normal eslEINVAL ∧ v = Vint 0)).
Proof.
  unfold p7_profile_GetT.
  match goal with |- catch (bind ?inner _) _ _ = _ → _ =>
    assert (reads_or_throws eslEINVAL inner) as Hro
      by (unfold load_vec, load_tbl; unfold load, load_ptr;
          repeat apply reads_or_throws_if; auto 8 with reads);
    generalize dependent inner end.
  intros inner Hro. unfold catch, bind, store, ret.
  destruct (inner s) as [[[v|c] s1]|] eqn:E; [| |done].
  - apply Hro in E as [-> _].
    destruct (wr s ret_tsc v) as [s2|] eqn:Hw; [|done].
    intros [= <- <-]. eauto.
  - apply Hro in E as [-> [[a [=]]|[= ->]]].
    destruct (wr s ret_tsc (Vint 0)) as [s2|] eqn:Hw; [|done].
    intros [= <- <-]. eauto.
Qed.

(** The node index of a state that sits in no node is ignored:
    [p7_profile_GetT] looks at [k1] only when the source is M, D or I, and
    at [k2] only when the source is B. *)
Theorem GetT_node_index_ignored gm st1 k1 st2 k2 k1' k2' ret_tsc s :
  (st1 = p7_STM ∨ st1 = p7_STD ∨ st1 = p7_STI → k1' = k1) →
  (st1 = p7_STB → k2' = k2) →
  p7_profile_GetT gm st1 k1' st2 k2' ret_tsc s
  = p7_profile_GetT gm st1 k1 st2 k2 ret_tsc s.
Proof.
  intros Hk1 Hk2. unfold p7_profile_GetT.
  case_eqb st1; try reflexivity.
  - by rewrite Hk2.
  - by rewrite Hk1 by auto.
  - by rewrite Hk1 by auto.
  - by rewrite Hk1 by auto.
Qed.

Lemma bind_ends_OK {A} c (m : prog A) (k : A → prog status) :
  reads_or_throws c m →
  (∀ a s r s', k a s = Some (r, s') → s' = s ∧ (r = Normal eslOK ∨ r = Thrown c)) →
  ∀ s r s', bind m k s = Some (r, s') → s' = s ∧ (r = Normal eslOK ∨ r = Thrown c).
Proof.
  intros Hm Hk s r s'. unfold bind.
  destruct (m s) as [[[a|c'] s1]|] eqn:E; [| |done].
  - apply Hm in E as [-> _]. apply Hk.
  - apply Hm in E as [-> [[a [=]]|[= ->]]]. intros [= <- <-]. eauto.
Qed.

(** Whatever [gm] points to and whatever [esl_FCompare] answers: when
    [p7_profile_Validate] returns, the state is the one it was called in
    and the status is [eslOK] or [eslFAIL]. *)
Theorem Validate_only_reads esl_FCompare gm tol s r s' :
  p7_profile_Validate esl_FCompare gm tol s = Some (r, s') →
  s' = s ∧ (r = Normal eslOK ∨ r = Normal eslFAIL).
Proof.
  unfold p7_profile_Validate, returning, catch.
  match goal with |- match ?body s with _ => _ end = _ → _ =>
    assert (∀ s r s', body s = Some (r, s') →
                      s' = s ∧ (r = Normal eslOK ∨ r = Thrown eslFAIL)) as Hbody
  end.
  { unfold for_loop_acc, for_loop, return_, when, load_int, load_ptr, load_flt.
    apply bind_ends_OK; [auto with reads|]. intros M.
    apply bind_ends_OK; [auto 8 with reads|]. intros sum.
    apply bind_ends_OK; [auto with reads|]. intros _.
    apply bind_ends_OK; [auto 8 with reads|]. intros _.
    apply bind_ends_OK; [auto 8 with reads|]. intros _.
    intros s0 r0 s0' [= <- <-]. auto. }
  match goal with |- match ?body s with _ => _ end = _ → _ =>
    destruct (body s) as [[[a|c] s1]|] eqn:E; [| |done]
  end.
  - apply Hbody in E as [-> [[= ->]|[=]]]. intros [= <- <-]. auto.
  - apply Hbody in E as [-> [[=]|[= ->]]]. intros [= <- <-]. auto.
Qed.

(** *** Scores in terms of the contents of the profile *)

Lemma profile_at_rd_any s bb M Kp im (j : nat) ob o :
  profile_at s (Ptr bb 0) M Kp im →
  profile_blocks bb M Kp im !! j = Some (Some ob) →
  rd s (Ptr (nb bb j) o) = if decide (0 ≤ o) then ob !! Z.to_nat o else None.
Proof.
  intros (bb' & [= <-] & Hb) Hj. unfold rd.
  rewrite Hb by (apply lookup_lt_Some in Hj; by rewrite profile_blocks_length in Hj).
  by rewrite Hj.
Qed.

Lemma transition_ref_range st1 k1 st2 k2 r :
  transition_ref st1 k1 st2 k2 = Some r →
  match r with
  | Xsc i j => 0 ≤ i < 4 ∧ 0 ≤ j < 2
  | Tsc x k => 0 ≤ x < 7
  | _ => True
  end.
Proof.
  unfold transition_ref. intros Hr.
  destruct (assoc2 st1 st2 transition_table) as [f|] eqn:Hf; [|done].
  cbn in Hr. injection Hr as <-.
  apply assoc2_elem_of in Hf. unfold transition_table in Hf.
  repeat (apply elem_of_cons in Hf as [Hf|Hf];
          [injection Hf as -> -> ->;
           unfold p7_TMM, p7_TMI, p7_TMD, p7_TIM, p7_TII, p7_TDM, p7_TDD,
             p7_XTN, p7_XTE, p7_XTC, p7_XTJ, p7_MOVE, p7_LOOP; cbn; lia|]).
  by apply elem_of_nil in Hf.
Qed.

Lemma score_at_image s gm M Kp im st1 k1 st2 k2 r :
  profile_at s gm M Kp im →
  transition_ref st1 k1 st2 k2 = Some r →
  score_at s gm r = image_score M im r.
Proof.
  intros Hat Hr. pose proof Hat as (bb & -> & _).
  apply transition_ref_range in Hr.
  assert (∀ o v, 0 ≤ o → struct_cells bb im !! Z.to_nat o = Some v →
                 rd s (field (Ptr bb 0) o) = Some v) as Hfield
    by (intros; by eapply profile_at_field).
  destruct r as [i j|k|k|x k]; cbn [score_at image_score].
  - destruct Hr as [Hi Hj]. unfold xsc_cell.
    fold (field (Ptr bb 0) (P7_PROFILE.xsc + 2 * i + j)). unfold P7_PROFILE.xsc.
    assert (i = 0 ∨ i = 1 ∨ i = 2 ∨ i = 3) as Hi' by lia.
    assert (j = 0 ∨ j = 1) as Hj' by lia.
    destruct Hi' as [->|[->|[->| ->]]], Hj' as [->| ->];
      by (erewrite Hfield; [|done|reflexivity]).
  - erewrite rd_ptr_val by (by apply Hfield). cbn [mbind option_bind ptr_add].
    rewrite (profile_at_rd_any s bb M Kp im 4 (i_bsc im)) by done.
    by rewrite Z.add_0_l.
  - erewrite rd_ptr_val by (by apply Hfield). cbn [mbind option_bind ptr_add].
    rewrite (profile_at_rd_any s bb M Kp im 5 (i_esc im)) by done.
    by rewrite Z.add_0_l.
  - erewrite rd_ptr_val by (by apply Hfield). cbn [mbind option_bind ptr_add].
    erewrite rd_ptr_val;
      [|rewrite (profile_at_rd_any s bb M Kp im 1 (row_table (nb bb 8) M 7)) by done;
        rewrite decide_True, Z.add_0_l by lia; by apply row_table_lookup].
    cbn [mbind option_bind ptr_add].
    by rewrite (profile_at_rd_any s bb M Kp im 8 (i_tsc im)) by done.
Qed.

(** A query for a pair of the grammar runs as its stored score reads. *)
Lemma GetT_by_score s gm st1 k1 st2 k2 ret_tsc r :
  transition_ref st1 k1 st2 k2 = Some r →
  p7_profile_GetT gm st1 k1 st2 k2 ret_tsc s
  = match score_at s gm r with
    | Some v => match wr s ret_tsc v with
                | Some s' => Some (Normal eslOK, s')
                | None => None
                end
    | None => None
    end.
Proof.
  intros Hr. unfold transition_ref in Hr.
  destruct (assoc2 st1 st2 transition_table) as [f|] eqn:Hf; [|done].
  cbn in Hr. injection Hr as <-.
  apply assoc2_elem_of in Hf. unfold transition_table in Hf.
  repeat (apply elem_of_cons in Hf as [Hf|Hf];
          [injection Hf as -> -> ->; unfold p7_profile_GetT; cbn;
           unfold catch, load_vec, load_tbl, bind, load, load_ptr, lift, store, ret;
           cbn [score_at mbind option_bind];
           repeat (match goal with
                   | |- context [match rd_ptr ?s0 ?p with _ => _ end] =>
                       destruct (rd_ptr s0 p)
                   | |- context [match rd ?s0 ?p with _ => _ end] =>
                       destruct (rd s0 p)
                   | |- context [match wr ?s0 ?p ?v with _ => _ end] =>
                       destruct (wr s0 p v)
                   end; cbn [mbind option_bind]);
           reflexivity|]).
  by apply elem_of_nil in Hf.
Qed.

(** [p7_profile_GetT] does not check a node index against [M].  For the
    pair B -> M an index outside [0..M] is a read outside [bsc], with no
    defined outcome; in a row of [tsc] node [M + k] is node [k] of the next
    row, so that the query M_(M+k) -> M is answered with the score of
    M_k -> I. *)
Theorem GetT_unchecked_node_index s gm M Kp im ret_tsc :
  profile_at s gm M Kp im →
  wf_image M Kp im →
  (∀ k1 k2, k2 < 0 ∨ M < k2 →
     p7_profile_GetT gm p7_STB k1 p7_STM k2 ret_tsc s = None)
  ∧ (∀ k k2 k2',
     p7_profile_GetT gm p7_STM (M + k) p7_STM k2 ret_tsc s
     = p7_profile_GetT gm p7_STM k p7_STI k2' ret_tsc s).
Proof.
  intros Hat Hwf. split.
  - intros k1 k2 Hk2.
    rewrite (GetT_by_score s gm p7_STB k1 p7_STM k2 ret_tsc (Bsc k2) eq_refl).
    rewrite (score_at_image s gm M Kp im p7_STB k1 p7_STM k2 (Bsc k2) Hat eq_refl).
    cbn [image_score]. case_decide; [|done].
    rewrite (proj2 (lookup_ge_None _ _)); [done|].
    destruct Hwf as (_ & _ & _ & -> & _). lia.
  - intros k k2 k2'.
    rewrite (GetT_by_score s gm p7_STM (M + k) p7_STM k2 ret_tsc _ eq_refl).
    rewrite (GetT_by_score s gm p7_STM k p7_STI k2' ret_tsc _ eq_refl).
    rewrite (score_at_image s gm M Kp im p7_STM (M + k) p7_STM k2 _ Hat eq_refl).
    rewrite (score_at_image s gm M Kp im p7_STM k p7_STI k2' _ Hat eq_refl).
    cbn [image_score]. unfold p7_TMM, p7_TMI.
    by replace (1 * M + k) with (0 * M + (M + k)) by lia.
Qed.

(** *** The received profile in use *)

Lemma image_score_received M im abc bg r :
  image_score M (received_image im abc bg) r = image_score M im r.
Proof. by destruct r. Qed.

(** The worker's lookups give the master's scores: a query that
    [p7_profile_GetT] answers with [v] on the profile that was sent is
    answered with [eslOK] and [v] on the profile [p7_profile_MPIRecv]
    returns. *)
Theorem Recv_GetT_same_score
    master gm M K Kp im receiver abc bg ret_gm rest st1 k1 st2 k2 r v ret_tsc :
  profile_at master gm M Kp im →
  transition_ref st1 k1 st2 k2 = Some r →
  score_at master gm r = Some v →
  2 ≤ M → 1 ≤ Kp → 0 ≤ K < Kp →
  wf_image M Kp im →
  fresh receiver →
  rd receiver (field abc ESL_ALPHABET.K) = Some (Vint K) →
  rd receiver (field abc ESL_ALPHABET.Kp) = Some (Vint Kp) →
  fates_ok 11 (heap_ok receiver) →
  is_Some (rd receiver ret_gm) →
  is_Some (rd receiver ret_tsc) → ret_tsc ≠ ret_gm →
  inbox receiver = wire_format 0 im ++ rest →
  ∃ w1 gm' w2,
    p7_profile_MPIRecv abc bg ret_gm receiver = Some (Normal eslOK, w1)
    ∧ rd w1 ret_gm = Some (Vptr gm')
    ∧ p7_profile_GetT gm' st1 k1 st2 k2 ret_tsc w1 = Some (Normal eslOK, w2)
    ∧ rd w2 ret_tsc = Some v.
Proof.
  intros Hat Hr Hv HM HKp HK Hwf Hfr HrK HrKp Hf Hret Htsc Hne Hin.
  destruct (Recv_profile_run receiver M K Kp im abc bg ret_gm rest)
    as (w1 & gm' & Hrecv & Hgm & Hprof & _ & _ & _ & Hold); [done..|].
  assert (is_Some (rd w1 ret_tsc)) as Htsc'.
  { destruct ret_tsc as [|b o]; [by destruct Htsc|].
    destruct Htsc as [x Hx]. pose proof (fresh_old _ _ _ _ Hfr Hx) as Hb.
    rewrite Hold by done. eauto. }
  destruct (wr_is_Some w1 ret_tsc v Htsc') as [w2 Hw].
  exists w1, gm', w2. split; [exact Hrecv|]. split; [exact Hgm|].
  split; [|by eapply rd_wr_same].
  eapply GetT_run_stored; [exact Hr| |exact Hw].
  rewrite (score_at_image w1 gm' M Kp _ st1 k1 st2 k2 r Hprof Hr).
  rewrite image_score_received.
  by rewrite <- (score_at_image master gm M Kp im st1 k1 st2 k2 r Hat Hr).
Qed.

(** The worker's validation gives the master's verdict:
    [p7_profile_Validate] returns the same status on the profile that was
    sent and on the profile [p7_profile_MPIRecv] returns. *)
Theorem Recv_Validate_same_status
    esl_FCompare tol master gm M K Kp im receiver abc bg ret_gm rest :
  profile_at master gm M Kp im →
  floats_from (i_begin im) 1 (M + 1) →
  floats_from (i_end im) 1 (M + 1) →
  floats_from (i_xt im) 0 8 →
  2 ≤ M → 1 ≤ Kp → 0 ≤ K < Kp →
  wf_image M Kp im →
  fresh receiver →
  rd receiver (field abc ESL_ALPHABET.K) = Some (Vint K) →
  rd receiver (field abc ESL_ALPHABET.Kp) = Some (Vint Kp) →
  fates_ok 11 (heap_ok receiver) →
  is_Some (rd receiver ret_gm) →
  inbox receiver = wire_format 0 im ++ rest →
  ∃ c w1 gm',
    p7_profile_Validate esl_FCompare gm tol master = Some (Normal c, master)
    ∧ p7_profile_MPIRecv abc bg ret_gm receiver = Some (Normal eslOK, w1)
    ∧ rd w1 ret_gm = Some (Vptr gm')
    ∧ p7_profile_Validate esl_FCompare gm' tol w1 = Some (Normal c, w1).
Proof.
  intros Hat Hbegin Hend Hxt HM HKp HK Hwf Hfr HrK HrKp Hf Hret Hin.
  destruct (Recv_profile_run receiver M K Kp im abc bg ret_gm rest)
    as (w1 & gm' & Hrecv & Hgm & Hprof & _); [done..|].
  pose proof Hwf as [HiM _].
  eexists _, w1, gm'.
  split; [by apply (Validate_run esl_FCompare master gm M Kp im tol)|].
  split; [exact Hrecv|]. split; [exact Hgm|].
  by rewrite (Validate_run esl_FCompare w1 gm' M Kp (received_image im abc bg) tol).
Qed.

(** ** The theorems at work on the example states *)

Lemma fresh_alphabet_state K Kp fates : fresh (alphabet_state K Kp fates).
Proof. intros b Hb. cbn in Hb |- *. apply lookup_singleton_ne. lia. Qed.

Lemma fresh_frame m0 b0 bl f snt inb :
  (∀ b, b0 ≤ b → m0 !! b = None) → fresh (frame m0 b0 bl f snt inb).
Proof.
  intros Hm b Hb. cbn [frame mem brk] in *. unfold nb in Hb.
  rewrite heap_of_lookup, decide_False by lia. apply Hm. lia.
Qed.

Lemma fresh_example_state : fresh example_state.
Proof. apply fresh_frame. intros b Hb. apply lookup_singleton_ne. lia. Qed.

Lemma fresh_example_worker inb : fresh (example_worker inb).
Proof.
  intros b Hb. cbn in Hb |- *.
  rewrite lookup_insert_ne by lia. apply lookup_singleton_ne. lia.
Qed.

Lemma example_profile_at : profile_at example_state (Ptr 1 0) 2 3 example_image.
Proof.
  exists 1. split; [reflexivity|]. intros j Hj.
  do 11 (destruct j as [|j]; [vm_compute; reflexivity|]). lia.
Qed.

Lemma example_floats :
  floats_from (i_begin example_image) 1 (2 + 1)
  ∧ floats_from (i_end example_image) 1 (2 + 1)
  ∧ floats_from (i_xt example_image) 0 8.
Proof.
  repeat split; intros k Hk.
  - assert (k = 1 ∨ k = 2) as [-> | ->] by lia; eexists; reflexivity.
  - assert (k = 1 ∨ k = 2) as [-> | ->] by lia; eexists; reflexivity.
  - assert (k = 0 ∨ k = 1 ∨ k = 2 ∨ k = 3 ∨ k = 4 ∨ k = 5 ∨ k = 6 ∨ k = 7)
      as [->|[->|[->|[->|[->|[->|[->| ->]]]]]]] by lia; eexists; reflexivity.
Qed.

Lemma fresh_SetHandler h s :
  fresh s → -1 < brk s → fresh (esl_exception_SetHandler h s).
Proof.
  intros Hfresh Hb b Hge. cbn [esl_exception_SetHandler with_mem mem brk] in *.
  rewrite lookup_insert_ne by lia. by apply Hfresh.
Qed.

Lemma GetT_grammar_or_EINVAL_witness :
  (∃ v s', p7_profile_GetT (Ptr 1 0) p7_STM 1 p7_STM 2 (Ptr 12 0) example_state
           = Some (Normal eslOK, s')
           ∧ rd s' (Ptr 12 0) = Some v)
  ∧ (∃ s', p7_profile_GetT (Ptr 1 0) p7_STN 0 p7_STM 1 (Ptr 12 0)
             (esl_exception_SetHandler application_handler example_state)
           = Some (Normal eslEINVAL, s')
           ∧ rd s' (Ptr 12 0) = Some (Vint 0))
  ∧ p7_profile_GetT (Ptr 1 0) p7_STN 0 p7_STM 1 (Ptr 12 0)
      (esl_exception_SetHandler NULL example_state) = None.
Proof.
  split; [|split].
  - apply (GetT_grammar_or_EINVAL example_state (Ptr 1 0) p7_STM 1 p7_STM 2 (Ptr 12 0)).
    + eexists; reflexivity.
    + reflexivity.
    + intros r [= <-]. eexists; reflexivity.
  - apply (GetT_grammar_or_EINVAL
             (esl_exception_SetHandler application_handler example_state)
             (Ptr 1 0) p7_STN 0 p7_STM 1 (Ptr 12 0)).
    + eexists; reflexivity.
    + reflexivity.
    + discriminate.
    + discriminate.
    + exists application_handler. split; [discriminate|reflexivity].
  - apply (GetT_grammar_or_EINVAL
             (esl_exception_SetHandler NULL example_state)
             (Ptr 1 0) p7_STN 0 p7_STM 1 (Ptr 12 0)).
    + eexists; reflexivity.
    + reflexivity.
    + discriminate.
    + discriminate.
    + reflexivity.
Defined.

Lemma GetT_stored_score_witness :
  ∃ s', p7_profile_GetT (Ptr 1 0) p7_STM 1 p7_STM 2 (Ptr 12 0) example_state
        = Some (Normal eslOK, s')
        ∧ rd s' (Ptr 12 0) = Some (Vint 101).
Proof.
  eexists.
  apply (GetT_stored_score example_state (Ptr 1 0) p7_STM 1 p7_STM 2 (Ptr 12 0)
           (Tsc p7_TMM 1) (Vint 101)).
  - reflexivity.
  - reflexivity.
  - reflexivity.
Defined.

Lemma Validate_iff_invariants_witness :
  ∃ c, p7_profile_Validate exact_compare (Ptr 1 0) float_zero example_state
       = Some (Normal c, example_state)
       ∧ (c = eslOK ↔ local_entry_normalized exact_compare 2 example_image float_zero
                       ∧ local_exit_unconditional 2 example_image
                       ∧ special_rows_normalized exact_compare example_image float_zero)
       ∧ (c ≠ eslOK → c = eslFAIL).
Proof.
  apply (Validate_iff_invariants exact_compare example_state (Ptr 1 0) 2 3
           example_image float_zero).
  - exact example_profile_at.
  - reflexivity.
  - exact (proj1 example_floats).
  - exact (proj1 (proj2 example_floats)).
  - exact (proj2 (proj2 example_floats)).
Defined.

Lemma accessors_leave_profile_unchanged_witness :
  (∃ c s', p7_profile_GetT (Ptr 1 0) p7_STM 1 p7_STM 2 (Ptr 12 0) example_state
           = Some (Normal c, s')
           ∧ profile_at s' (Ptr 1 0) 2 3 example_image
           ∧ ∀ b o, Ptr b o ≠ Ptr 12 0 → rd s' (Ptr b o) = rd example_state (Ptr b o))
  ∧ (∃ c, p7_profile_Validate exact_compare (Ptr 1 0) float_zero example_state
          = Some (Normal c, example_state)).
Proof.
  split.
  - apply (proj1 (accessors_leave_profile_unchanged exact_compare example_state
                    (Ptr 1 0) 2 3 example_image example_profile_at)).
    + eexists; reflexivity.
    + simpl. lia.
    + intros r [= <-]. eexists; reflexivity.
    + intros Hlegal. vm_compute in Hlegal. discriminate Hlegal.
  - apply (proj2 (proj2 (accessors_leave_profile_unchanged exact_compare example_state
                    (Ptr 1 0) 2 3 example_image example_profile_at))).
    + reflexivity.
    + exact (proj1 example_floats).
    + exact (proj1 (proj2 example_floats)).
    + exact (proj2 (proj2 example_floats)).
Defined.

Lemma Create_allocation_failure_witness :
  p7_profile_Destroy NULL
    (esl_exception_SetHandler application_handler (alphabet_state 2 3 [true; true; false]))
  = Some (Normal tt,
          esl_exception_SetHandler application_handler (alphabet_state 2 3 [true; true; false]))
  ∧ (∃ s', p7_profile_Create 2 (Ptr 0 0)
             (esl_exception_SetHandler application_handler
                (alphabet_state 2 3 [true; true; false]))
           = Some (Normal NULL, s')
           ∧ mem s' = mem (esl_exception_SetHandler application_handler
                             (alphabet_state 2 3 [true; true; false]))
           ∧ sent s' = [] ∧ inbox s' = [])
  ∧ p7_profile_Create 2 (Ptr 0 0)
      (esl_exception_SetHandler NULL (alphabet_state 2 3 [true; true; false])) = None.
Proof.
  split; [|split].
  - apply (Create_allocation_failure
             (esl_exception_SetHandler application_handler
                (alphabet_state 2 3 [true; true; false])) 2 3 (Ptr 0 0)).
    + lia.
    + lia.
    + apply fresh_SetHandler; [apply fresh_alphabet_state|reflexivity].
    + reflexivity.
    + exists 2%nat. split; [lia|reflexivity].
  - apply (Create_allocation_failure
             (esl_exception_SetHandler application_handler
                (alphabet_state 2 3 [true; true; false])) 2 3 (Ptr 0 0)).
    + lia.
    + lia.
    + apply fresh_SetHandler; [apply fresh_alphabet_state|reflexivity].
    + reflexivity.
    + exists 2%nat. split; [lia|reflexivity].
    + exists application_handler. split; [discriminate|reflexivity].
  - apply (Create_allocation_failure
             (esl_exception_SetHandler NULL
                (alphabet_state 2 3 [true; true; false])) 2 3 (Ptr 0 0)).
    + lia.
    + lia.
    + apply fresh_SetHandler; [apply fresh_alphabet_state|reflexivity].
    + reflexivity.
    + exists 2%nat. split; [lia|reflexivity].
    + reflexivity.
Defined.

Lemma Create_one_node_undefined_witness :
  p7_profile_Create 1 (Ptr 0 0) (alphabet_state 2 3 []) = None.
Proof.
  apply (Create_one_node_undefined (alphabet_state 2 3 []) 2 3 (Ptr 0 0)).
  - lia.
  - lia.
  - apply fresh_alphabet_state.
  - reflexivity.
  - reflexivity.
  - constructor.
Defined.

Lemma MPI_end_of_data_witness :
  (∃ s1, p7_profile_MPISend NULL 1 example_state = Some (Normal eslOK, s1)
         ∧ sent s1 = sent example_state ++ [eod_message 1]
         ∧ mem s1 = mem example_state)
  ∧ (∃ s2, p7_profile_MPIRecv (Ptr 0 0) NULL (Ptr 1 0) (example_worker [eod_message 0])
           = Some (Normal eslEOD, s2)
           ∧ mem s2 = mem (example_worker [eod_message 0])
           ∧ heap_ok s2 = heap_ok (example_worker [eod_message 0])
           ∧ inbox s2 = []).
Proof.
  apply (MPI_end_of_data example_state (example_worker [eod_message 0]) 1
           (Ptr 0 0) NULL (Ptr 1 0) []).
  - apply fresh_example_state.
  - apply fresh_example_worker.
  - reflexivity.
Defined.

Lemma MPI_round_trip_witness :
  (∃ sender',
      p7_profile_MPISend (Ptr 1 0) 1 example_state = Some (Normal eslOK, sender')
      ∧ sent sender' = sent example_state ++ wire_format 1 example_image
      ∧ mem sender' = mem example_state)
  ∧ (∃ receiver' gm',
      p7_profile_MPIRecv (Ptr 0 0) NULL (Ptr 1 0)
        (example_worker (deliver 0 1 (wire_format 1 example_image)))
      = Some (Normal eslOK, receiver')
      ∧ rd receiver' (Ptr 1 0) = Some (Vptr gm')
      ∧ profile_at receiver' gm' 2 3 (received_image example_image (Ptr 0 0) NULL)
      ∧ inbox receiver' = []).
Proof.
  apply (MPI_round_trip example_state (Ptr 1 0) 2 3 example_image (Ptr 0 0) 1
           (example_worker (deliver 0 1 (wire_format 1 example_image)))
           (Ptr 0 0) NULL 2 (Ptr 1 0) []).
  - apply fresh_example_state.
  - exact example_profile_at.
  - repeat split; reflexivity.
  - reflexivity.
  - reflexivity.
  - lia.
  - lia.
  - apply fresh_example_worker.
  - reflexivity.
  - lia.
  - reflexivity.
  - constructor.
  - eexists; reflexivity.
  - vm_compute; reflexivity.
Defined.

Lemma fresh_one_node_state : fresh one_node_state.
Proof. apply fresh_frame. intros b Hb. apply lookup_singleton_ne. lia. Qed.

Lemma one_node_profile_at : profile_at one_node_state (Ptr 1 0) 1 3 one_node_image.
Proof.
  exists 1. split; [reflexivity|]. intros j Hj.
  do 11 (destruct j as [|j]; [vm_compute; reflexivity|]). lia.
Qed.

Lemma MPI_one_node_not_received_witness :
  (∃ sender',
      p7_profile_MPISend (Ptr 1 0) 1 one_node_state = Some (Normal eslOK, sender')
      ∧ sent sender' = sent one_node_state ++ wire_format 1 one_node_image
      ∧ mem sender' = mem one_node_state)
  ∧ p7_profile_MPIRecv (Ptr 0 0) NULL (Ptr 1 0)
      (example_worker (deliver 0 1 (wire_format 1 one_node_image))) = None.
Proof.
  apply (MPI_one_node_not_received one_node_state (Ptr 1 0) 3 one_node_image (Ptr 0 0) 1
           (example_worker (deliver 0 1 (wire_format 1 one_node_image)))
           (Ptr 0 0) NULL 2 (Ptr 1 0) []).
  - apply fresh_one_node_state.
  - exact one_node_profile_at.
  - repeat split; reflexivity.
  - reflexivity.
  - reflexivity.
  - lia.
  - apply fresh_example_worker.
  - reflexivity.
  - lia.
  - reflexivity.
  - constructor.
  - vm_compute; reflexivity.
Defined.

Lemma refmx_row_layout_witness :
  row_layout 2
  = mjoin ((λ k, [MainCell k p7R_ML; MainCell k p7R_MG; MainCell k p7R_IL;
                  MainCell k p7R_IG; MainCell k p7R_DL; MainCell k p7R_DG])
             <$> seqZ 0 (2 + 1))
    ++ [SpecialCell p7R_E; SpecialCell p7R_N; SpecialCell p7R_J;
        SpecialCell p7R_B; SpecialCell p7R_L; SpecialCell p7R_G;
        SpecialCell p7R_C; SpecialCell p7R_JJ; SpecialCell p7R_CC]
  ∧ length (row_layout 2) = Z.to_nat ((2 + 1) * 6 + 9)
  ∧ (∀ k s, 0 ≤ k ≤ 2 → 0 ≤ s < p7R_NSCELLS →
       P7R_MX (Ptr 0 0) 1 k s example_refmx
       = Some (Normal (Ptr 1 27 +ₚ (k * 6 + s)), example_refmx)
       ∧ row_layout 2 !! Z.to_nat (k * 6 + s) = Some (MainCell k s))
  ∧ (∀ s, 0 ≤ s < p7R_NXCELLS →
       P7R_XMX (Ptr 0 0) 1 s example_refmx
       = Some (Normal (Ptr 1 27 +ₚ ((2 + 1) * 6 + s)), example_refmx)
       ∧ row_layout 2 !! Z.to_nat ((2 + 1) * 6 + s) = Some (SpecialCell s)).
Proof.
  apply (refmx_row_layout example_refmx (Ptr 0 0) (Ptr 2 0) (Ptr 1 27) 1 2).
  - lia.
  - reflexivity.
  - reflexivity.
  - reflexivity.
Defined.

Lemma Create_impossible_cells_witness :
  ∃ s', p7_profile_Create 2 (Ptr 0 0) (alphabet_state 2 3 [])
        = Some (Normal (Ptr 1 0), s')
    ∧ (∀ x, 0 ≤ x < 7 →
         tbl_at s' (Ptr 1 0) P7_PROFILE.tsc x 0 = Some impossible)
    ∧ (∀ x, 0 ≤ x < 3 →
         tbl_at s' (Ptr 1 0) P7_PROFILE.msc x 0 = Some impossible
         ∧ tbl_at s' (Ptr 1 0) P7_PROFILE.isc x 0 = Some impossible)
    ∧ tbl_at s' (Ptr 1 0) P7_PROFILE.tsc p7_TDM 1 = Some impossible
    ∧ tbl_at s' (Ptr 1 0) P7_PROFILE.tsc p7_TDD 1 = Some impossible
    ∧ (∀ k, 0 ≤ k ≤ 2 →
         tbl_at s' (Ptr 1 0) P7_PROFILE.msc 2 k = Some impossible
         ∧ tbl_at s' (Ptr 1 0) P7_PROFILE.msc (3 - 1) k = Some impossible)
    ∧ (∀ k, 0 ≤ k < 2 →
         tbl_at s' (Ptr 1 0) P7_PROFILE.isc 2 k = Some impossible
         ∧ tbl_at s' (Ptr 1 0) P7_PROFILE.isc (3 - 1) k = Some impossible).
Proof.
  apply (Create_impossible_cells (alphabet_state 2 3 []) 2 2 3 (Ptr 0 0)).
  - lia.
  - lia.
  - lia.
  - apply fresh_alphabet_state.
  - reflexivity.
  - reflexivity.
  - constructor.
Defined.

Lemma fresh_worker_state fates inb : fresh (worker_state fates inb).
Proof.
  intros b Hb. cbn in Hb |- *.
  rewrite lookup_insert_ne by lia. apply lookup_singleton_ne. lia.
Qed.

Lemma example_wf_image : wf_image 2 3 example_image.
Proof. repeat split; reflexivity. Qed.

Lemma Destroy_frees_profile_witness :
  ∃ s', p7_profile_Destroy (Ptr 1 0) example_state = Some (Normal tt, s')
        ∧ (∀ b, profile_block (Ptr 1 0) b → mem s' !! b = None)
        ∧ (∀ b, ¬ profile_block (Ptr 1 0) b → mem s' !! b = mem example_state !! b)
        ∧ brk s' = brk example_state ∧ heap_ok s' = heap_ok example_state
        ∧ sent s' = sent example_state ∧ inbox s' = inbox example_state.
Proof.
  apply (Destroy_frees_profile example_state (Ptr 1 0) 2 3 example_image).
  - apply fresh_example_state.
  - exact example_profile_at.
  - lia.
Defined.

Lemma Destroy_twice_undefined_witness :
  (p7_profile_Destroy (Ptr 1 0);; p7_profile_Destroy (Ptr 1 0)) example_state = None.
Proof.
  apply (Destroy_twice_undefined example_state (Ptr 1 0) 2 3 example_image).
  - apply fresh_example_state.
  - exact example_profile_at.
  - lia.
Defined.

Lemma Create_fresh_profile_witness :
  ∃ gm s',
    p7_profile_Create 2 (Ptr 0 0) (alphabet_state 2 3 []) = Some (Normal gm, s')
    ∧ gm = Ptr (brk (alphabet_state 2 3 [])) 0
    ∧ rd s' (field gm P7_PROFILE.mode) = Some (Vint p7_NO_MODE)
    ∧ rd s' (field gm P7_PROFILE.M) = Some (Vint 2)
    ∧ rd s' (field gm P7_PROFILE.abc) = Some (Vptr (Ptr 0 0))
    ∧ rd s' (field gm P7_PROFILE.hmm) = Some (Vptr NULL)
    ∧ rd s' (field gm P7_PROFILE.bg) = Some (Vptr NULL)
    ∧ rd s' (field gm P7_PROFILE.do_lcorrect) = Some (Vint 0)
    ∧ rd s' (field gm P7_PROFILE.lscore) = Some (Vflt float_zero)
    ∧ rd s' (field gm P7_PROFILE.h2_mode) = Some (Vint 0)
    ∧ (∀ b o, b < brk (alphabet_state 2 3 []) →
         rd s' (Ptr b o) = rd (alphabet_state 2 3 []) (Ptr b o))
    ∧ (∀ b, profile_block gm b →
         mem (alphabet_state 2 3 []) !! b = None ∧ is_Some (mem s' !! b))
    ∧ brk s' = brk (alphabet_state 2 3 []) + 11
    ∧ heap_ok s' = Nat.iter 11 tail (heap_ok (alphabet_state 2 3 []))
    ∧ sent s' = sent (alphabet_state 2 3 [])
    ∧ inbox s' = inbox (alphabet_state 2 3 [])
    ∧ fresh s'.
Proof.
  apply (Create_fresh_profile (alphabet_state 2 3 []) 2 2 3 (Ptr 0 0)).
  - lia.
  - lia.
  - lia.
  - apply fresh_alphabet_state.
  - reflexivity.
  - reflexivity.
  - constructor.
Defined.

Lemma Create_cells_in_bounds_witness :
  ∃ gm s' t m i tsc0 msc0 isc0,
    p7_profile_Create 2 (Ptr 0 0) (alphabet_state 2 3 []) = Some (Normal gm, s')
    ∧ rd s' (field gm P7_PROFILE.tsc) = Some (Vptr t)
    ∧ rd s' (field gm P7_PROFILE.msc) = Some (Vptr m)
    ∧ rd s' (field gm P7_PROFILE.isc) = Some (Vptr i)
    ∧ (∀ x, 0 ≤ x < 7 → rd s' (t +ₚ x) = Some (Vptr (tsc0 +ₚ x * 2)))
    ∧ (∀ x, 0 ≤ x < 3 → rd s' (m +ₚ x) = Some (Vptr (msc0 +ₚ x * (2 + 1))))
    ∧ (∀ x, 0 ≤ x < 3 → rd s' (i +ₚ x) = Some (Vptr (isc0 +ₚ x * 2)))
    ∧ (∀ x k, 0 ≤ x < 7 → 0 ≤ k < 2 →
         is_Some (tbl_at s' gm P7_PROFILE.tsc x k))
    ∧ (∀ x k, 0 ≤ x < 3 → 0 ≤ k ≤ 2 →
         is_Some (tbl_at s' gm P7_PROFILE.msc x k))
    ∧ (∀ x k, 0 ≤ x < 3 → 0 ≤ k < 2 →
         is_Some (tbl_at s' gm P7_PROFILE.isc x k))
    ∧ (∀ k, 0 ≤ k ≤ 2 →
         is_Some (vec_at s' gm P7_PROFILE.bsc k)
         ∧ is_Some (vec_at s' gm P7_PROFILE.esc k)
         ∧ is_Some (vec_at s' gm P7_PROFILE.begin k)
         ∧ is_Some (vec_at s' gm P7_PROFILE.end_ k)).
Proof.
  apply (Create_cells_in_bounds (alphabet_state 2 3 []) 2 2 3 (Ptr 0 0)).
  - lia.
  - lia.
  - lia.
  - apply fresh_alphabet_state.
  - reflexivity.
  - reflexivity.
  - constructor.
Defined.

Lemma Create_Destroy_no_leak_witness :
  ∃ gm s1 s2,
    p7_profile_Create 2 (Ptr 0 0) (alphabet_state 2 3 []) = Some (Normal gm, s1)
    ∧ gm ≠ NULL
    ∧ mem s1 ≠ mem (alphabet_state 2 3 [])
    ∧ p7_profile_Destroy gm s1 = Some (Normal tt, s2)
    ∧ mem s2 = mem (alphabet_state 2 3 []).
Proof.
  apply (Create_Destroy_no_leak (alphabet_state 2 3 []) 2 2 3 (Ptr 0 0)).
  - lia.
  - lia.
  - lia.
  - apply fresh_alphabet_state.
  - reflexivity.
  - reflexivity.
  - constructor.
Defined.

Lemma Create_GetT_impossible_witness :
  ∃ gm s1 s2,
    p7_profile_Create 2 (Ptr 0 0) (worker_state [] []) = Some (Normal gm, s1)
    ∧ p7_profile_GetT gm p7_STD 1 p7_STM 2 (Ptr 1 1) s1 = Some (Normal eslOK, s2)
    ∧ rd s2 (Ptr 1 1) = Some (Vint p7_IMPOSSIBLE).
Proof.
  apply (Create_GetT_impossible (worker_state [] []) 2 2 3 (Ptr 0 0)
           p7_STD 1 p7_STM 2 p7_TDM (Ptr 1 1)).
  - lia.
  - lia.
  - lia.
  - apply fresh_worker_state.
  - reflexivity.
  - reflexivity.
  - constructor.
  - eexists; reflexivity.
  - reflexivity.
  - right. split; reflexivity.
Defined.

Lemma Recv_allocation_failure_undefined_witness :
  p7_profile_MPIRecv (Ptr 0 0) NULL (Ptr 1 0)
    (esl_exception_SetHandler application_handler
       (worker_state [true; true; false] [Msg 0 0 MPI_INT [Vint 2]])) = None
  ∧ p7_profile_MPIRecv (Ptr 0 0) NULL (Ptr 1 0)
      (esl_exception_SetHandler NULL
         (worker_state [true; true; false] [Msg 0 0 MPI_INT [Vint 2]])) = None.
Proof.
  split.
  - apply (Recv_allocation_failure_undefined
             (esl_exception_SetHandler application_handler
                (worker_state [true; true; false] [Msg 0 0 MPI_INT [Vint 2]]))
             (Ptr 0 0) NULL (Ptr 1 0) 2 3 []).
    + apply fresh_SetHandler; [apply fresh_worker_state|reflexivity].
    + reflexivity.
    + lia.
    + lia.
    + reflexivity.
    + exists 2%nat. split; [lia|reflexivity].
    + left. exists application_handler. split; [discriminate|reflexivity].
  - apply (Recv_allocation_failure_undefined
             (esl_exception_SetHandler NULL
                (worker_state [true; true; false] [Msg 0 0 MPI_INT [Vint 2]]))
             (Ptr 0 0) NULL (Ptr 1 0) 2 3 []).
    + apply fresh_SetHandler; [apply fresh_worker_state|reflexivity].
    + reflexivity.
    + lia.
    + lia.
    + reflexivity.
    + exists 2%nat. split; [lia|reflexivity].
    + right. reflexivity.
Defined.

Lemma MPI_profile_then_end_of_data_witness :
  ∃ m1 m2 w1 w2 gm',
    p7_profile_MPISend (Ptr 1 0) 1 example_state = Some (Normal eslOK, m1)
    ∧ p7_profile_MPISend NULL 1 m1 = Some (Normal eslOK, m2)
    ∧ sent m2 = sent example_state ++ wire_format 1 example_image ++ [eod_message 1]
    ∧ mem m2 = mem example_state
    ∧ p7_profile_MPIRecv (Ptr 0 0) NULL (Ptr 1 0)
        (worker_state []
           (deliver 0 1 (wire_format 1 example_image ++ [eod_message 1])))
      = Some (Normal eslOK, w1)
    ∧ p7_profile_MPIRecv (Ptr 0 0) NULL (Ptr 1 0) w1 = Some (Normal eslEOD, w2)
    ∧ rd w2 (Ptr 1 0) = Some (Vptr gm')
    ∧ profile_at w2 gm' 2 3 (received_image example_image (Ptr 0 0) NULL)
    ∧ inbox w2 = [].
Proof.
  apply (MPI_profile_then_end_of_data example_state (Ptr 1 0) 2 3 example_image
           (Ptr 0 0) 1
           (worker_state []
              (deliver 0 1 (wire_format 1 example_image ++ [eod_message 1])))
           (Ptr 0 0) NULL 2 (Ptr 1 0) []).
  - apply fresh_example_state.
  - exact example_profile_at.
  - exact example_wf_image.
  - reflexivity.
  - reflexivity.
  - lia.
  - lia.
  - apply fresh_worker_state.
  - reflexivity.
  - lia.
  - reflexivity.
  - constructor.
  - eexists; reflexivity.
  - vm_compute; reflexivity.
Defined.

Lemma Recv_then_Send_same_messages_witness :
  ∃ w1 gm' w2,
    p7_profile_MPIRecv (Ptr 0 0) NULL (Ptr 1 0)
      (worker_state [] (wire_format 0 example_image))
    = Some (Normal eslOK, w1)
    ∧ rd w1 (Ptr 1 0) = Some (Vptr gm')
    ∧ p7_profile_MPISend gm' 5 w1 = Some (Normal eslOK, w2)
    ∧ sent w2 = sent (worker_state [] (wire_format 0 example_image))
                ++ wire_format 5 example_image
    ∧ mem w2 = mem w1.
Proof.
  apply (Recv_then_Send_same_messages (worker_state [] (wire_format 0 example_image))
           2 2 3 example_image (Ptr 0 0) NULL (Ptr 1 0) [] 5).
  - lia.
  - lia.
  - lia.
  - exact example_wf_image.
  - apply fresh_worker_state.
  - reflexivity.
  - reflexivity.
  - constructor.
  - eexists; reflexivity.
  - discriminate.
  - vm_compute; reflexivity.
Defined.

Lemma refmx_cells_distinct_witness :
  (∀ k s k' s' p,
     0 ≤ k ≤ 2 → 0 ≤ k' ≤ 2 → 0 ≤ s < p7R_NSCELLS → 0 ≤ s' < p7R_NSCELLS →
     P7R_MX (Ptr 0 0) 1 k s example_refmx = Some (Normal p, example_refmx) →
     P7R_MX (Ptr 0 0) 1 k' s' example_refmx = Some (Normal p, example_refmx) →
     1 = 1 ∧ k = k' ∧ s = s')
  ∧ (∀ s s' p,
     0 ≤ s < p7R_NXCELLS → 0 ≤ s' < p7R_NXCELLS →
     P7R_XMX (Ptr 0 0) 1 s example_refmx = Some (Normal p, example_refmx) →
     P7R_XMX (Ptr 0 0) 1 s' example_refmx = Some (Normal p, example_refmx) →
     1 = 1 ∧ s = s')
  ∧ (∀ k s s' p,
     0 ≤ k ≤ 2 → 0 ≤ s < p7R_NSCELLS → 0 ≤ s' < p7R_NXCELLS →
     P7R_MX (Ptr 0 0) 1 k s example_refmx = Some (Normal p, example_refmx) →
     P7R_XMX (Ptr 0 0) 1 s' example_refmx ≠ Some (Normal p, example_refmx))
  ∧ (∀ k s, 0 ≤ k ≤ 2 → 0 ≤ s < p7R_NSCELLS →
     ∃ n, P7R_MX (Ptr 0 0) 1 k s example_refmx
          = Some (Normal (Ptr 1 (0 + n)), example_refmx)
          ∧ 1 * 27 ≤ n < (1 + 1) * 27)
  ∧ (∀ s, 0 ≤ s < p7R_NXCELLS →
     ∃ n, P7R_XMX (Ptr 0 0) 1 s example_refmx
          = Some (Normal (Ptr 1 (0 + n)), example_refmx)
          ∧ 1 * 27 ≤ n < (1 + 1) * 27).
Proof.
  apply (refmx_cells_distinct example_refmx (Ptr 0 0) (Ptr 2 0) 1 0 27 2 2).
  - lia.
  - unfold p7R_NSCELLS, p7R_NXCELLS. lia.
  - reflexivity.
  - reflexivity.
  - reflexivity.
  - reflexivity.
  - intros r Hr. assert (r = 0 ∨ r = 1) as [-> | ->] by lia; reflexivity.
  - lia.
  - lia.
Defined.

Lemma GetT_only_writes_ret_tsc_witness :
  ∃ v, wr (esl_exception_SetHandler application_handler example_state) (Ptr 12 0) v
       = Some (with_mem (esl_exception_SetHandler application_handler example_state)
                 (<[12 := [Vint 0]]>
                    (mem (esl_exception_SetHandler application_handler example_state))))
       ∧ (Normal eslEINVAL = Normal eslOK
          ∨ (Normal eslEINVAL = Normal eslEINVAL ∧ v = Vint 0)).
Proof.
  apply (GetT_only_writes_ret_tsc (Ptr 1 0) p7_STN 0 p7_STM 1 (Ptr 12 0)
           (esl_exception_SetHandler application_handler example_state)).
  vm_compute. reflexivity.
Defined.

Lemma GetT_node_index_ignored_witness :
  p7_profile_GetT (Ptr 1 0) p7_STN 7 p7_STB 9 (Ptr 12 0) example_state
  = p7_profile_GetT (Ptr 1 0) p7_STN 0 p7_STB 0 (Ptr 12 0) example_state.
Proof.
  apply (GetT_node_index_ignored (Ptr 1 0) p7_STN 0 p7_STB 0 7 9 (Ptr 12 0) example_state).
  - intros [H|[H|H]]; discriminate H.
  - intros H; discriminate H.
Defined.

Lemma Validate_only_reads_witness :
  example_state = example_state ∧ (Normal eslOK = Normal eslOK ∨ Normal eslOK = Normal eslFAIL).
Proof.
  apply (Validate_only_reads exact_compare (Ptr 1 0) float_zero example_state).
  vm_compute. reflexivity.
Defined.

Lemma GetT_unchecked_node_index_witness :
  (∀ k1 k2, k2 < 0 ∨ 2 < k2 →
     p7_profile_GetT (Ptr 1 0) p7_STB k1 p7_STM k2 (Ptr 12 0) example_state = None)
  ∧ (∀ k k2 k2',
     p7_profile_GetT (Ptr 1 0) p7_STM (2 + k) p7_STM k2 (Ptr 12 0) example_state
     = p7_profile_GetT (Ptr 1 0) p7_STM k p7_STI k2' (Ptr 12 0) example_state).
Proof.
  apply (GetT_unchecked_node_index example_state (Ptr 1 0) 2 3 example_image (Ptr 12 0)).
  - exact example_profile_at.
  - exact example_wf_image.
Defined.

Lemma Recv_GetT_same_score_witness :
  ∃ w1 gm' w2,
    p7_profile_MPIRecv (Ptr 0 0) NULL (Ptr 1 0)
      (worker_state [] (wire_format 0 example_image))
    = Some (Normal eslOK, w1)
    ∧ rd w1 (Ptr 1 0) = Some (Vptr gm')
    ∧ p7_profile_GetT gm' p7_STM 1 p7_STM 2 (Ptr 1 1) w1 = Some (Normal eslOK, w2)
    ∧ rd w2 (Ptr 1 1) = Some (Vint 101).
Proof.
  apply (Recv_GetT_same_score example_state (Ptr 1 0) 2 2 3 example_image
           (worker_state [] (wire_format 0 example_image)) (Ptr 0 0) NULL (Ptr 1 0) []
           p7_STM 1 p7_STM 2 (Tsc p7_TMM 1) (Vint 101) (Ptr 1 1)).
  - exact example_profile_at.
  - reflexivity.
  - reflexivity.
  - lia.
  - lia.
  - lia.
  - exact example_wf_image.
  - apply fresh_worker_state.
  - reflexivity.
  - reflexivity.
  - constructor.
  - eexists; reflexivity.
  - eexists; reflexivity.
  - discriminate.
  - vm_compute; reflexivity.
Defined.

Lemma Recv_Validate_same_status_witness :
  ∃ c w1 gm',
    p7_profile_Validate exact_compare (Ptr 1 0) float_zero example_state
    = Some (Normal c, example_state)
    ∧ p7_profile_MPIRecv (Ptr 0 0) NULL (Ptr 1 0)
        (worker_state [] (wire_format 0 example_image))
      = Some (Normal eslOK, w1)
    ∧ rd w1 (Ptr 1 0) = Some (Vptr gm')
    ∧ p7_profile_Validate exact_compare gm' float_zero w1 = Some (Normal c, w1).
Proof.
  apply (Recv_Validate_same_status exact_compare float_zero example_state (Ptr 1 0)
           2 2 3 example_image (worker_state [] (wire_format 0 example_image))
           (Ptr 0 0) NULL (Ptr 1 0) []).
  - exact example_profile_at.
  - exact (proj1 example_floats).
  - exact (proj1 (proj2 example_floats)).
  - exact (proj2 (proj2 example_floats)).
  - lia.
  - lia.
  - lia.
  - exact example_wf_image.
  - apply fresh_worker_state.
  - reflexivity.
  - reflexivity.
  - constructor.
  - eexists; reflexivity.
  - vm_compute; reflexivity.
Defined.
